(** * Grapher: a shallow embedding of the graph editor

    The development follows the three source files:
    - [grapher.js]: the scene store (vertices, edges, selection, edge under
      construction), the event handlers, the redraw pass, the two export
      functions, the numeric formatter [fixed] and the label formatters
      [makeSubscripts] and [makeLaTeXSubscripts];
    - [Vertex.js]: vertices (hit test, nearest circle point, drag offsets);
    - [Edge.js]: edges, directed edges and their temporary variants.

    JavaScript numbers are IEEE 754 binary64 values and are modelled by Rocq's
    primitive floats, whose operations are the same correctly rounded ones.
    JavaScript strings are sequences of UTF-16 code units and are modelled as
    lists of code units.  Objects live in two append-only heaps (one of
    vertices, one of edges); a reference is an index into its heap, so that
    [==] on objects is equality of references. *)

From Stdlib Require Import ZArith NArith List Bool Lia Floats.
From Stdlib Require Import Strings.String Strings.Ascii.
From stdpp Require Import base list.

Local Open Scope N_scope.

(** ** Strings *)

(** A string is the list of its UTF-16 code units. *)
Definition str := list N.

(** Reading of a literal: every character of an ASCII literal is one code
    unit. *)
Definition js (s : string) : str :=
  List.map N_of_ascii (list_ascii_of_string s).
Arguments js s%_string.

Definition UNDERSCORE : N := 95.
Definition ZERO : N := 48.
Definition NINE : N := 57.
Definition DOT : N := 46.
Definition SPACE : N := 32.

Definition isDigit (c : N) : bool := (ZERO <=? c) && (c <=? NINE).

(** [String.fromCharCode]: the code unit is the argument modulo 2^16. *)
Definition fromCharCode (code : Z) : str := [Z.to_N (code mod 65536)].

(** [s.substr(start, length)], as in ECMAScript B.2.3: a negative start counts
    from the end, the length is clamped to what is left of the string. *)
Definition substr (s : str) (start len : Z) : str :=
  let size := Z.of_nat (length s) in
  let from := if (start <? 0)%Z then Z.max (size + start) 0 else Z.min start size in
  let count := Z.min (Z.max len 0) (size - from) in
  take (Z.to_nat count) (drop (Z.to_nat from) s).

(** *** Regular expressions used by the program

    A global search scans the subject from left to right.  At each position
    the expression is tried ([hit]): on success the match contributes [out]
    and the scan goes on after the match; on failure the scan moves one code
    unit forward and the skipped unit contributes [miss].  Every expression
    of the program matches at least one code unit, so the length of the
    subject bounds the number of steps. *)
Fixpoint regexScan {A : Type} (fuel : nat) (hit : str -> option (list A * str))
    (miss : N -> list A) (subject : str) : list A :=
  match fuel with
  | O => []
  | S fuel' =>
      match subject with
      | [] => []
      | c :: rest =>
          match hit subject with
          | Some (out, after) => (out ++ regexScan fuel' hit miss after)%list
          | None => (miss c ++ regexScan fuel' hit miss rest)%list
          end
      end
  end.

Definition scanAll {A : Type} (hit : str -> option (list A * str))
    (miss : N -> list A) (subject : str) : list A :=
  regexScan (length subject) hit miss subject.

(** The longest run of decimal digits at the head of a string, and what
    follows it. *)
Fixpoint digitRun (s : str) : str * str :=
  match s with
  | c :: rest =>
      if isDigit c then let (ds, after) := digitRun rest in (c :: ds, after)
      else ([], s)
  | [] => ([], [])
  end.

(** [/_[0-9]+_/] tried at the head of [s]: the matched text and the rest of
    the subject.  The digit run is greedy; giving digits back never helps,
    since the unit after a shorter run is a digit and not an underscore. *)
Definition matchSubscript (s : str) : option (str * str) :=
  match s with
  | c :: rest =>
      if c =? UNDERSCORE then
        match digitRun rest with
        | (d :: ds, u :: after) =>
            if u =? UNDERSCORE then Some ((c :: d :: ds) ++ [u], after)%list else None
        | _ => None
        end
      else None
  | [] => None
  end.

(** A global search with [/_[0-9]+_/g]: [found] says what a match
    contributes, given the matched text and what follows it. *)
Definition scanSubscripts {A : Type} (found : str -> str -> list A)
    (miss : N -> list A) (text : str) : list A :=
  scanAll (fun s => match matchSubscript s with
                    | Some (m, after) => Some (found m after, after)
                    | None => None
                    end) miss text.

(** [text.match(new RegExp('_[0-9]+_', 'g'))]: [None] is JavaScript's [null],
    returned when nothing matches. *)
Definition matchSubscripts (text : str) : option (list str) :=
  match scanSubscripts (fun m _ => [m]) (fun _ => []) text with
  | [] => None
  | ms => Some ms
  end.

Fixpoint isPrefix (p s : str) : bool :=
  match p, s with
  | [], _ => true
  | a :: p', b :: s' => (a =? b) && isPrefix p' s'
  | _ :: _, [] => false
  end.

(** A pattern built by [new RegExp(p, 'g')] from a string [p] of underscores
    and digits denotes [p] itself, tried at the head of [s]. *)
Definition matchLiteral (p replacement s : str) : option (str * str) :=
  if isPrefix p s then Some (replacement, drop (length p) s) else None.

(** [text.replace(new RegExp(p, 'g'), replacement)] for such a [p]; the
    replacements of the program contain no [$]. *)
Definition replaceAll (p replacement text : str) : str :=
  scanAll (matchLiteral p replacement) (fun c => [c]) text.

(** [s.replace(new RegExp(c, 'g'), by)] for a one-unit pattern. *)
Definition replaceUnit (c : N) (by_ : str) (s : str) : str :=
  List.flat_map (fun u => if u =? c then by_ else [u]) s.

(** [text.replace(' ', '')]: a string pattern replaces its first occurrence
    only. *)
Fixpoint replaceFirstUnit (c : N) (by_ : str) (s : str) : str :=
  match s with
  | [] => []
  | u :: rest => if u =? c then (by_ ++ rest)%list else u :: replaceFirstUnit c by_ rest
  end.

(** [s.replace(/0+$/, '')]: the leftmost position from which only zeros
    remain up to the end of the string. *)
Fixpoint replaceTrailingZeros (s : str) : str :=
  match s with
  | [] => []
  | c :: rest =>
      if forallb (N.eqb ZERO) (c :: rest) then [] else c :: replaceTrailingZeros rest
  end.

(** [s.replace(/\.$/, '')]. *)
Fixpoint replaceTrailingDot (s : str) : str :=
  match s with
  | [] => []
  | [c] => if c =? DOT then [] else [c]
  | c :: rest => c :: replaceTrailingDot rest
  end.

(** ** Label formatter (grapher.js, [makeSubscripts] and
    [LaTeXDrawer.makeLaTeXSubscripts]) *)

(** The inner loop of [makeSubscripts]: for j = 0 .. 9, replace the digit j
    by the code unit 8320 + j. *)
Definition subscriptDigits (s : str) : str :=
  fold_left (fun acc j => replaceUnit (ZERO + N.of_nat j) [8320 + N.of_nat j] acc)
            (seq 0 10) s.

Definition makeSubscripts (text : str) : str :=
  match matchSubscripts text with
  | Some subscripts =>
      fold_left (fun text sub =>
                   let replace := subscriptDigits (replaceUnit UNDERSCORE [] sub) in
                   replaceAll sub replace text)
                subscripts text
  | None => text
  end.

Definition makeLaTeXSubscripts (text : str) : str :=
  match matchSubscripts text with
  | Some subscripts =>
      fold_left (fun text sub =>
                   let replace := (js "_{" ++ replaceUnit UNDERSCORE [] sub ++ js "}")%list in
                   replaceAll sub replace text)
                subscripts text
  | None => text
  end.

(** *** The formatter as the specification words it

    One pass over the text: every non-overlapping match of underscore,
    digits, underscore is replaced, everything else is copied. *)
Inductive Style := OnScreen | Markup.

Definition renderSubscript (style : Style) (digits : str) : str :=
  match style with
  | OnScreen => List.map (fun d => 8320 + (d - ZERO)) digits
  | Markup => (js "_{" ++ digits ++ js "}")%list
  end.

Definition applySubscripts (style : Style) (text : str) : str :=
  scanSubscripts (fun m _ => renderSubscript style (List.filter isDigit m))
                 (fun c => [c]) text.

(** The subscript runs of a text are independent when no two of them share
    an underscore: the closing underscore of a run that the search finds
    does not open another run with what follows. *)
Definition independentRuns (text : str) : bool :=
  forallb (fun ok : bool => ok)
    (scanSubscripts
       (fun _ after => [match matchSubscript (UNDERSCORE :: after) with
                        | Some _ => false
                        | None => true
                        end])
       (fun _ => []) text).

(** ** Numeric formatter (grapher.js, [fixed]) *)

(** The decimal digits of a natural number, most significant first, without
    leading zeros; zero is the single digit 0. *)
Fixpoint uintDigits (u : Decimal.uint) : str :=
  match u with
  | Decimal.Nil => []
  | Decimal.D0 r => 48 :: uintDigits r
  | Decimal.D1 r => 49 :: uintDigits r
  | Decimal.D2 r => 50 :: uintDigits r
  | Decimal.D3 r => 51 :: uintDigits r
  | Decimal.D4 r => 52 :: uintDigits r
  | Decimal.D5 r => 53 :: uintDigits r
  | Decimal.D6 r => 54 :: uintDigits r
  | Decimal.D7 r => 55 :: uintDigits r
  | Decimal.D8 r => 56 :: uintDigits r
  | Decimal.D9 r => 57 :: uintDigits r
  end.

Definition decimal (n : N) : str := uintDigits (N.to_uint n).

(** The integer n for which n / 10^f - x is as close to zero as possible, the
    larger one when there are two, for a finite x >= 0.  The value of a
    finite float is m * 2^e exactly, so n is computed on integers. *)
Definition nearestScaled (x : float) (f : nat) : N :=
  match Prim2SF x with
  | S754_finite _ m e =>
      Z.to_N (if (0 <=? e)%Z
              then Z.pos m * 2 ^ e * 10 ^ Z.of_nat f
              else (2 * Z.pos m * 10 ^ Z.of_nat f + 2 ^ (- e)) / 2 ^ (1 - e))%Z
  | _ => 0
  end.

(** Step 8 of [Number.prototype.toFixed]: the digits of n with a decimal
    point before the last f of them, padded with zeros on the left so that
    at least one digit precedes the point. *)
Definition pointed (digits : str) (f : nat) : str :=
  if (f =? 0)%nat then digits
  else
    let digits :=
      if (length digits <=? f)%nat
      then (repeat ZERO (f + 1 - length digits) ++ digits)%list else digits in
    let k := length digits in
    (take (k - f) digits ++ DOT :: drop (k - f) digits)%list.

(** [x.toFixed(fractionDigits)].  [None] is the RangeError for more than 100
    fraction digits.  [ToString] is the host's number-to-string conversion,
    which [toFixed] falls back to from 10^21 on. *)
Definition toFixed (ToString : float -> str) (x : float) (fractionDigits : nat)
  : option str :=
  if (100 <? fractionDigits)%nat then None
  else if PrimFloat.is_nan x then Some (js "NaN")
  else
    let negative := (x <? 0)%float in
    let x := if negative then (- x)%float else x in
    let m := if (1e21 <=? x)%float then ToString x
             else pointed (decimal (nearestScaled x fractionDigits)) fractionDigits in
    Some ((if negative then js "-" else []) ++ m)%list.

Definition fixed (ToString : float -> str) (number : float) (digits : nat)
  : option str :=
  match toFixed ToString number digits with
  | Some s => Some (replaceTrailingDot (replaceTrailingZeros s))
  | None => None
  end.

(** ** Constants (grapher.js) *)

Definition VERTEX_RADIUS : float := 30.
Definition VERTEX_PADDING : float := 10.
Definition SNAP_MARGIN : float := 10.
Definition EDGE_MARGIN : float := 6.

Definition BACKSPACE : Z := 8.
Definition SHIFT : Z := 16.
Definition CTRL : Z := 17.
Definition DELETE : Z := 46.

(** ** Drawing surfaces

    [drawWith] is called with the 2D context of the canvas or with a
    [LaTeXDrawer].  What a surface paints or emits is write-only output and
    is not tracked; what is tracked is what a redraw does to the store and
    whether it completes.  [measureText] is the host's text measurement under
    the label font; the [LaTeXDrawer] measures with the canvas too. *)
Inductive Surface := Canvas2D | LaTeXDrawer.

(** ['advancedFillText' in c] *)
Definition hasAdvancedFillText (c : Surface) : bool :=
  match c with
  | LaTeXDrawer => true
  | Canvas2D => false
  end.

Inductive Error := TypeError | ReferenceError.

Inductive Completion := Normal | Throw (e : Error).

(** An angle is passed around but never inspected by what is tracked here;
    it stays the application of [Math.atan2] that the caller wrote. *)
Inductive Angle := atan2 (a b : float).

(** [LaTeXDrawer.advancedFillText(text, originalText, x, y, angle)].  With an
    angle, the body reads the variable [angleOrNull], which is declared
    nowhere in the program: evaluating it throws a ReferenceError. *)
Definition advancedFillText (text : str) (angle : option Angle) : Completion :=
  if (0 <? length (replaceFirstUnit SPACE [] text))%nat then
    match angle with
    | Some _ => Throw ReferenceError
    | None => Normal
    end
  else Normal.

(** [drawText(c, oldText, x, y, angle, isSelected)] *)
Definition drawText (c : Surface) (oldText : str) (angle : option Angle) : Completion :=
  let text := makeSubscripts oldText in
  if hasAdvancedFillText c then advancedFillText text angle else Normal.

(** ** Points and vertices (Vertex.js) *)

Module Point.
Record t := mk { x : float; y : float }.
End Point.

Module Vertex.
Local Open Scope float_scope.

Record t := mk {
  x : float;
  y : float;
  radius : float;
  mouseOffsetX : float;
  mouseOffsetY : float;
  text : str
}.

Definition new (x y : float) : t := mk x y VERTEX_RADIUS 0 0 [].

Definition set_radius (r : float) (this : t) : t :=
  mk (x this) (y this) r (mouseOffsetX this) (mouseOffsetY this) (text this).
Definition set_x (a : float) (this : t) : t :=
  mk a (y this) (radius this) (mouseOffsetX this) (mouseOffsetY this) (text this).
Definition set_y (b : float) (this : t) : t :=
  mk (x this) b (radius this) (mouseOffsetX this) (mouseOffsetY this) (text this).
Definition set_text (s : str) (this : t) : t :=
  mk (x this) (y this) (radius this) (mouseOffsetX this) (mouseOffsetY this) s.

(** [Vertex.prototype.draw]: the radius follows the width of the label. *)
Definition draw (measureText : str -> float) (c : Surface) (this : t) : t * Completion :=
  let textWithoutSubscripts := makeSubscripts (text this) in
  let width := measureText textWithoutSubscripts in
  let this :=
    if width <? 2 * VERTEX_RADIUS - VERTEX_RADIUS / 3
    then set_radius VERTEX_RADIUS this
    else set_radius (width / 2 + VERTEX_PADDING) this in
  (this, drawText c (text this) None).

Definition contains (this : t) (px py : float) : bool :=
  let dx := px - x this in
  let dy := py - y this in
  dx * dx + dy * dy <=? radius this * radius this.

Definition nearestCirclePoint (this : t) (px py : float) : Point.t :=
  let dx := px - x this in
  let dy := py - y this in
  let dist := sqrt (dx * dx + dy * dy) in
  Point.mk (x this + radius this * dx / dist) (y this + radius this * dy / dist).

Definition setStartPoint (this : t) (px py : float) : t :=
  mk (x this) (y this) (radius this) (x this - px) (y this - py) (text this).

Definition setAnchorPoint (this : t) (px py : float) : t :=
  mk (px + mouseOffsetX this) (py + mouseOffsetY this) (radius this)
     (mouseOffsetX this) (mouseOffsetY this) (text this).
End Vertex.

#[export] Instance Vertex_inhabited : Inhabited Vertex.t := populate (Vertex.new 0 0).

(** ** Edges (Edge.js)

    [Edge] and [DirEdge] have the same fields and the same hit test; the
    class of the object is its [kind].  The endpoints are references to
    vertices. *)
Inductive Kind := Undirected | Directed.

Module Edge.
Local Open Scope float_scope.

Record t := mk {
  kind : Kind;
  v1 : nat;
  v2 : nat;
  text : str
}.

(** [new Edge(v1, v2)] and [new DirEdge(v1, v2)] *)
Definition new (k : Kind) (v1 v2 : nat) : t := mk k v1 v2 [].

Definition set_text (s : str) (this : t) : t :=
  mk (kind this) (v1 this) (v2 this) s.

(** [Edge.prototype.draw] and [DirEdge.prototype.draw], on the heap of
    vertices [vs]. *)
Definition draw (vs : list Vertex.t) (c : Surface) (this : t) : Completion :=
  let a := vs !!! v1 this in
  let b := vs !!! v2 this in
  let point1 := Vertex.nearestCirclePoint a (Vertex.x b) (Vertex.y b) in
  let point2 := Vertex.nearestCirclePoint b (Vertex.x a) (Vertex.y a) in
  let angle := atan2 (Point.x point2 - Point.x point1) (Point.y point2 - Point.y point1) in
  drawText c (text this) (Some angle).

Definition contains (vs : list Vertex.t) (this : t) (px py : float) : bool :=
  let a := vs !!! v1 this in
  let b := vs !!! v2 this in
  let dx := Vertex.x b - Vertex.x a in
  let dy := Vertex.y b - Vertex.y a in
  let length := sqrt (dx * dx + dy * dy) in
  let percent := (dx * (px - Vertex.x a) + dy * (py - Vertex.y a)) / (length * length) in
  let dist := (dx * (py - Vertex.y a) - dy * (px - Vertex.x a)) / length in
  (0 <? percent) && (percent <? 1) && (abs dist <? EDGE_MARGIN).
End Edge.

#[export] Instance Edge_inhabited : Inhabited Edge.t := populate (Edge.new Undirected 0 0).

(** The edge under construction: a temporary edge from a vertex to the mouse,
    or an [Edge]/[DirEdge] object that is not in the [edges] array yet.  The
    temporary edges draw a line and an arrow, no text. *)
Inductive CurrentEdge :=
| TempEdge (vertex : nat) (dest : Point.t)
| TempDirEdge (vertex : nat) (dest : Point.t)
| NewEdge (e : nat).

(** What [selectedObject] can point to. *)
Inductive Obj :=
| VertexRef (v : nat)
| EdgeRef (e : nat).

Definition Obj_eqb (a b : Obj) : bool :=
  match a, b with
  | VertexRef v, VertexRef w => (v =? w)%nat
  | EdgeRef e, EdgeRef f => (e =? f)%nat
  | _, _ => false
  end.

(** ** The scene store and the input state (the globals of grapher.js)

    [vertices] and [edges] are the two arrays, holding references in
    insertion order.  [vertexHeap] and [edgeHeap] hold the objects the
    references point to: a deleted vertex leaves the array but an edge that
    still refers to it keeps reading its fields, as in JavaScript. *)
Record State := mkState {
  selectedObject : option Obj;
  currentEdge : option CurrentEdge;
  sourceMouse : option Point.t;
  movingObject : bool;
  vertices : list nat;
  edges : list nat;
  lastKey : option Z;
  shift : bool;
  ctrl : bool;
  mouseDown : bool;
  vertexHeap : list Vertex.t;
  edgeHeap : list Edge.t
}.

Definition set_selectedObject (o : option Obj) (s : State) : State :=
  mkState o (currentEdge s) (sourceMouse s) (movingObject s) (vertices s) (edges s)
          (lastKey s) (shift s) (ctrl s) (mouseDown s) (vertexHeap s) (edgeHeap s).
Definition set_currentEdge (c : option CurrentEdge) (s : State) : State :=
  mkState (selectedObject s) c (sourceMouse s) (movingObject s) (vertices s) (edges s)
          (lastKey s) (shift s) (ctrl s) (mouseDown s) (vertexHeap s) (edgeHeap s).
Definition set_sourceMouse (p : option Point.t) (s : State) : State :=
  mkState (selectedObject s) (currentEdge s) p (movingObject s) (vertices s) (edges s)
          (lastKey s) (shift s) (ctrl s) (mouseDown s) (vertexHeap s) (edgeHeap s).
Definition set_movingObject (b : bool) (s : State) : State :=
  mkState (selectedObject s) (currentEdge s) (sourceMouse s) b (vertices s) (edges s)
          (lastKey s) (shift s) (ctrl s) (mouseDown s) (vertexHeap s) (edgeHeap s).
Definition set_vertices (l : list nat) (s : State) : State :=
  mkState (selectedObject s) (currentEdge s) (sourceMouse s) (movingObject s) l (edges s)
          (lastKey s) (shift s) (ctrl s) (mouseDown s) (vertexHeap s) (edgeHeap s).
Definition set_edges (l : list nat) (s : State) : State :=
  mkState (selectedObject s) (currentEdge s) (sourceMouse s) (movingObject s) (vertices s) l
          (lastKey s) (shift s) (ctrl s) (mouseDown s) (vertexHeap s) (edgeHeap s).
Definition set_lastKey (k : option Z) (s : State) : State :=
  mkState (selectedObject s) (currentEdge s) (sourceMouse s) (movingObject s) (vertices s) (edges s)
          k (shift s) (ctrl s) (mouseDown s) (vertexHeap s) (edgeHeap s).
Definition set_shift (b : bool) (s : State) : State :=
  mkState (selectedObject s) (currentEdge s) (sourceMouse s) (movingObject s) (vertices s) (edges s)
          (lastKey s) b (ctrl s) (mouseDown s) (vertexHeap s) (edgeHeap s).
Definition set_ctrl (b : bool) (s : State) : State :=
  mkState (selectedObject s) (currentEdge s) (sourceMouse s) (movingObject s) (vertices s) (edges s)
          (lastKey s) (shift s) b (mouseDown s) (vertexHeap s) (edgeHeap s).
Definition set_mouseDown (b : bool) (s : State) : State :=
  mkState (selectedObject s) (currentEdge s) (sourceMouse s) (movingObject s) (vertices s) (edges s)
          (lastKey s) (shift s) (ctrl s) b (vertexHeap s) (edgeHeap s).
Definition set_vertexHeap (h : list Vertex.t) (s : State) : State :=
  mkState (selectedObject s) (currentEdge s) (sourceMouse s) (movingObject s) (vertices s) (edges s)
          (lastKey s) (shift s) (ctrl s) (mouseDown s) h (edgeHeap s).
Definition set_edgeHeap (h : list Edge.t) (s : State) : State :=
  mkState (selectedObject s) (currentEdge s) (sourceMouse s) (movingObject s) (vertices s) (edges s)
          (lastKey s) (shift s) (ctrl s) (mouseDown s) (vertexHeap s) h.

(** The globals as the script initialises them. *)
Definition initial : State :=
  mkState None None None false [] [] None false false false [] [].

(** A statement or a handler leaves a store and completes normally or
    throws; [andThen] runs what follows a statement that completed. *)
Definition andThen (r : State * Completion) (k : State -> State * Completion)
  : State * Completion :=
  match r with
  | (s, Normal) => k s
  | (s, Throw e) => (s, Throw e)
  end.

(** [selectedObject.text] and the assignment to it *)
Definition textOf (s : State) (o : Obj) : str :=
  match o with
  | VertexRef v => Vertex.text (vertexHeap s !!! v)
  | EdgeRef e => Edge.text (edgeHeap s !!! e)
  end.

Definition setText (o : Obj) (t : str) (s : State) : State :=
  match o with
  | VertexRef v =>
      set_vertexHeap (<[v := Vertex.set_text t (vertexHeap s !!! v)]> (vertexHeap s)) s
  | EdgeRef e =>
      set_edgeHeap (<[e := Edge.set_text t (edgeHeap s !!! e)]> (edgeHeap s)) s
  end.

(** ** Functions of grapher.js *)

(** [selectObject(x, y)]: the first vertex that contains the point, else the
    first edge that does, else nothing. *)
Definition selectObject (s : State) (px py : float) : option Obj :=
  match List.find (fun v => Vertex.contains (vertexHeap s !!! v) px py) (vertices s) with
  | Some v => Some (VertexRef v)
  | None =>
      match List.find (fun e => Edge.contains (vertexHeap s) (edgeHeap s !!! e) px py)
                      (edges s) with
      | Some e => Some (EdgeRef e)
      | None => None
      end
  end.

(** One turn of the loop of [snap]: [vertex] is the dragged vertex, [i] is
    [vertices[i]].  Both are read from the heap at the time of the test, so
    that a coordinate already snapped is the one compared next. *)
Definition snapStep (vertex : nat) (vs : list Vertex.t) (i : nat) : list Vertex.t :=
  let vs :=
    if (abs (Vertex.x (vs !!! vertex) - Vertex.x (vs !!! i)) <? SNAP_MARGIN)%float
    then <[vertex := Vertex.set_x (Vertex.x (vs !!! i)) (vs !!! vertex)]> vs
    else vs in
  if (abs (Vertex.y (vs !!! vertex) - Vertex.y (vs !!! i)) <? SNAP_MARGIN)%float
  then <[vertex := Vertex.set_y (Vertex.y (vs !!! i)) (vs !!! vertex)]> vs
  else vs.

Definition snap (vertex : nat) (s : State) : State :=
  set_vertexHeap (fold_left (snapStep vertex) (vertices s) (vertexHeap s)) s.

(** The test of [containsEdge] on two edges. *)
Definition sameEnds (a b : Edge.t) : bool :=
  (Edge.v1 a =? Edge.v1 b)%nat && (Edge.v2 a =? Edge.v2 b)%nat
  || (Edge.v2 a =? Edge.v1 b)%nat && (Edge.v1 a =? Edge.v2 b)%nat.

Definition containsEdge (s : State) (edge : nat) : bool :=
  existsb (fun i => sameEnds (edgeHeap s !!! edge) (edgeHeap s !!! i)) (edges s).

(** The redraw pass.  The vertices are drawn first, each draw updating the
    radius of its vertex, then the edges, then the edge under
    construction. *)
Fixpoint drawVertices (measureText : str -> float) (c : Surface) (ids : list nat)
    (vs : list Vertex.t) : list Vertex.t * Completion :=
  match ids with
  | [] => (vs, Normal)
  | i :: rest =>
      let (v, r) := Vertex.draw measureText c (vs !!! i) in
      let vs := <[i := v]> vs in
      match r with
      | Normal => drawVertices measureText c rest vs
      | Throw e => (vs, Throw e)
      end
  end.

Fixpoint drawEdges (c : Surface) (vs : list Vertex.t) (es : list Edge.t)
    (ids : list nat) : Completion :=
  match ids with
  | [] => Normal
  | i :: rest =>
      match Edge.draw vs c (es !!! i) with
      | Normal => drawEdges c vs es rest
      | Throw e => Throw e
      end
  end.

Definition drawCurrentEdge (c : Surface) (s : State) : Completion :=
  match currentEdge s with
  | Some (NewEdge e) => Edge.draw (vertexHeap s) c (edgeHeap s !!! e)
  | _ => Normal
  end.

Definition drawWith (measureText : str -> float) (c : Surface) (s : State)
  : State * Completion :=
  let (vs, r) := drawVertices measureText c (vertices s) (vertexHeap s) in
  andThen (set_vertexHeap vs s, r) (fun s =>
  andThen (s, drawEdges c (vertexHeap s) (edgeHeap s) (edges s)) (fun s =>
  (s, drawCurrentEdge c s))).

Definition draw (measureText : str -> float) (s : State) : State * Completion :=
  drawWith measureText Canvas2D s.

(** [saveAsPNG] and [saveAsLaTeX]: the selection is cleared for the redraw
    and put back after it. *)
Definition saveAsPNG (measureText : str -> float) (s : State) : State * Completion :=
  let old := selectedObject s in
  andThen (drawWith measureText Canvas2D (set_selectedObject None s)) (fun s =>
  (set_selectedObject old s, Normal)).

Definition saveAsLaTeX (measureText : str -> float) (s : State) : State * Completion :=
  let old := selectedObject s in
  andThen (drawWith measureText LaTeXDrawer (set_selectedObject None s)) (fun s =>
  (set_selectedObject old s, Normal)).

(** The two loops of the Delete key:
    [for (i = 0; i < a.length; i++) if (test(a[i])) a.splice(i--, 1)].
    Each turn removes an element or moves on, so the length of the array
    bounds the number of turns. *)
Fixpoint spliceLoop (fuel : nat) (test : nat -> bool) (i : nat) (a : list nat)
  : list nat :=
  match fuel with
  | O => a
  | S fuel' =>
      if (i <? length a)%nat then
        if test (a !!! i) then spliceLoop fuel' test i (delete i a)
        else spliceLoop fuel' test (S i) a
      else a
  end.

Definition spliceWhere (test : nat -> bool) (a : list nat) : list nat :=
  spliceLoop (length a) test 0 a.

(** ** Event handlers (grapher.js)

    The mouse position is the one [crossBrowserRelativeMousePos] returns, the
    key is the one [crossBrowserKey] returns.  The value a handler returns
    to the browser is not tracked. *)

Definition lastKeyIs (k : Z) (s : State) : bool :=
  match lastKey s with
  | Some k' => (k' =? k)%Z
  | None => false
  end.

Definition isNull {A : Type} (o : option A) : bool :=
  match o with
  | Some _ => false
  | None => true
  end.

Definition onmousedown (mouse : Point.t) (s : State) : State * Completion :=
  let s := set_sourceMouse (Some mouse) s in
  let s := set_selectedObject (selectObject s (Point.x mouse) (Point.y mouse)) s in
  let s :=
    match selectedObject s with
    | Some (VertexRef v) =>
        if shift s && isNull (currentEdge s)
        then set_currentEdge (Some (TempEdge v mouse)) s
        else if ctrl s && isNull (currentEdge s)
        then set_currentEdge (Some (TempDirEdge v mouse)) s
        else
          let s := set_movingObject true s in
          set_vertexHeap
            (<[v := Vertex.setStartPoint (vertexHeap s !!! v) (Point.x mouse) (Point.y mouse)]>
               (vertexHeap s)) s
    | _ => s
    end in
  (set_mouseDown true s, Normal).

Definition onmouseup (mouse : Point.t) (s : State) : State * Completion :=
  let s := set_movingObject false s in
  let s :=
    match currentEdge s with
    | Some (TempEdge _ _) | Some (TempDirEdge _ _) => set_currentEdge None s
    | Some (NewEdge e) =>
        let s := if negb (containsEdge s e) then set_edges (edges s ++ [e]) s else s in
        set_lastKey None (set_currentEdge None s)
    | None => s
    end in
  (set_mouseDown false s, Normal).

(** [new Edge(v1, v2)] or [new DirEdge(v1, v2)], assigned to [currentEdge]. *)
Definition connect (k : Kind) (v1 v2 : nat) (s : State) : State :=
  let e := length (edgeHeap s) in
  set_currentEdge (Some (NewEdge e)) (set_edgeHeap (edgeHeap s ++ [Edge.new k v1 v2]) s).

Definition onmousemove (measureText : str -> float) (mouse : Point.t) (s : State)
  : State * Completion :=
  let s :=
    if negb (isNull (currentEdge s)) then
      let destVertex := selectObject s (Point.x mouse) (Point.y mouse) in
      match selectedObject s with
      | Some (VertexRef v) =>
          match destVertex with
          | Some (VertexRef d) =>
              if lastKeyIs SHIFT s then connect Undirected v d s
              else if lastKeyIs CTRL s then connect Directed v d s
              else s
          | _ =>
              if lastKeyIs SHIFT s then set_currentEdge (Some (TempEdge v mouse)) s
              else if lastKeyIs CTRL s then set_currentEdge (Some (TempDirEdge v mouse)) s
              else s
          end
      | _ => s
      end
    else s in
  if movingObject s then
    match selectedObject s with
    | Some (VertexRef v) =>
        let s :=
          set_vertexHeap
            (<[v := Vertex.setAnchorPoint (vertexHeap s !!! v) (Point.x mouse) (Point.y mouse)]>
               (vertexHeap s)) s in
        draw measureText (snap v s)
    | _ => (s, Throw TypeError)
    end
  else draw measureText s.

Definition ondblclick (measureText : str -> float) (mouse : Point.t) (s : State)
  : State * Completion :=
  let s := set_selectedObject (selectObject s (Point.x mouse) (Point.y mouse)) s in
  match selectedObject s with
  | None =>
      let v := length (vertexHeap s) in
      let s := set_vertexHeap (vertexHeap s ++ [Vertex.new (Point.x mouse) (Point.y mouse)]) s in
      let s := set_selectedObject (Some (VertexRef v)) s in
      let s := set_vertices (vertices s ++ [v]) s in
      draw measureText s
  | Some _ => (s, Normal)
  end.

Definition onkeydown (measureText : str -> float) (key : Z) (s : State)
  : State * Completion :=
  let s := if mouseDown s then s else set_lastKey (Some key) s in
  if (key =? SHIFT)%Z then (set_shift true s, Normal)
  else if (key =? CTRL)%Z then (set_ctrl true s, Normal)
  else
    match selectedObject s with
    | Some selected =>
        if (key =? BACKSPACE)%Z then
          let t := textOf s selected in
          draw measureText (setText selected (substr t 0 (Z.of_nat (length t) - 1)) s)
        else if (key =? DELETE)%Z then
          let s :=
            set_vertices
              (spliceWhere (fun v => Obj_eqb (VertexRef v) selected) (vertices s)) s in
          let s :=
            set_edges
              (spliceWhere
                 (fun e => Obj_eqb (EdgeRef e) selected
                           || Obj_eqb (VertexRef (Edge.v1 (edgeHeap s !!! e))) selected
                           || Obj_eqb (VertexRef (Edge.v2 (edgeHeap s !!! e))) selected)
                 (edges s)) s in
          draw measureText (set_selectedObject None s)
        else (s, Normal)
    | None => (s, Normal)
    end.

Definition onkeyup (key : Z) (s : State) : State * Completion :=
  if (key =? SHIFT)%Z then (set_shift false s, Normal)
  else if (key =? CTRL)%Z then (set_ctrl false s, Normal)
  else (s, Normal).

(** [if (!canvasHasFocus)] tests the function object, which is never false,
    so the first branch of the handler is never taken. *)
Definition onkeypress (measureText : str -> float) (key : Z) (s : State)
  : State * Completion :=
  match selectedObject s with
  | Some selected =>
      if (32 <=? key)%Z && (key <=? 126)%Z then
        draw measureText (setText selected (textOf s selected ++ fromCharCode key)%list s)
      else (s, Normal)
  | None => (s, Normal)
  end.

(** ** The event loop *)

Inductive Event :=
| MouseDown (mouse : Point.t)
| MouseUp (mouse : Point.t)
| MouseMove (mouse : Point.t)
| DblClick (mouse : Point.t)
| KeyDown (key : Z)
| KeyUp (key : Z)
| KeyPress (key : Z)
| SaveAsPNG
| SaveAsLaTeX.

Definition handle (measureText : str -> float) (ev : Event) (s : State)
  : State * Completion :=
  match ev with
  | MouseDown m => onmousedown m s
  | MouseUp m => onmouseup m s
  | MouseMove m => onmousemove measureText m s
  | DblClick m => ondblclick measureText m s
  | KeyDown k => onkeydown measureText k s
  | KeyUp k => onkeyup k s
  | KeyPress k => onkeypress measureText k s
  | SaveAsPNG => saveAsPNG measureText s
  | SaveAsLaTeX => saveAsLaTeX measureText s
  end.

(** An exception ends the handler that raised it; the store stays as the
    handler left it and the next event is handled from there. *)
Definition run (measureText : str -> float) (evs : list Event) (s : State) : State :=
  fold_left (fun s ev => fst (handle measureText ev s)) evs s.

Definition reachable (measureText : str -> float) (s : State) : Prop :=
  exists evs, s = run measureText evs initial.

(** ** Notions used to state the properties *)

(** [Math.max] on two numbers (the sign of a zero result apart). *)
Definition Math_max (a b : float) : float :=
  if PrimFloat.is_nan a || PrimFloat.is_nan b then nan
  else if (a <? b)%float then b else a.

(** Snapping as the specification words it, one axis at a time: for every
    other vertex in turn, a coordinate that differs from it by less than the
    tolerance becomes equal to it. *)
Definition near (a b : float) : bool := (abs (a - b) <? SNAP_MARGIN)%float.

Definition snapAxis (c : float) (others : list float) : float :=
  fold_left (fun c o => if near c o then o else c) others c.

Definition otherVertices (vertex : nat) (s : State) : list nat :=
  List.filter (fun i => negb (i =? vertex)%nat) (vertices s).

(** What a redraw may change in a vertex is its radius. *)
Definition sameButRadius (v v' : Vertex.t) : Prop :=
  Vertex.x v' = Vertex.x v /\ Vertex.y v' = Vertex.y v
  /\ Vertex.text v' = Vertex.text v
  /\ Vertex.mouseOffsetX v' = Vertex.mouseOffsetX v
  /\ Vertex.mouseOffsetY v' = Vertex.mouseOffsetY v.

(** The edges of the array that connect the unordered pair {A, B}, whatever
    their kind and direction. *)
Definition connects (A B : nat) (e : Edge.t) : bool :=
  (Edge.v1 e =? A)%nat && (Edge.v2 e =? B)%nat
  || (Edge.v1 e =? B)%nat && (Edge.v2 e =? A)%nat.

Definition edgesBetween (A B : nat) (s : State) : list nat :=
  List.filter (fun i => connects A B (edgeHeap s !!! i)) (edges s).

(** The references to edges held by the store are live, and no two edges of
    the array connect the same unordered pair. *)
Definition wellFormed (s : State) : Prop :=
  (forall e, In e (edges s) -> (e < length (edgeHeap s))%nat)
  /\ (forall e, currentEdge s = Some (NewEdge e) -> (e < length (edgeHeap s))%nat)
  /\ (forall A B, (length (edgesBetween A B s) <= 1)%nat).

(** The heap of edges only grows, and the endpoints of an edge never
    change. *)
Definition heapGrows (h h' : list Edge.t) : Prop :=
  (length h <= length h')%nat
  /\ forall j, (j < length h)%nat ->
       Edge.v1 (h' !!! j) = Edge.v1 (h !!! j) /\ Edge.v2 (h' !!! j) = Edge.v2 (h !!! j).

(** What every handler but the release of the mouse does to the edges: it
    may remove some from the array and may start a new edge under
    construction. *)
Definition edgeStep (s s' : State) : Prop :=
  heapGrows (edgeHeap s) (edgeHeap s')
  /\ (exists keep, edges s' = List.filter keep (edges s))
  /\ (forall e, currentEdge s' = Some (NewEdge e) ->
        currentEdge s = Some (NewEdge e) \/ (e < length (edgeHeap s'))%nat).

(** A vertex is up to date when drawing it would leave its radius as it is;
    a store is drawn when the vertices of its array are live and up to
    date, as after any redraw. *)
Definition upToDate (measureText : str -> float) (v : Vertex.t) : Prop :=
  Vertex.radius (fst (Vertex.draw measureText Canvas2D v)) = Vertex.radius v.

Definition drawn (measureText : str -> float) (s : State) : Prop :=
  forall v, In v (vertices s) ->
    (v < length (vertexHeap s))%nat /\ upToDate measureText (vertexHeap s !!! v).

(** The fraction of a fixed-point rendering as the specification words it:
    its trailing zeros are dropped, and the decimal point with them when
    nothing is left. *)
Fixpoint dropWhile (p : N -> bool) (s : str) : str :=
  match s with
  | [] => []
  | c :: rest => if p c then dropWhile p rest else s
  end.

Definition dropTrailingZeros (s : str) : str :=
  rev (dropWhile (N.eqb ZERO) (rev s)).

Definition stripFraction (frac : str) : str :=
  match dropTrailingZeros frac with
  | [] => []
  | kept => DOT :: kept
  end.

(** The texts the search matches: an underscore, one digit or more, an
    underscore. *)
Definition isPattern (p : str) : Prop :=
  exists d ds, p = UNDERSCORE :: (d :: ds) ++ [UNDERSCORE]
               /\ forallb isDigit (d :: ds) = true.

(** The text after some of the replacements of [makeSubscripts]: the runs
    listed in [done] are replaced, the other runs are still there. *)
Definition partlyReplaced (render : str -> str) (done : list str) (text : str) : str :=
  scanSubscripts
    (fun m _ => if in_dec (List.list_eq_dec N.eq_dec) m done then render m else m)
    (fun c => [c]) text.

(** What the proof needs of a replacement text: no pattern starts inside it,
    and it starts with something that is not a digit. *)
Definition goodRender (render : str -> str) : Prop :=
  (forall m p r rest, isPattern m -> isPattern p ->
     replaceAll p r (render m ++ rest) = render m ++ replaceAll p r rest)
  /\ (forall m, isPattern m ->
        match render m with
        | [] => False
        | h :: _ => isDigit h = false
        end).

(** The replacement texts of [makeSubscripts] and [makeLaTeXSubscripts]. *)
Definition screenRender (sub : str) : str :=
  subscriptDigits (replaceUnit UNDERSCORE [] sub).

Definition markupRender (sub : str) : str :=
  (js "_{" ++ replaceUnit UNDERSCORE [] sub ++ js "}")%list.

(** The kind of the edge under construction, and the kind the last key
    pressed stands for in [onmousemove]. *)
Definition kindOfCurrentEdge (s : State) : option Kind :=
  match currentEdge s with
  | Some (TempEdge _ _) => Some Undirected
  | Some (TempDirEdge _ _) => Some Directed
  | Some (NewEdge e) => Some (Edge.kind (edgeHeap s !!! e))
  | None => None
  end.

Definition kindOfLastKey (s : State) : option Kind :=
  if lastKeyIs SHIFT s then Some Undirected
  else if lastKeyIs CTRL s then Some Directed
  else None.

Definition isMouseUp (ev : Event) : bool :=
  match ev with
  | MouseUp _ => true
  | _ => false
  end.

(** [o instanceof Vertex] *)
Definition isVertexRef (o : option Obj) : bool :=
  match o with
  | Some (VertexRef _) => true
  | _ => false
  end.

(** The test of [advancedFillText] on a label: nothing is left of the text
    to draw once its first space is removed. *)
Definition blankLabel (t : str) : bool :=
  (length (replaceFirstUnit SPACE [] (makeSubscripts t)) =? 0)%nat.

(** The labels a redraw draws with an angle: those of the edges of the
    array, then that of an edge under construction that has reached a
    destination vertex. *)
Definition angledLabels (s : State) : list str :=
  (List.map (fun e => Edge.text (edgeHeap s !!! e)) (edges s)
   ++ match currentEdge s with
      | Some (NewEdge e) => [Edge.text (edgeHeap s !!! e)]
      | _ => []
      end)%list.

(** The store after a redraw: the radii of the vertices of the array are
    recomputed, nothing else is written. *)
Definition redrawn (measureText : str -> float) (s : State) : State :=
  set_vertexHeap (fst (drawVertices measureText Canvas2D (vertices s) (vertexHeap s))) s.

(** An object of the scene: a vertex of the array of vertices, an edge of
    the array of edges, or nothing. *)
Definition inScene (s : State) (o : option Obj) : Prop :=
  match o with
  | Some (VertexRef v) => In v (vertices s)
  | Some (EdgeRef e) => In e (edges s)
  | None => True
  end.

(** No object is twice in its array, and the selection is an object of the
    scene. *)
Definition consistent (s : State) : Prop :=
  List.NoDup (vertices s) /\ List.NoDup (edges s) /\ inScene s (selectedObject s).

(** An edge is anchored when both its endpoints are in the array of
    vertices; a store is anchored when the edges of its array are, and the
    edge under construction too once it has a destination vertex. *)
Definition anchoredEdge (s : State) (e : nat) : Prop :=
  In (Edge.v1 (edgeHeap s !!! e)) (vertices s)
  /\ In (Edge.v2 (edgeHeap s !!! e)) (vertices s).

Definition anchored (s : State) : Prop :=
  (forall e, In e (edges s) -> anchoredEdge s e)
  /\ (forall e, currentEdge s = Some (NewEdge e) -> anchoredEdge s e).

(** The Delete key pressed while the edge under construction has a
    destination vertex, and the runs in which that never happens. *)
Definition deletesWhileConnecting (ev : Event) (s : State) : bool :=
  match ev, currentEdge s with
  | KeyDown key, Some (NewEdge _) => (key =? DELETE)%Z
  | _, _ => false
  end.

Fixpoint neverDeletesWhileConnecting (measureText : str -> float) (evs : list Event)
    (s : State) : bool :=
  match evs with
  | [] => true
  | ev :: rest =>
      negb (deletesWhileConnecting ev s)
      && neverDeletesWhileConnecting measureText rest (fst (handle measureText ev s))
  end.

(** The modifier key that stands for a kind of edge, the test of
    [onmousedown] that starts an edge of that kind (Shift is tested first),
    and the temporary edge it starts. *)
Definition keyOfKind (k : Kind) : Z :=
  match k with
  | Undirected => SHIFT
  | Directed => CTRL
  end.

Definition heldFor (k : Kind) (s : State) : bool :=
  match k with
  | Undirected => shift s
  | Directed => negb (shift s) && ctrl s
  end.

Definition tempFor (k : Kind) (vertex : nat) (dest : Point.t) : CurrentEdge :=
  match k with
  | Undirected => TempEdge vertex dest
  | Directed => TempDirEdge vertex dest
  end.

(** ** Sample scenes *)

(** A text measurement for the examples: 12 units a code unit. *)
Definition sampleMeasure (t : str) : float :=
  (12 * PrimFloat.of_uint63 (Uint63.of_Z (Z.of_nat (length t))))%float.

(** Two vertices at (100,100) and (104,100); the second has been moved to
    (104,250) and is about to be snapped. *)
Definition snapScene : State :=
  set_vertices [0; 1]%nat
    (set_vertexHeap [Vertex.new 100 100; Vertex.new 104 250] initial).

(** Two vertices created by double clicks at (50,50) and (200,50). *)
Definition twoVertices : list Event :=
  [DblClick (Point.mk 50 50); DblClick (Point.mk 200 50)].

(** Shift held, a drag from the first vertex to the second, released there. *)
Definition connectFirstToSecond : list Event :=
  [KeyDown SHIFT; MouseDown (Point.mk 50 50); MouseMove (Point.mk 200 50);
   MouseUp (Point.mk 200 50)].

(** The two vertices with an undirected edge from the first to the second. *)
Definition connectedScene : State :=
  run sampleMeasure (twoVertices ++ connectFirstToSecond) initial.

(** The same, followed by a second drag, from the second vertex back to the
    first, not released yet. *)
Definition reverseGesture : State :=
  run sampleMeasure
    [KeyDown SHIFT; MouseDown (Point.mk 200 50); MouseMove (Point.mk 50 50)]
    connectedScene.

(** Three vertices, edges 0-1, 1-2 and 0-2, and the second vertex selected
    by a click. *)
Definition triangleScene : State :=
  run sampleMeasure
    [DblClick (Point.mk 200 200);
     KeyDown SHIFT; MouseDown (Point.mk 200 50); MouseMove (Point.mk 200 200);
     MouseUp (Point.mk 200 200);
     KeyDown SHIFT; MouseDown (Point.mk 50 50); MouseMove (Point.mk 200 200);
     MouseUp (Point.mk 200 200);
     KeyUp SHIFT; MouseDown (Point.mk 200 50); MouseUp (Point.mk 200 50)]
    connectedScene.

(** A vertex labelled "ab", selected. *)
Definition labelledVertex : State :=
  run sampleMeasure [DblClick (Point.mk 50 50); KeyPress 97; KeyPress 98] initial.

(** The connected scene with the edge selected by a click on it and
    labelled "a". *)
Definition labelledEdge : State :=
  run sampleMeasure
    [KeyUp SHIFT; MouseDown (Point.mk 125 50); MouseUp (Point.mk 125 50); KeyPress 97]
    connectedScene.

(** One vertex; Shift then Control pressed and held; the mouse pressed on
    the vertex. *)
Definition bothModifiersPressed : State :=
  run sampleMeasure
    [DblClick (Point.mk 50 50); KeyDown SHIFT; KeyDown CTRL; MouseDown (Point.mk 50 50)]
    initial.

(** One vertex, Shift pressed, the mouse pressed on the vertex: an undirected
    connect gesture has started. *)
Definition shiftGesture : State :=
  run sampleMeasure
    [DblClick (Point.mk 50 50); KeyDown SHIFT; MouseDown (Point.mk 50 50)] initial.

(** One vertex, pressed and held without a modifier, then deleted with the
    mouse still down: a move is in progress and nothing is selected. *)
Definition deletedWhileDragged : State :=
  run sampleMeasure
    [DblClick (Point.mk 50 50); MouseDown (Point.mk 50 50); KeyDown DELETE] initial.

(** Two vertices, Shift held, a drag from the first vertex that has reached
    the second and is not released yet: the edge under construction has its
    two endpoints, and the first vertex is selected. *)
Definition connectingGesture : State :=
  run sampleMeasure
    (twoVertices
     ++ [KeyDown SHIFT; MouseDown (Point.mk 50 50); MouseMove (Point.mk 200 50)])
    initial.

(** The events that build the triangle scene from the start. *)
Definition triangleEvents : list Event :=
  twoVertices ++ connectFirstToSecond
  ++ [DblClick (Point.mk 200 200);
      KeyDown SHIFT; MouseDown (Point.mk 200 50); MouseMove (Point.mk 200 200);
      MouseUp (Point.mk 200 200);
      KeyDown SHIFT; MouseDown (Point.mk 50 50); MouseMove (Point.mk 200 200);
      MouseUp (Point.mk 200 200);
      KeyUp SHIFT; MouseDown (Point.mk 200 50); MouseUp (Point.mk 200 50)].

(** One vertex, and a drag with Shift that starts on the vertex and is
    released on it ten units to the right: the edge committed goes from the
    vertex to itself. *)
Definition selfLoopScene : State :=
  run sampleMeasure
    [DblClick (Point.mk 50 50); KeyDown SHIFT; MouseDown (Point.mk 50 50);
     MouseMove (Point.mk 60 50); MouseUp (Point.mk 60 50)]
    initial.

(** Two vertices; the second is pressed at (210,60), ten units right of and
    below its center, with no modifier held: it is being moved. *)
Definition draggingSecond : State :=
  run sampleMeasure (twoVertices ++ [MouseDown (Point.mk 210 60)]) initial.

(** Two vertices, and Shift pressed and held with the mouse up. *)
Definition shiftHeld : State :=
  run sampleMeasure (twoVertices ++ [KeyDown SHIFT]) initial.

(** A vertex labelled "a", selected. *)
Definition labelledA : State :=
  run sampleMeasure [DblClick (Point.mk 50 50); KeyPress 97] initial.

(** The vertex labelled "ab" after "cde" has been typed too. *)
Definition labelledWide : State :=
  run sampleMeasure
    [DblClick (Point.mk 50 50); KeyPress 97; KeyPress 98; KeyPress 99; KeyPress 100;
     KeyPress 101]
    initial.

(** The scene with its edge labelled "a", followed by a drag with Control
    from the second vertex back to the first, not released yet: the
    candidate is a directed edge from the second vertex to the first. *)
Definition reverseDirectedGesture : State :=
  run sampleMeasure
    [KeyDown CTRL; MouseDown (Point.mk 200 50); MouseMove (Point.mk 50 50)]
    labelledEdge.

(** * Properties *)

Local Open Scope nat_scope.

Ltac float_discriminate H :=
  apply (f_equal Prim2SF) in H; vm_compute in H; discriminate H.

(** ** The radius of a drawn vertex *)

(** C8 (as stated): drawing a vertex sets its radius to
    max(VERTEX_RADIUS, width / 2 + VERTEX_PADDING).  This fails for a label 44
    units wide: the radius stays 30 although 44 / 2 + 10 = 32. *)
Lemma C8_radius_is_not_max :
  Vertex.radius (fst (Vertex.draw (fun _ => 44%float) Canvas2D (Vertex.new 0 0)))
  <> Math_max VERTEX_RADIUS (44 / 2 + VERTEX_PADDING)%float.
Proof.
  intro H. float_discriminate H.
Qed.

(** C8 (amended): drawing a vertex whose label measures [w] sets its radius
    to the default 30 when w < 50, and to w / 2 + 10 otherwise, on either
    surface. *)
Theorem C8_radius_threshold (measureText : str -> float) (c : Surface) (v : Vertex.t) :
  let w := measureText (makeSubscripts (Vertex.text v)) in
  Vertex.radius (fst (Vertex.draw measureText c v))
  = if (w <? 50)%float then 30%float else (w / 2 + 10)%float.
Proof.
  cbv zeta. unfold Vertex.draw.
  replace (2 * VERTEX_RADIUS - VERTEX_RADIUS / 3)%float with 50%float by reflexivity.
  destruct (_ <? _)%float; reflexivity.
Qed.

(** ** Snapping *)

Lemma Vertex_set_x_id (v : Vertex.t) : Vertex.set_x (Vertex.x v) v = v.
Proof. destruct v; reflexivity. Qed.

Lemma Vertex_set_y_id (v : Vertex.t) : Vertex.set_y (Vertex.y v) v = v.
Proof. destruct v; reflexivity. Qed.

Lemma insert_same (h : list Vertex.t) (i : nat) : <[i := h !!! i]> h = h.
Proof.
  destruct (decide (i < length h)) as [Hlt | Hge].
  - apply list_insert_id. apply list_lookup_lookup_total_lt. exact Hlt.
  - apply list_insert_ge. lia.
Qed.

(** A turn of the loop on the dragged vertex itself changes nothing. *)
Lemma snapStep_self (vertex : nat) (h : list Vertex.t) : snapStep vertex h vertex = h.
Proof.
  unfold snapStep.
  assert (Hx : (if (abs (Vertex.x (h !!! vertex) - Vertex.x (h !!! vertex)) <? SNAP_MARGIN)%float
                then <[vertex := Vertex.set_x (Vertex.x (h !!! vertex)) (h !!! vertex)]> h
                else h) = h).
  { destruct (_ <? _)%float; [| reflexivity].
    rewrite Vertex_set_x_id. apply insert_same. }
  rewrite Hx. clear Hx.
  destruct (_ <? _)%float; [| reflexivity].
  rewrite Vertex_set_y_id. apply insert_same.
Qed.

(** A turn on another vertex: one step of [snapAxis] on each axis, nothing
    else is written. *)
Lemma snapStep_other (vertex i : nat) (h : list Vertex.t) :
  vertex < length h -> i <> vertex ->
  let h' := snapStep vertex h i in
  length h' = length h
  /\ (forall j, j <> vertex -> h' !!! j = h !!! j)
  /\ Vertex.x (h' !!! vertex)
     = (if near (Vertex.x (h !!! vertex)) (Vertex.x (h !!! i))
        then Vertex.x (h !!! i) else Vertex.x (h !!! vertex))
  /\ Vertex.y (h' !!! vertex)
     = (if near (Vertex.y (h !!! vertex)) (Vertex.y (h !!! i))
        then Vertex.y (h !!! i) else Vertex.y (h !!! vertex))
  /\ Vertex.radius (h' !!! vertex) = Vertex.radius (h !!! vertex)
  /\ Vertex.text (h' !!! vertex) = Vertex.text (h !!! vertex)
  /\ Vertex.mouseOffsetX (h' !!! vertex) = Vertex.mouseOffsetX (h !!! vertex)
  /\ Vertex.mouseOffsetY (h' !!! vertex) = Vertex.mouseOffsetY (h !!! vertex).
Proof.
  intros Hlt Hne. cbv zeta. unfold snapStep, near.
  destruct (abs (Vertex.x (h !!! vertex) - Vertex.x (h !!! i)) <? SNAP_MARGIN)%float.
  - rewrite (list_lookup_total_insert_eq h vertex _ Hlt).
    rewrite (list_lookup_total_insert_ne h vertex i) by congruence.
    cbn [Vertex.set_x Vertex.y].
    destruct (abs (Vertex.y (h !!! vertex) - Vertex.y (h !!! i)) <? SNAP_MARGIN)%float.
    + rewrite list_insert_insert_eq, !length_insert.
      rewrite (list_lookup_total_insert_eq h vertex _ Hlt).
      repeat split; try reflexivity.
      intros j Hj. apply list_lookup_total_insert_ne. congruence.
    + rewrite !length_insert.
      rewrite (list_lookup_total_insert_eq h vertex _ Hlt).
      repeat split; try reflexivity.
      intros j Hj. apply list_lookup_total_insert_ne. congruence.
  - destruct (abs (Vertex.y (h !!! vertex) - Vertex.y (h !!! i)) <? SNAP_MARGIN)%float.
    + rewrite !length_insert.
      rewrite (list_lookup_total_insert_eq h vertex _ Hlt).
      repeat split; try reflexivity.
      intros j Hj. apply list_lookup_total_insert_ne. congruence.
    + repeat split; reflexivity.
Qed.

Lemma snap_loop (vertex : nat) (l : list nat) : forall h : list Vertex.t,
  vertex < length h ->
  let h' := fold_left (snapStep vertex) l h in
  let rest := List.filter (fun i => negb (i =? vertex)) l in
  length h' = length h
  /\ (forall j, j <> vertex -> h' !!! j = h !!! j)
  /\ Vertex.x (h' !!! vertex)
     = snapAxis (Vertex.x (h !!! vertex)) (List.map (fun i => Vertex.x (h !!! i)) rest)
  /\ Vertex.y (h' !!! vertex)
     = snapAxis (Vertex.y (h !!! vertex)) (List.map (fun i => Vertex.y (h !!! i)) rest)
  /\ Vertex.radius (h' !!! vertex) = Vertex.radius (h !!! vertex)
  /\ Vertex.text (h' !!! vertex) = Vertex.text (h !!! vertex)
  /\ Vertex.mouseOffsetX (h' !!! vertex) = Vertex.mouseOffsetX (h !!! vertex)
  /\ Vertex.mouseOffsetY (h' !!! vertex) = Vertex.mouseOffsetY (h !!! vertex).
Proof.
  induction l as [| i l IH]; intros h Hlt; cbv zeta.
  - cbn. repeat split; reflexivity.
  - cbn [fold_left List.filter].
    destruct (Nat.eqb_spec i vertex) as [-> | Hne]; cbn [negb].
    + rewrite snapStep_self. apply (IH h Hlt).
    + destruct (snapStep_other vertex i h Hlt Hne)
        as (Hlen & Hoth & Hx & Hy & Hr & Ht & Hox & Hoy).
      assert (Hlt' : vertex < length (snapStep vertex h i)) by (rewrite Hlen; exact Hlt).
      destruct (IH (snapStep vertex h i) Hlt')
        as (Hlen' & Hoth' & Hx' & Hy' & Hr' & Ht' & Hox' & Hoy').
      assert (Hmapx : List.map (fun j => Vertex.x (snapStep vertex h i !!! j))
                        (List.filter (fun j => negb (j =? vertex)) l)
                      = List.map (fun j => Vertex.x (h !!! j))
                          (List.filter (fun j => negb (j =? vertex)) l)).
      { apply List.map_ext_in. intros j Hj. apply List.filter_In in Hj as [_ Hj].
        rewrite Hoth; [reflexivity |].
        intros ->. rewrite Nat.eqb_refl in Hj. discriminate. }
      assert (Hmapy : List.map (fun j => Vertex.y (snapStep vertex h i !!! j))
                        (List.filter (fun j => negb (j =? vertex)) l)
                      = List.map (fun j => Vertex.y (h !!! j))
                          (List.filter (fun j => negb (j =? vertex)) l)).
      { apply List.map_ext_in. intros j Hj. apply List.filter_In in Hj as [_ Hj].
        rewrite Hoth; [reflexivity |].
        intros ->. rewrite Nat.eqb_refl in Hj. discriminate. }
      rewrite Hmapx in Hx'. rewrite Hmapy in Hy'.
      repeat split.
      * congruence.
      * intros j Hj. rewrite Hoth' by exact Hj. apply Hoth. exact Hj.
      * rewrite Hx', Hx. reflexivity.
      * rewrite Hy', Hy. reflexivity.
      * congruence.
      * congruence.
      * congruence.
      * congruence.
Qed.

Lemma snapAxis_far (others : list float) : forall c : float,
  (forall o, In o others -> near c o = false) -> snapAxis c others = c.
Proof.
  induction others as [| o others IH]; intros c Hfar; [reflexivity |].
  unfold snapAxis. cbn [fold_left].
  rewrite (Hfar o) by (left; reflexivity).
  apply IH. intros o' Ho'. apply Hfar. right. exact Ho'.
Qed.

Lemma snapAxis_stays_or_lands (others : list float) : forall c : float,
  snapAxis c others = c \/ In (snapAxis c others) others.
Proof.
  induction others as [| o others IH]; intros c; [left; reflexivity |].
  unfold snapAxis. cbn [fold_left]. fold (snapAxis (if near c o then o else c) others).
  destruct (near c o).
  - destruct (IH o) as [-> | Hin]; right; [left; reflexivity | right; exact Hin].
  - destruct (IH c) as [-> | Hin]; [left; reflexivity | right; right; exact Hin].
Qed.

Lemma snapAxis_near (others : list float) : forall c : float,
  (exists o, In o others /\ near c o = true) -> In (snapAxis c others) others.
Proof.
  induction others as [| o others IH]; intros c (o' & Hin & Hnear); [destruct Hin |].
  unfold snapAxis. cbn [fold_left]. fold (snapAxis (if near c o then o else c) others).
  destruct (near c o) eqn:Hco.
  - destruct (snapAxis_stays_or_lands others o) as [-> | H];
      [left; reflexivity | right; exact H].
  - destruct Hin as [-> | Hin]; [congruence |].
    right. apply IH. exists o'. split; assumption.
Qed.

(** C7: [snap] works on each axis independently.  The x coordinate of the
    dragged vertex after the loop is the result of going through the x
    coordinates of the other vertices in order, taking the value of each one
    that is closer than SNAP_MARGIN (strictly); the y coordinate likewise
    from the y coordinates alone.  A coordinate with no other vertex within
    the margin is unchanged, one with such a vertex ends equal to the
    coordinate of another vertex, and nothing else is written. *)
Theorem C7_snap_per_axis (s : State) (vertex : nat) :
  vertex < length (vertexHeap s) ->
  let v := vertexHeap s !!! vertex in
  let v' := vertexHeap (snap vertex s) !!! vertex in
  let xs := List.map (fun i => Vertex.x (vertexHeap s !!! i)) (otherVertices vertex s) in
  let ys := List.map (fun i => Vertex.y (vertexHeap s !!! i)) (otherVertices vertex s) in
  Vertex.x v' = snapAxis (Vertex.x v) xs
  /\ Vertex.y v' = snapAxis (Vertex.y v) ys
  /\ ((forall o, In o xs -> near (Vertex.x v) o = false) -> Vertex.x v' = Vertex.x v)
  /\ ((forall o, In o ys -> near (Vertex.y v) o = false) -> Vertex.y v' = Vertex.y v)
  /\ ((exists o, In o xs /\ near (Vertex.x v) o = true) -> In (Vertex.x v') xs)
  /\ ((exists o, In o ys /\ near (Vertex.y v) o = true) -> In (Vertex.y v') ys)
  /\ (forall j, j <> vertex -> vertexHeap (snap vertex s) !!! j = vertexHeap s !!! j)
  /\ vertices (snap vertex s) = vertices s
  /\ edges (snap vertex s) = edges s.
Proof.
  intros Hlt. cbv zeta.
  destruct (snap_loop vertex (vertices s) (vertexHeap s) Hlt)
    as (_ & Hoth & Hx & Hy & _).
  unfold snap, otherVertices. cbn [vertexHeap set_vertexHeap vertices edges].
  rewrite Hx, Hy.
  repeat split.
  - intros Hfar. apply snapAxis_far. exact Hfar.
  - intros Hfar. apply snapAxis_far. exact Hfar.
  - intros Hnear. apply snapAxis_near. exact Hnear.
  - intros Hnear. apply snapAxis_near. exact Hnear.
  - exact Hoth.
Qed.

(** The example of the specification: with vertices at (100,100) and
    (104,100), the second moved to (104,250) ends at x = 100, y = 250. *)
Lemma C7_snap_example :
  1 < length (vertexHeap snapScene)
  /\ Vertex.x (vertexHeap (snap 1 snapScene) !!! 1) = 100%float
  /\ Vertex.y (vertexHeap (snap 1 snapScene) !!! 1) = 250%float.
Proof.
  assert (Hlt : 1 < length (vertexHeap snapScene)) by (vm_compute; lia).
  split; [exact Hlt |].
  destruct (C7_snap_per_axis snapScene 1 Hlt) as (Hx & Hy & _).
  split; [rewrite Hx | rewrite Hy]; reflexivity.
Defined.

(** ** The redraw pass *)

Lemma sameButRadius_refl (v : Vertex.t) : sameButRadius v v.
Proof. repeat split. Qed.

Lemma sameButRadius_trans (a b c : Vertex.t) :
  sameButRadius a b -> sameButRadius b c -> sameButRadius a c.
Proof.
  intros (? & ? & ? & ? & ?) (? & ? & ? & ? & ?). repeat split; congruence.
Qed.

Lemma Vertex_draw_spec (measureText : str -> float) (c : Surface) (v : Vertex.t) :
  snd (Vertex.draw measureText c v) = Normal
  /\ sameButRadius v (fst (Vertex.draw measureText c v)).
Proof.
  unfold Vertex.draw, drawText, advancedFillText.
  destruct (_ <? _)%float; cbn [fst snd Vertex.set_radius Vertex.text].
  - split; [| repeat split].
    destruct (hasAdvancedFillText c); [| reflexivity].
    destruct (0 <? _); reflexivity.
  - split; [| repeat split].
    destruct (hasAdvancedFillText c); [| reflexivity].
    destruct (0 <? _); reflexivity.
Qed.

Lemma drawVertices_spec (measureText : str -> float) (c : Surface) (ids : list nat) :
  forall h : list Vertex.t,
  snd (drawVertices measureText c ids h) = Normal
  /\ length (fst (drawVertices measureText c ids h)) = length h
  /\ forall j, sameButRadius (h !!! j) (fst (drawVertices measureText c ids h) !!! j).
Proof.
  induction ids as [| i ids IH]; intros h.
  - cbn. repeat split.
  - cbn [drawVertices].
    destruct (Vertex_draw_spec measureText c (h !!! i)) as [Hn Hs].
    destruct (Vertex.draw measureText c (h !!! i)) as [v r].
    cbn [fst snd] in Hn, Hs. subst r.
    destruct (IH (<[i := v]> h)) as (Hn' & Hlen & Hsame).
    split; [exact Hn' |]. split; [rewrite Hlen; apply length_insert |].
    intros j. eapply sameButRadius_trans; [| apply Hsame].
    rewrite list_lookup_total_insert. case_decide as Hd.
    + destruct Hd as [-> _]. exact Hs.
    + apply sameButRadius_refl.
Qed.

Lemma drawText_canvas (t : str) (a : option Angle) : drawText Canvas2D t a = Normal.
Proof. reflexivity. Qed.

Lemma drawEdges_canvas (vs : list Vertex.t) (es : list Edge.t) (ids : list nat) :
  drawEdges Canvas2D vs es ids = Normal.
Proof. induction ids as [| i ids IH]; [reflexivity | exact IH]. Qed.

(** A redraw writes the heap of vertices and nothing else. *)
Lemma drawWith_store (measureText : str -> float) (c : Surface) (s : State) :
  fst (drawWith measureText c s)
  = set_vertexHeap (fst (drawVertices measureText c (vertices s) (vertexHeap s))) s.
Proof.
  unfold drawWith.
  destruct (drawVertices_spec measureText c (vertices s) (vertexHeap s)) as (Hn & _).
  destruct (drawVertices measureText c (vertices s) (vertexHeap s)) as [vs r].
  cbn [snd] in Hn. subst r. cbn [andThen fst].
  destruct (drawEdges c _ _ _); [| reflexivity].
  reflexivity.
Qed.

(** On the canvas a redraw always completes. *)
Lemma draw_completes (measureText : str -> float) (s : State) :
  snd (draw measureText s) = Normal.
Proof.
  unfold draw, drawWith.
  destruct (drawVertices_spec measureText Canvas2D (vertices s) (vertexHeap s)) as (Hn & _).
  destruct (drawVertices measureText Canvas2D (vertices s) (vertexHeap s)) as [vs r].
  cbn [snd] in Hn. subst r. cbn [andThen].
  rewrite drawEdges_canvas. cbn [andThen snd].
  unfold drawCurrentEdge. destruct (currentEdge _) as [[| |] |]; reflexivity.
Qed.

Lemma draw_store (measureText : str -> float) (s : State) :
  fst (draw measureText s)
  = set_vertexHeap (fst (drawVertices measureText Canvas2D (vertices s) (vertexHeap s))) s.
Proof. apply drawWith_store. Qed.

(** ** The loops of the Delete key *)

Lemma spliceLoop_filter (test : nat -> bool) (fuel : nat) : forall (i : nat) (a : list nat),
  length a - i <= fuel -> i <= length a ->
  spliceLoop fuel test i a
  = take i a ++ List.filter (fun x => negb (test x)) (drop i a).
Proof.
  induction fuel as [| fuel IH]; intros i a Hfuel Hi.
  - cbn [spliceLoop]. rewrite take_ge, drop_ge by lia. cbn. rewrite app_nil_r. reflexivity.
  - cbn [spliceLoop]. destruct (Nat.ltb_spec i (length a)) as [Hlt | Hge].
    + assert (Hx : a !! i = Some (a !!! i)) by (apply list_lookup_lookup_total_lt; exact Hlt).
      rewrite (drop_S a (a !!! i) i Hx). cbn [List.filter].
      destruct (test (a !!! i)); cbn [negb].
      * rewrite IH.
        -- rewrite delete_take_drop.
           rewrite take_app_length' by (rewrite length_take_le; lia).
           rewrite drop_app_length' by (rewrite length_take_le; lia).
           reflexivity.
        -- rewrite length_delete by (rewrite Hx; eexists; reflexivity). lia.
        -- rewrite length_delete by (rewrite Hx; eexists; reflexivity). lia.
      * rewrite IH by lia. rewrite (take_S_r a i (a !!! i) Hx).
        rewrite <- app_assoc. reflexivity.
    + rewrite take_ge, drop_ge by lia. cbn. rewrite app_nil_r. reflexivity.
Qed.

(** The splice loop keeps, in order, the elements that fail the test. *)
Lemma spliceWhere_filter (test : nat -> bool) (a : list nat) :
  spliceWhere test a = List.filter (fun x => negb (test x)) a.
Proof.
  unfold spliceWhere. rewrite spliceLoop_filter by lia. reflexivity.
Qed.

(** ** At most one edge between two vertices *)

Lemma heapGrows_refl (h : list Edge.t) : heapGrows h h.
Proof. split; [lia | intros j _; split; reflexivity]. Qed.

Lemma heapGrows_trans (h1 h2 h3 : list Edge.t) :
  heapGrows h1 h2 -> heapGrows h2 h3 -> heapGrows h1 h3.
Proof.
  intros [Hl1 He1] [Hl2 He2]. split; [lia |].
  intros j Hj. destruct (He2 j) as [-> ->]; [lia |]. apply He1. exact Hj.
Qed.

Lemma heapGrows_alloc (h : list Edge.t) (e : Edge.t) : heapGrows h (h ++ [e]).
Proof.
  split; [rewrite length_app; lia |].
  intros j Hj. rewrite lookup_total_app_l by exact Hj. split; reflexivity.
Qed.

Lemma heapGrows_set_text (h : list Edge.t) (e : nat) (t : str) :
  heapGrows h (<[e := Edge.set_text t (h !!! e)]> h).
Proof.
  split; [rewrite length_insert; lia |].
  intros j _. rewrite list_lookup_total_insert.
  case_decide as Hd; [destruct Hd as [-> _] |]; split; reflexivity.
Qed.

Lemma filter_all {A : Type} (l : list A) : List.filter (fun _ => true) l = l.
Proof. induction l as [| a l IH]; [reflexivity | cbn; rewrite IH; reflexivity]. Qed.

Lemma filter_filter {A : Type} (p q : A -> bool) (l : list A) :
  List.filter q (List.filter p l) = List.filter (fun a => p a && q a) l.
Proof.
  induction l as [| a l IH]; [reflexivity |].
  cbn. destruct (p a); cbn; [destruct (q a) |]; rewrite IH; reflexivity.
Qed.

Lemma filter_length_le {A : Type} (p q : A -> bool) (l : list A) :
  length (List.filter q (List.filter p l)) <= length (List.filter q l).
Proof.
  induction l as [| a l IH]; [cbn; lia |].
  cbn. destruct (p a); cbn; destruct (q a); cbn; lia.
Qed.

Lemma edgeStep_intro (s s' : State) :
  heapGrows (edgeHeap s) (edgeHeap s') -> edges s' = edges s ->
  (forall e, currentEdge s' = Some (NewEdge e) ->
     currentEdge s = Some (NewEdge e) \/ e < length (edgeHeap s')) ->
  edgeStep s s'.
Proof.
  intros Hh He Hc. split; [exact Hh |]. split; [| exact Hc].
  exists (fun _ => true). rewrite filter_all. exact He.
Qed.

Lemma edgeStep_refl (s : State) : edgeStep s s.
Proof.
  apply edgeStep_intro; [apply heapGrows_refl | reflexivity | intros e H; left; exact H].
Qed.

Lemma edgeStep_trans (s1 s2 s3 : State) :
  edgeStep s1 s2 -> edgeStep s2 s3 -> edgeStep s1 s3.
Proof.
  intros (Hh1 & [k1 He1] & Hc1) (Hh2 & [k2 He2] & Hc2).
  split; [eapply heapGrows_trans; eassumption |]. split.
  - exists (fun a => k1 a && k2 a). rewrite He2, He1. apply filter_filter.
  - intros e He. destruct (Hc2 e He) as [H | H]; [| right; exact H].
    destruct (Hc1 e H) as [H' | H']; [left; exact H' |].
    right. destruct Hh2 as [Hl _]. lia.
Qed.

Lemma edgeStep_drawWith (measureText : str -> float) (c : Surface) (s : State) :
  edgeStep s (fst (drawWith measureText c s)).
Proof.
  rewrite drawWith_store.
  apply edgeStep_intro; [apply heapGrows_refl | reflexivity | intros e H; left; exact H].
Qed.

Lemma edgeStep_setText (s : State) (o : Obj) (t : str) : edgeStep s (setText o t s).
Proof.
  destruct o as [v | e]; cbn [setText].
  - apply edgeStep_intro; [apply heapGrows_refl | reflexivity | intros e H; left; exact H].
  - apply edgeStep_intro;
      [apply heapGrows_set_text | reflexivity | intros e' H; left; exact H].
Qed.

Lemma edgeStep_connect (k : Kind) (a b : nat) (s : State) : edgeStep s (connect k a b s).
Proof.
  unfold connect. apply edgeStep_intro; cbn.
  - apply heapGrows_alloc.
  - reflexivity.
  - intros e H. injection H as <-. right. rewrite length_app. cbn. lia.
Qed.

Ltac same_edges :=
  apply edgeStep_intro;
  [ apply heapGrows_refl
  | reflexivity
  | let e := fresh in let H := fresh in
    intros e H; first [ left; exact H | discriminate H ] ].

Lemma edgeStep_onmousedown (mouse : Point.t) (s : State) :
  edgeStep s (fst (onmousedown mouse s)).
Proof.
  unfold onmousedown. cbn [fst selectedObject set_selectedObject].
  destruct (selectObject _ _ _) as [[v | e] |]; try same_edges.
  destruct (shift _ && isNull _); [same_edges |].
  destruct (ctrl _ && isNull _); same_edges.
Qed.

Lemma edgeStep_onmousemove (measureText : str -> float) (mouse : Point.t) (s : State) :
  edgeStep s (fst (onmousemove measureText mouse s)).
Proof.
  unfold onmousemove.
  match goal with
  | |- context [if movingObject ?s1 then _ else _] => set (s1' := s1)
  end.
  assert (H1 : edgeStep s s1').
  { subst s1'. destruct (negb _); [| apply edgeStep_refl].
    destruct (selectedObject s) as [[v | e] |]; try apply edgeStep_refl.
    destruct (selectObject _ _ _) as [[d | e] |];
      destruct (lastKeyIs SHIFT s); try apply edgeStep_connect; try same_edges;
      destruct (lastKeyIs CTRL s); try apply edgeStep_connect; same_edges. }
  eapply edgeStep_trans; [exact H1 |]. clearbody s1'.
  destruct (movingObject s1').
  - destruct (selectedObject s1') as [[v | e] |]; try apply edgeStep_refl.
    eapply edgeStep_trans; [| apply edgeStep_drawWith]. same_edges.
  - apply edgeStep_drawWith.
Qed.

Lemma edgeStep_ondblclick (measureText : str -> float) (mouse : Point.t) (s : State) :
  edgeStep s (fst (ondblclick measureText mouse s)).
Proof.
  unfold ondblclick. cbn [selectedObject set_selectedObject].
  destruct (selectObject _ _ _); [same_edges |].
  eapply edgeStep_trans; [| apply edgeStep_drawWith]. same_edges.
Qed.

Lemma edgeStep_onkeydown (measureText : str -> float) (key : Z) (s : State) :
  edgeStep s (fst (onkeydown measureText key s)).
Proof.
  unfold onkeydown.
  set (s0 := if mouseDown s then s else set_lastKey (Some key) s).
  assert (H0 : edgeStep s s0) by (subst s0; destruct (mouseDown s); same_edges).
  eapply edgeStep_trans; [exact H0 |]. clearbody s0.
  destruct (key =? SHIFT)%Z; [same_edges |].
  destruct (key =? CTRL)%Z; [same_edges |].
  destruct (selectedObject s0) as [selected |]; [| apply edgeStep_refl].
  destruct (key =? BACKSPACE)%Z.
  - eapply edgeStep_trans; [apply edgeStep_setText | apply edgeStep_drawWith].
  - destruct (key =? DELETE)%Z; [| apply edgeStep_refl].
    eapply edgeStep_trans; [| apply edgeStep_drawWith].
    rewrite !spliceWhere_filter.
    split; [apply heapGrows_refl |]. split; [| intros e H; left; exact H].
    eexists. reflexivity.
Qed.

Lemma edgeStep_onkeyup (key : Z) (s : State) : edgeStep s (fst (onkeyup key s)).
Proof.
  unfold onkeyup. destruct (key =? SHIFT)%Z; [same_edges |].
  destruct (key =? CTRL)%Z; same_edges.
Qed.

Lemma edgeStep_onkeypress (measureText : str -> float) (key : Z) (s : State) :
  edgeStep s (fst (onkeypress measureText key s)).
Proof.
  unfold onkeypress. destruct (selectedObject s) as [selected |]; [| apply edgeStep_refl].
  destruct (_ && _); [| apply edgeStep_refl].
  eapply edgeStep_trans; [apply edgeStep_setText | apply edgeStep_drawWith].
Qed.

Lemma edgeStep_save (measureText : str -> float) (c : Surface) (s : State) :
  edgeStep s
    (fst (andThen (drawWith measureText c (set_selectedObject None s))
            (fun s' => (set_selectedObject (selectedObject s) s', Normal)))).
Proof.
  pose proof (edgeStep_drawWith measureText c (set_selectedObject None s)) as Hd.
  destruct (drawWith measureText c (set_selectedObject None s)) as [s' [| err]];
    cbn [andThen fst] in *.
  - eapply edgeStep_trans; [| eapply edgeStep_trans; [exact Hd |]]; same_edges.
  - eapply edgeStep_trans; [| exact Hd]. same_edges.
Qed.

Lemma wellFormed_edgeStep (s s' : State) : wellFormed s -> edgeStep s s' -> wellFormed s'.
Proof.
  intros (Hlive & Hcur & Huniq) ([Hlen Hends] & [keep Hkeep] & Hc).
  split; [| split].
  - intros e He. rewrite Hkeep in He. apply List.filter_In in He as [He _].
    specialize (Hlive e He). lia.
  - intros e He. destruct (Hc e He) as [H | H]; [| exact H].
    specialize (Hcur e H). lia.
  - intros A B. unfold edgesBetween. rewrite Hkeep.
    assert (Hext : List.filter (fun i => connects A B (edgeHeap s' !!! i))
                     (List.filter keep (edges s))
                   = List.filter (fun i => connects A B (edgeHeap s !!! i))
                       (List.filter keep (edges s))).
    { apply List.filter_ext_in. intros i Hi. apply List.filter_In in Hi as [Hi _].
      unfold connects. destruct (Hends i (Hlive i Hi)) as [-> ->]. reflexivity. }
    rewrite Hext. etransitivity; [apply filter_length_le |]. apply Huniq.
Qed.

Lemma connects_sameEnds (A B : nat) (a b : Edge.t) :
  connects A B a = true -> connects A B b = true -> sameEnds a b = true.
Proof.
  unfold connects, sameEnds. intros Ha Hb.
  apply orb_true_iff in Ha. apply orb_true_iff in Hb. apply orb_true_iff.
  rewrite !andb_true_iff, !Nat.eqb_eq in *.
  destruct Ha as [[? ?] | [? ?]], Hb as [[? ?] | [? ?]]; subst; auto.
Qed.

Lemma sameEnds_connects (a b : Edge.t) :
  sameEnds a b = true -> connects (Edge.v1 a) (Edge.v2 a) b = true.
Proof.
  unfold connects, sameEnds. intros H.
  apply orb_true_iff in H. apply orb_true_iff.
  rewrite !andb_true_iff, !Nat.eqb_eq in *.
  destruct H as [[? ?] | [? ?]]; auto.
Qed.

Lemma connects_ends (a : Edge.t) : connects (Edge.v1 a) (Edge.v2 a) a = true.
Proof. unfold connects. rewrite !Nat.eqb_refl. reflexivity. Qed.

Lemma connects_sym (A B : nat) (a : Edge.t) : connects A B a = connects B A a.
Proof. unfold connects. apply orb_comm. Qed.

(** [containsEdge] answers whether the array has an edge between the
    endpoints of the candidate, in either direction. *)
Lemma containsEdge_edgesBetween (s : State) (e : nat) :
  containsEdge s e = true
  <-> edgesBetween (Edge.v1 (edgeHeap s !!! e)) (Edge.v2 (edgeHeap s !!! e)) s <> [].
Proof.
  unfold containsEdge, edgesBetween. rewrite existsb_exists. split.
  - intros (i & Hi & Hsame) Hnil.
    assert (Hin : In i (List.filter
                          (fun i => connects (Edge.v1 (edgeHeap s !!! e))
                                      (Edge.v2 (edgeHeap s !!! e)) (edgeHeap s !!! i))
                          (edges s))).
    { apply List.filter_In. split; [exact Hi |]. apply sameEnds_connects. exact Hsame. }
    rewrite Hnil in Hin. destruct Hin.
  - intros Hne.
    destruct (List.filter _ (edges s)) as [| i l] eqn:Hf; [congruence |].
    assert (Hin : In i (i :: l)) by (left; reflexivity).
    rewrite <- Hf in Hin. apply List.filter_In in Hin as [Hi Hc].
    exists i. split; [exact Hi |].
    eapply connects_sameEnds; [apply connects_ends | exact Hc].
Qed.

(** What the release of the mouse does to the array of edges. *)
Lemma onmouseup_edges (mouse : Point.t) (s : State) :
  edgeHeap (fst (onmouseup mouse s)) = edgeHeap s
  /\ currentEdge (fst (onmouseup mouse s)) = None
  /\ edges (fst (onmouseup mouse s))
     = match currentEdge s with
       | Some (NewEdge e) => if containsEdge s e then edges s else edges s ++ [e]
       | _ => edges s
       end.
Proof.
  unfold onmouseup. cbn [fst currentEdge set_movingObject].
  destruct (currentEdge s) as [[v d | v d | e] |] eqn:Hce; cbn;
    try (repeat split; solve [reflexivity | exact Hce]).
  unfold containsEdge. cbn [edgeHeap edges set_movingObject].
  destruct (existsb _ _); cbn; repeat split; reflexivity.
Qed.

Lemma wellFormed_onmouseup (mouse : Point.t) (s : State) :
  wellFormed s -> wellFormed (fst (onmouseup mouse s)).
Proof.
  intros (Hlive & Hcur & Huniq).
  destruct (onmouseup_edges mouse s) as (Hh & Hc & He).
  split; [| split].
  - intros e Hin. rewrite Hh. rewrite He in Hin.
    destruct (currentEdge s) as [[v d | v d | c] |] eqn:Hce; try (apply Hlive; exact Hin).
    destruct (containsEdge s c); [apply Hlive; exact Hin |].
    apply in_app_or in Hin as [Hin | [<- | []]]; [apply Hlive; exact Hin |].
    apply Hcur. reflexivity.
  - intros e H. rewrite Hc in H. discriminate H.
  - intros A B. unfold edgesBetween. rewrite Hh, He.
    destruct (currentEdge s) as [[v d | v d | c] |] eqn:Hce; try apply Huniq.
    destruct (containsEdge s c) eqn:Hcont; [apply Huniq |].
    rewrite List.filter_app, length_app. cbn [List.filter].
    destruct (connects A B (edgeHeap s !!! c)) eqn:Hconn; [| cbn; specialize (Huniq A B);
      unfold edgesBetween in Huniq; lia].
    assert (Hnil : List.filter (fun i => connects A B (edgeHeap s !!! i)) (edges s) = []).
    { destruct (List.filter _ (edges s)) as [| i l] eqn:Hf; [reflexivity |].
      assert (Hin : In i (i :: l)) by (left; reflexivity).
      rewrite <- Hf in Hin. apply List.filter_In in Hin as [Hi Hci].
      assert (Htrue : containsEdge s c = true).
      { unfold containsEdge. apply existsb_exists. exists i. split; [exact Hi |].
        eapply connects_sameEnds; eassumption. }
      congruence. }
    rewrite Hnil. cbn. lia.
Qed.

Lemma wellFormed_handle (measureText : str -> float) (ev : Event) (s : State) :
  wellFormed s -> wellFormed (fst (handle measureText ev s)).
Proof.
  intros Hwf. destruct ev as [m | m | m | m | k | k | k | |]; cbn [handle].
  - eapply wellFormed_edgeStep; [exact Hwf | apply edgeStep_onmousedown].
  - apply wellFormed_onmouseup. exact Hwf.
  - eapply wellFormed_edgeStep; [exact Hwf | apply edgeStep_onmousemove].
  - eapply wellFormed_edgeStep; [exact Hwf | apply edgeStep_ondblclick].
  - eapply wellFormed_edgeStep; [exact Hwf | apply edgeStep_onkeydown].
  - eapply wellFormed_edgeStep; [exact Hwf | apply edgeStep_onkeyup].
  - eapply wellFormed_edgeStep; [exact Hwf | apply edgeStep_onkeypress].
  - eapply wellFormed_edgeStep; [exact Hwf | apply edgeStep_save].
  - eapply wellFormed_edgeStep; [exact Hwf | apply edgeStep_save].
Qed.

Lemma wellFormed_run (measureText : str -> float) (evs : list Event) : forall s : State,
  wellFormed s -> wellFormed (run measureText evs s).
Proof.
  induction evs as [| ev evs IH]; intros s Hwf; [exact Hwf |].
  cbn [run fold_left]. apply IH. apply wellFormed_handle. exact Hwf.
Qed.

(** In every store the editor can reach, the edge references are live and
    no two edges connect the same pair of vertices. *)
Lemma wellFormed_reachable (measureText : str -> float) (s : State) :
  reachable measureText s -> wellFormed s.
Proof.
  intros [evs ->]. apply wellFormed_run.
  split; [intros e [] |]. split; [intros e H; discriminate H |].
  intros A B. cbn. lia.
Qed.

(** C1: in every store the editor can reach, releasing the mouse on a
    candidate edge between A and B leaves exactly one edge between the
    unordered pair {A, B} in the array, and at most one between any pair.
    If the array already has an edge between A and B, in either direction
    and of either kind, the commit is a no-op: the array is unchanged and
    the whole store is as before but for the variables of the gesture
    ([movingObject], [currentEdge], [lastKey], [mouseDown]); otherwise the
    candidate is appended.  In both cases no edge object and no vertex
    object is written, so the existing edge keeps its endpoints, its kind
    and its label.  A candidate between B and A released next is dropped,
    again without a write to an edge object. *)
Theorem C1_one_edge_per_pair (measureText : str -> float) (s : State)
    (mouse : Point.t) (e : nat) :
  reachable measureText s ->
  currentEdge s = Some (NewEdge e) ->
  let A := Edge.v1 (edgeHeap s !!! e) in
  let B := Edge.v2 (edgeHeap s !!! e) in
  let s' := fst (onmouseup mouse s) in
  length (edgesBetween A B s') = 1
  /\ (forall A' B', length (edgesBetween A' B' s') <= 1)
  /\ (edgesBetween A B s <> [] \/ edgesBetween B A s <> [] -> edges s' = edges s)
  /\ (edgesBetween A B s = [] -> edges s' = edges s ++ [e])
  /\ (forall (e2 : nat) (mouse2 : Point.t),
        Edge.v1 (edgeHeap s' !!! e2) = B -> Edge.v2 (edgeHeap s' !!! e2) = A ->
        edges (fst (onmouseup mouse2 (set_currentEdge (Some (NewEdge e2)) s'))) = edges s'
        /\ edgeHeap (fst (onmouseup mouse2 (set_currentEdge (Some (NewEdge e2)) s')))
           = edgeHeap s')
  /\ edgeHeap s' = edgeHeap s
  /\ vertices s' = vertices s
  /\ vertexHeap s' = vertexHeap s
  /\ selectedObject s' = selectedObject s
  /\ (edgesBetween A B s <> [] \/ edgesBetween B A s <> [] ->
      edgesBetween A B s' = edgesBetween A B s
      /\ s' = set_mouseDown false
                (set_lastKey None (set_currentEdge None (set_movingObject false s)))).
Proof.
  intros Hreach Hcur. cbv zeta.
  pose proof (wellFormed_reachable measureText s Hreach) as Hwf.
  pose proof (wellFormed_onmouseup mouse s Hwf) as (_ & _ & Huniq').
  destruct (onmouseup_edges mouse s) as (Hh & _ & He). rewrite Hcur in He.
  pose proof (containsEdge_edgesBetween s e) as Hcont.
  assert (Hsym : forall X Y t, edgesBetween X Y t = edgesBetween Y X t).
  { intros X Y t. unfold edgesBetween. apply List.filter_ext. intros i. apply connects_sym. }
  assert (Hone : length (edgesBetween (Edge.v1 (edgeHeap s !!! e)) (Edge.v2 (edgeHeap s !!! e))
                           (fst (onmouseup mouse s))) = 1).
  { specialize (Huniq' (Edge.v1 (edgeHeap s !!! e)) (Edge.v2 (edgeHeap s !!! e))).
    unfold edgesBetween in *. rewrite Hh, He in *.
    destruct (containsEdge s e).
    - destruct (List.filter _ (edges s)); [| cbn in *; lia].
      exfalso. apply (proj1 Hcont); reflexivity.
    - rewrite List.filter_app, length_app in *. cbn [List.filter] in *.
      rewrite connects_ends in *. cbn in *. lia. }
  assert (Hexists : edgesBetween (Edge.v1 (edgeHeap s !!! e)) (Edge.v2 (edgeHeap s !!! e)) s <> []
                    \/ edgesBetween (Edge.v2 (edgeHeap s !!! e)) (Edge.v1 (edgeHeap s !!! e)) s
                       <> [] ->
                    containsEdge s e = true).
  { intros Hex. rewrite (Hsym (Edge.v2 _) (Edge.v1 _)) in Hex.
    apply Hcont. destruct Hex; assumption. }
  assert (Hframe : vertices (fst (onmouseup mouse s)) = vertices s
                   /\ vertexHeap (fst (onmouseup mouse s)) = vertexHeap s
                   /\ selectedObject (fst (onmouseup mouse s)) = selectedObject s).
  { unfold onmouseup. cbn [fst currentEdge set_movingObject]. rewrite Hcur.
    destruct (negb _); repeat split. }
  destruct Hframe as (Hvs & Hvh & Hso).
  split; [exact Hone |]. split; [exact Huniq' |]. split; [| split; [| split]].
  - intros Hex. rewrite (Hexists Hex) in He. exact He.
  - intros Hnil. destruct (containsEdge s e); [| exact He].
    exfalso. apply (proj1 Hcont); [reflexivity | exact Hnil].
  - intros e2 mouse2 H1 H2.
    set (s2 := set_currentEdge (Some (NewEdge e2)) (fst (onmouseup mouse s))).
    destruct (onmouseup_edges mouse2 s2) as (Hh2 & _ & He2).
    split; [| exact Hh2].
    rewrite He2. cbn [currentEdge s2 set_currentEdge].
    assert (Hc2 : containsEdge s2 e2 = true).
    { apply containsEdge_edgesBetween. subst s2. cbn [edgeHeap set_currentEdge].
      rewrite H1, H2.
      intros Hnil.
      assert (Hsame : edgesBetween (Edge.v2 (edgeHeap s !!! e)) (Edge.v1 (edgeHeap s !!! e))
                        (set_currentEdge (Some (NewEdge e2)) (fst (onmouseup mouse s)))
                      = edgesBetween (Edge.v1 (edgeHeap s !!! e)) (Edge.v2 (edgeHeap s !!! e))
                          (fst (onmouseup mouse s)))
        by (rewrite Hsym; reflexivity).
      rewrite Hsame in Hnil. rewrite Hnil in Hone. discriminate Hone. }
    rewrite Hc2. reflexivity.
  - split; [exact Hh |]. split; [exact Hvs |]. split; [exact Hvh |]. split; [exact Hso |].
    intros Hex. pose proof (Hexists Hex) as Hce. split.
    + unfold edgesBetween. rewrite Hh, He, Hce. reflexivity.
    + unfold onmouseup. cbn [fst currentEdge set_movingObject]. rewrite Hcur.
      change (containsEdge (set_movingObject false s) e) with (containsEdge s e).
      rewrite Hce. reflexivity.
Qed.

(** The scenario of the specification: an edge from the first vertex to the
    second exists, a second one is dragged from the second vertex back to
    the first; on release the array still holds the first edge alone, and
    the edge object is what it was.  The same with the existing edge
    labelled "a" and a directed candidate dragged back over it: the edge
    that stays is the undirected one, with its label. *)
Lemma C1_reverse_edge_dropped :
  reachable sampleMeasure reverseGesture
  /\ currentEdge reverseGesture = Some (NewEdge 1)
  /\ edges reverseGesture = [0]
  /\ length (edgesBetween 1 0 (fst (onmouseup (Point.mk 50 50) reverseGesture))) = 1
  /\ edges (fst (onmouseup (Point.mk 50 50) reverseGesture)) = [0]
  /\ edgeHeap (fst (onmouseup (Point.mk 50 50) reverseGesture)) !!! 0
     = Edge.new Undirected 0 1
  /\ currentEdge reverseDirectedGesture = Some (NewEdge 1)
  /\ edgeHeap reverseDirectedGesture !!! 1 = Edge.new Directed 1 0
  /\ edges (fst (onmouseup (Point.mk 50 50) reverseDirectedGesture)) = [0]
  /\ edgeHeap (fst (onmouseup (Point.mk 50 50) reverseDirectedGesture)) !!! 0
     = Edge.mk Undirected 0 1 (js "a").
Proof.
  assert (Hreach : reachable sampleMeasure reverseGesture).
  { exists (twoVertices ++ connectFirstToSecond
            ++ [KeyDown SHIFT; MouseDown (Point.mk 200 50); MouseMove (Point.mk 50 50)]).
    vm_compute. reflexivity. }
  assert (Hcur : currentEdge reverseGesture = Some (NewEdge 1)) by (vm_compute; reflexivity).
  assert (Hreach' : reachable sampleMeasure reverseDirectedGesture).
  { exists (twoVertices ++ connectFirstToSecond
            ++ [KeyUp SHIFT; MouseDown (Point.mk 125 50); MouseUp (Point.mk 125 50);
                KeyPress 97;
                KeyDown CTRL; MouseDown (Point.mk 200 50); MouseMove (Point.mk 50 50)]).
    vm_compute. reflexivity. }
  assert (Hcur' : currentEdge reverseDirectedGesture = Some (NewEdge 1))
    by (vm_compute; reflexivity).
  split; [exact Hreach |]. split; [exact Hcur |]. split; [vm_compute; reflexivity |].
  destruct (C1_one_edge_per_pair sampleMeasure reverseGesture (Point.mk 50 50) 1 Hreach Hcur)
    as (Hone & _ & Hkeep & _ & _ & Hheap & _).
  destruct (C1_one_edge_per_pair sampleMeasure reverseDirectedGesture (Point.mk 50 50) 1
              Hreach' Hcur')
    as (_ & _ & Hkeep' & _ & _ & Hheap' & _).
  split; [exact Hone |].
  split; [rewrite Hkeep; [vm_compute; reflexivity | left; vm_compute; discriminate] |].
  split; [rewrite Hheap; vm_compute; reflexivity |].
  split; [exact Hcur' |]. split; [vm_compute; reflexivity |].
  split; [rewrite Hkeep'; [vm_compute; reflexivity | left; vm_compute; discriminate] |].
  rewrite Hheap'. vm_compute. reflexivity.
Defined.

(** ** Radii that are up to date *)

Lemma Vertex_draw_fst (measureText : str -> float) (c : Surface) (v : Vertex.t) :
  fst (Vertex.draw measureText c v)
  = Vertex.set_radius (Vertex.radius (fst (Vertex.draw measureText Canvas2D v))) v.
Proof.
  unfold Vertex.draw. destruct (_ <? _)%float; reflexivity.
Qed.

Lemma Vertex_draw_radius (measureText : str -> float) (c : Surface) (v v' : Vertex.t) :
  Vertex.text v' = Vertex.text v ->
  Vertex.radius (fst (Vertex.draw measureText c v'))
  = Vertex.radius (fst (Vertex.draw measureText Canvas2D v)).
Proof.
  intros Ht. unfold Vertex.draw. rewrite Ht. destruct (_ <? _)%float; reflexivity.
Qed.

Lemma upToDate_fixed (measureText : str -> float) (c : Surface) (v : Vertex.t) :
  upToDate measureText v -> fst (Vertex.draw measureText c v) = v.
Proof.
  unfold upToDate. intros H. rewrite Vertex_draw_fst, H. destruct v; reflexivity.
Qed.

Lemma upToDate_after_draw (measureText : str -> float) (c : Surface) (v : Vertex.t) :
  upToDate measureText (fst (Vertex.draw measureText c v)).
Proof.
  unfold upToDate.
  rewrite (Vertex_draw_radius measureText Canvas2D v (fst (Vertex.draw measureText c v))).
  - rewrite (Vertex_draw_fst measureText c v). reflexivity.
  - rewrite Vertex_draw_fst. reflexivity.
Qed.

Lemma upToDate_same (measureText : str -> float) (v v' : Vertex.t) :
  Vertex.text v' = Vertex.text v -> Vertex.radius v' = Vertex.radius v ->
  upToDate measureText v -> upToDate measureText v'.
Proof.
  unfold upToDate. intros Ht Hr H.
  rewrite (Vertex_draw_radius measureText Canvas2D v v' Ht). congruence.
Qed.

(** The redraw of the vertices as a loop of writes: no draw of a vertex
    throws. *)
Lemma drawVertices_fold (measureText : str -> float) (c : Surface) (ids : list nat) :
  forall h : list Vertex.t,
  fst (drawVertices measureText c ids h)
  = fold_left (fun h i => <[i := fst (Vertex.draw measureText c (h !!! i))]> h) ids h.
Proof.
  induction ids as [| i ids IH]; intros h; [reflexivity |].
  cbn [drawVertices fold_left].
  destruct (Vertex_draw_spec measureText c (h !!! i)) as [Hn _].
  destruct (Vertex.draw measureText c (h !!! i)) as [v r]. cbn [fst snd] in *. subst r.
  apply IH.
Qed.

(** Redrawing vertices that are up to date writes back what is there. *)
Lemma drawVertices_drawn (measureText : str -> float) (c : Surface) (ids : list nat) :
  forall h : list Vertex.t,
  (forall v, In v ids -> upToDate measureText (h !!! v)) ->
  fst (drawVertices measureText c ids h) = h.
Proof.
  induction ids as [| i ids IH]; intros h Hup; [reflexivity |].
  rewrite drawVertices_fold. cbn [fold_left].
  rewrite upToDate_fixed by (apply Hup; left; reflexivity).
  rewrite insert_same. rewrite <- drawVertices_fold. apply IH.
  intros v Hv. apply Hup. right. exact Hv.
Qed.

(** A vertex that is not in the list is not written. *)
Lemma drawVertices_other (measureText : str -> float) (c : Surface) (ids : list nat) :
  forall (h : list Vertex.t) (v : nat),
  ~ In v ids -> fst (drawVertices measureText c ids h) !!! v = h !!! v.
Proof.
  induction ids as [| j ids IH]; intros h v Hnin; [reflexivity |].
  rewrite drawVertices_fold. cbn [fold_left]. rewrite <- drawVertices_fold.
  rewrite IH by (intros H; apply Hnin; right; exact H).
  apply list_lookup_total_insert_ne.
  intros ->. apply Hnin. left. reflexivity.
Qed.

(** A vertex that is up to date is written back as it is. *)
Lemma drawVertices_keeps (measureText : str -> float) (c : Surface) (ids : list nat) :
  forall (h : list Vertex.t) (v : nat),
  upToDate measureText (h !!! v) -> fst (drawVertices measureText c ids h) !!! v = h !!! v.
Proof.
  induction ids as [| j ids IH]; intros h v Hup; [reflexivity |].
  rewrite drawVertices_fold. cbn [fold_left]. rewrite <- drawVertices_fold.
  destruct (Nat.eq_dec j v) as [-> | Hne].
  - rewrite upToDate_fixed by exact Hup. rewrite insert_same. apply IH. exact Hup.
  - rewrite IH; rewrite list_lookup_total_insert_ne by exact Hne; [reflexivity | exact Hup].
Qed.

(** After a redraw every live vertex of the list is up to date. *)
Lemma drawVertices_upToDate (measureText : str -> float) (c : Surface) (ids : list nat) :
  forall (h : list Vertex.t) (v : nat),
  In v ids -> v < length h ->
  upToDate measureText (fst (drawVertices measureText c ids h) !!! v).
Proof.
  induction ids as [| i ids IH]; intros h v Hin Hlt; [destruct Hin |].
  rewrite drawVertices_fold. cbn [fold_left]. rewrite <- drawVertices_fold.
  set (h1 := <[i := fst (Vertex.draw measureText c (h !!! i))]> h).
  assert (Hlen : length h1 = length h) by apply length_insert.
  destruct (in_dec Nat.eq_dec v ids) as [Hin' | Hnin].
  - apply IH; [exact Hin' | lia].
  - destruct Hin as [-> | Hin]; [| contradiction].
    destruct (drawVertices_spec measureText c ids h1) as (_ & _ & Hsame).
    destruct (Hsame v) as (_ & _ & Ht & _).
    assert (Hr : Vertex.radius (fst (drawVertices measureText c ids h1) !!! v)
                 = Vertex.radius (h1 !!! v))
      by (rewrite drawVertices_other by exact Hnin; reflexivity).
    eapply upToDate_same; [exact Ht | exact Hr |].
    subst h1. rewrite list_lookup_total_insert_eq by exact Hlt.
    apply upToDate_after_draw.
Qed.

Lemma drawn_after_drawWith (measureText : str -> float) (c : Surface) (s : State) :
  (forall v, In v (vertices s) -> v < length (vertexHeap s)) ->
  drawn measureText (fst (drawWith measureText c s)).
Proof.
  intros Hlive v Hv. rewrite drawWith_store in *.
  cbn [vertices vertexHeap set_vertexHeap] in *.
  destruct (drawVertices_spec measureText c (vertices s) (vertexHeap s)) as (_ & Hlen & _).
  split; [rewrite Hlen; apply Hlive; exact Hv |].
  apply drawVertices_upToDate; [exact Hv | apply Hlive; exact Hv].
Qed.

(** What keeps a store drawn without a redraw: the same array, or less of
    it, over a heap of the same labels and radii. *)
Lemma drawn_frame (measureText : str -> float) (s s' : State) :
  drawn measureText s ->
  (forall v, In v (vertices s') -> In v (vertices s)) ->
  length (vertexHeap s') = length (vertexHeap s) ->
  (forall j, Vertex.text (vertexHeap s' !!! j) = Vertex.text (vertexHeap s !!! j)
             /\ Vertex.radius (vertexHeap s' !!! j) = Vertex.radius (vertexHeap s !!! j)) ->
  drawn measureText s'.
Proof.
  intros Hd Hsub Hlen Hsame v Hv. destruct (Hd v (Hsub v Hv)) as [Hlt Hup].
  split; [lia |]. destruct (Hsame v) as [Ht Hr].
  eapply upToDate_same; eassumption.
Qed.

Ltac same_vertices Hd :=
  apply (drawn_frame _ _ _ Hd);
  [ intros ? H; exact H | reflexivity | intros ?; split; reflexivity ].

Lemma snap_length (vertex : nat) (l : list nat) : forall h : list Vertex.t,
  length (fold_left (snapStep vertex) l h) = length h.
Proof.
  induction l as [| i l IH]; intros h; [reflexivity |].
  cbn [fold_left]. rewrite IH. unfold snapStep.
  repeat (destruct (_ <? _)%float; rewrite ?length_insert); reflexivity.
Qed.

Lemma drawn_onmousedown (measureText : str -> float) (mouse : Point.t) (s : State) :
  drawn measureText s -> drawn measureText (fst (onmousedown mouse s)).
Proof.
  intros Hd. unfold onmousedown. cbn [fst selectedObject set_selectedObject].
  destruct (selectObject _ _ _) as [[v | e] |]; try same_vertices Hd.
  destruct (shift _ && isNull _); [same_vertices Hd |].
  destruct (ctrl _ && isNull _); [same_vertices Hd |].
  apply (drawn_frame _ _ _ Hd); cbn.
  - intros ? H; exact H.
  - apply length_insert.
  - intros j. rewrite list_lookup_total_insert.
    case_decide as Hj; [destruct Hj as [-> _] |]; split; reflexivity.
Qed.

Lemma drawn_onmouseup (measureText : str -> float) (mouse : Point.t) (s : State) :
  drawn measureText s -> drawn measureText (fst (onmouseup mouse s)).
Proof.
  intros Hd. unfold onmouseup. cbn [fst currentEdge set_movingObject].
  destruct (currentEdge s) as [[v d | v d | e] |]; try same_vertices Hd.
  destruct (negb _); same_vertices Hd.
Qed.

Lemma drawn_onmousemove (measureText : str -> float) (mouse : Point.t) (s : State) :
  drawn measureText s -> drawn measureText (fst (onmousemove measureText mouse s)).
Proof.
  intros Hd. unfold onmousemove.
  match goal with
  | |- context [if movingObject ?s1 then _ else _] => set (s1' := s1)
  end.
  assert (H1 : drawn measureText s1').
  { subst s1'. destruct (negb _); [| exact Hd].
    destruct (selectedObject s) as [[v | e] |]; try exact Hd.
    destruct (selectObject _ _ _) as [[d | e] |];
      destruct (lastKeyIs SHIFT s); try same_vertices Hd;
      destruct (lastKeyIs CTRL s); same_vertices Hd. }
  clearbody s1'. clear Hd.
  assert (Hlive : forall v, In v (vertices s1') -> v < length (vertexHeap s1'))
    by (intros v Hv; apply H1; exact Hv).
  destruct (movingObject s1').
  - destruct (selectedObject s1') as [[v | e] |]; try exact H1.
    apply drawn_after_drawWith. unfold snap. cbn.
    intros w Hw. rewrite snap_length, length_insert. apply Hlive. exact Hw.
  - apply drawn_after_drawWith. exact Hlive.
Qed.

Lemma drawn_ondblclick (measureText : str -> float) (mouse : Point.t) (s : State) :
  drawn measureText s -> drawn measureText (fst (ondblclick measureText mouse s)).
Proof.
  intros Hd. unfold ondblclick. cbn [selectedObject set_selectedObject].
  destruct (selectObject _ _ _); [same_vertices Hd |].
  apply drawn_after_drawWith. cbn. intros v Hv. rewrite length_app. cbn.
  apply in_app_or in Hv as [Hv | [<- | []]]; [| lia].
  destruct (Hd v Hv) as [Hlt _]. lia.
Qed.

Lemma drawn_setText (measureText : str -> float) (s : State) (o : Obj) (t : str) :
  drawn measureText s ->
  forall v, In v (vertices (setText o t s)) -> v < length (vertexHeap (setText o t s)).
Proof.
  intros Hd v Hv. destruct o as [w | e]; cbn in *.
  - rewrite length_insert. apply Hd. exact Hv.
  - apply Hd. exact Hv.
Qed.

Lemma drawn_onkeydown (measureText : str -> float) (key : Z) (s : State) :
  drawn measureText s -> drawn measureText (fst (onkeydown measureText key s)).
Proof.
  intros Hd. unfold onkeydown.
  set (s0 := if mouseDown s then s else set_lastKey (Some key) s).
  assert (H0 : drawn measureText s0) by (subst s0; destruct (mouseDown s); same_vertices Hd).
  clearbody s0. clear Hd.
  destruct (key =? SHIFT)%Z; [same_vertices H0 |].
  destruct (key =? CTRL)%Z; [same_vertices H0 |].
  destruct (selectedObject s0) as [selected |]; [| exact H0].
  destruct (key =? BACKSPACE)%Z.
  - apply drawn_after_drawWith. apply (drawn_setText measureText). exact H0.
  - destruct (key =? DELETE)%Z; [| exact H0].
    apply drawn_after_drawWith. cbn. rewrite spliceWhere_filter.
    intros v Hv. apply List.filter_In in Hv as [Hv _]. apply H0. exact Hv.
Qed.

Lemma drawn_onkeyup (measureText : str -> float) (key : Z) (s : State) :
  drawn measureText s -> drawn measureText (fst (onkeyup key s)).
Proof.
  intros Hd. unfold onkeyup. destruct (key =? SHIFT)%Z; [same_vertices Hd |].
  destruct (key =? CTRL)%Z; same_vertices Hd.
Qed.

Lemma drawn_onkeypress (measureText : str -> float) (key : Z) (s : State) :
  drawn measureText s -> drawn measureText (fst (onkeypress measureText key s)).
Proof.
  intros Hd. unfold onkeypress. destruct (selectedObject s) as [selected |]; [| exact Hd].
  destruct (_ && _); [| exact Hd].
  apply drawn_after_drawWith. apply (drawn_setText measureText). exact Hd.
Qed.

Lemma drawn_save (measureText : str -> float) (c : Surface) (s : State) :
  drawn measureText s ->
  drawn measureText
    (fst (andThen (drawWith measureText c (set_selectedObject None s))
            (fun s' => (set_selectedObject (selectedObject s) s', Normal)))).
Proof.
  intros Hd.
  assert (Hafter : drawn measureText (fst (drawWith measureText c (set_selectedObject None s)))).
  { apply drawn_after_drawWith. cbn. intros v Hv. apply Hd. exact Hv. }
  destruct (drawWith measureText c (set_selectedObject None s)) as [s' [| err]];
    cbn [andThen fst] in *.
  - same_vertices Hafter.
  - exact Hafter.
Qed.

Lemma drawn_handle (measureText : str -> float) (ev : Event) (s : State) :
  drawn measureText s -> drawn measureText (fst (handle measureText ev s)).
Proof.
  intros Hd. destruct ev as [m | m | m | m | k | k | k | |]; cbn [handle].
  - apply drawn_onmousedown. exact Hd.
  - apply drawn_onmouseup. exact Hd.
  - apply drawn_onmousemove. exact Hd.
  - apply drawn_ondblclick. exact Hd.
  - apply drawn_onkeydown. exact Hd.
  - apply drawn_onkeyup. exact Hd.
  - apply drawn_onkeypress. exact Hd.
  - apply drawn_save. exact Hd.
  - apply drawn_save. exact Hd.
Qed.

(** Every store the editor can reach is drawn. *)
Lemma drawn_reachable (measureText : str -> float) (s : State) :
  reachable measureText s -> drawn measureText s.
Proof.
  intros [evs ->].
  assert (H : forall s0, drawn measureText s0 -> drawn measureText (run measureText evs s0)).
  { induction evs as [| ev evs IH]; intros s0 H0; [exact H0 |].
    cbn [run fold_left]. apply IH. apply drawn_handle. exact H0. }
  apply H. intros v [].
Qed.

(** ** The Delete key, with a vertex selected *)

(** C2: with a vertex V selected, the Delete key completes, removes V from
    the array of vertices and removes from the array of edges exactly the
    edges with v1 == V or v2 == V; the other vertices and edges stay, in
    their order, the edge objects are untouched, and the selection is
    cleared.  The redraw that follows can only rewrite radii, and in a store
    the editor can reach it finds them up to date: the vertex objects are
    untouched too. *)
Theorem C2_delete_selected_vertex (measureText : str -> float) (s : State) (V : nat) :
  selectedObject s = Some (VertexRef V) ->
  let s' := fst (onkeydown measureText DELETE s) in
  snd (onkeydown measureText DELETE s) = Normal
  /\ vertices s' = List.filter (fun v => negb (v =? V)) (vertices s)
  /\ edges s' = List.filter (fun e => negb ((Edge.v1 (edgeHeap s !!! e) =? V)
                                           || (Edge.v2 (edgeHeap s !!! e) =? V)))
                            (edges s)
  /\ selectedObject s' = None
  /\ edgeHeap s' = edgeHeap s
  /\ (forall j, sameButRadius (vertexHeap s !!! j) (vertexHeap s' !!! j))
  /\ (reachable measureText s -> vertexHeap s' = vertexHeap s).
Proof.
  intros Hsel. cbv zeta. unfold onkeydown.
  replace (DELETE =? SHIFT)%Z with false by reflexivity.
  replace (DELETE =? CTRL)%Z with false by reflexivity.
  replace (DELETE =? BACKSPACE)%Z with false by reflexivity.
  replace (DELETE =? DELETE)%Z with true by reflexivity.
  assert (Hsel' : selectedObject (if mouseDown s then s else set_lastKey (Some DELETE) s)
                  = Some (VertexRef V)) by (destruct (mouseDown s); exact Hsel).
  rewrite Hsel'.
  split; [apply draw_completes |].
  rewrite draw_store. rewrite !spliceWhere_filter.
  cbn [vertices edges selectedObject edgeHeap vertexHeap
       set_vertexHeap set_selectedObject set_edges set_vertices Obj_eqb orb].
  assert (Hv : vertices (if mouseDown s then s else set_lastKey (Some DELETE) s) = vertices s)
    by (destruct (mouseDown s); reflexivity).
  assert (He : edges (if mouseDown s then s else set_lastKey (Some DELETE) s) = edges s)
    by (destruct (mouseDown s); reflexivity).
  assert (Hh : edgeHeap (if mouseDown s then s else set_lastKey (Some DELETE) s) = edgeHeap s)
    by (destruct (mouseDown s); reflexivity).
  assert (Hvh : vertexHeap (if mouseDown s then s else set_lastKey (Some DELETE) s)
                = vertexHeap s)
    by (destruct (mouseDown s); reflexivity).
  rewrite Hv, He, Hh, Hvh.
  do 4 (split; [reflexivity |]). split.
  - intros j. apply drawVertices_spec.
  - intros Hreach. apply drawVertices_drawn.
    intros v Hin. apply List.filter_In in Hin as [Hin _].
    apply (drawn_reachable measureText s Hreach). exact Hin.
Qed.

(** With the second vertex of the triangle selected, Delete leaves the
    vertices 0 and 2 and the edge between them. *)
Lemma C2_delete_in_triangle :
  selectedObject triangleScene = Some (VertexRef 1)
  /\ vertices triangleScene = [0; 1; 2]
  /\ edges triangleScene = [0; 1; 2]
  /\ vertices (fst (onkeydown sampleMeasure DELETE triangleScene)) = [0; 2]
  /\ edges (fst (onkeydown sampleMeasure DELETE triangleScene)) = [2]
  /\ selectedObject (fst (onkeydown sampleMeasure DELETE triangleScene)) = None.
Proof.
  assert (Hsel : selectedObject triangleScene = Some (VertexRef 1)) by (vm_compute; reflexivity).
  split; [exact Hsel |]. split; [vm_compute; reflexivity |]. split; [vm_compute; reflexivity |].
  destruct (C2_delete_selected_vertex sampleMeasure triangleScene 1 Hsel)
    as (_ & Hv & He & Hs & _).
  rewrite Hv, He, Hs. vm_compute. repeat split.
Defined.

(** ** The Backspace key *)

Lemma substr_drop_last (t : str) :
  substr t 0 (Z.of_nat (length t) - 1) = removelast t.
Proof.
  unfold substr. cbn [Z.ltb Z.compare].
  rewrite removelast_firstn_len.
  replace (Z.to_nat (Z.min 0 (Z.of_nat (length t)))) with 0 by lia.
  cbn [drop]. f_equal. lia.
Qed.

Lemma textOf_setText_same (s : State) (o : Obj) (t : str) :
  textOf (setText o t s) o = t
  \/ (textOf (setText o t s) o = textOf s o /\ textOf s o = []).
Proof.
  destruct o as [v | e]; cbn [textOf setText vertexHeap edgeHeap set_vertexHeap set_edgeHeap].
  - destruct (decide (v < length (vertexHeap s))) as [Hlt | Hge].
    + left. rewrite list_lookup_total_insert_eq by exact Hlt. reflexivity.
    + right. rewrite list_insert_ge by lia. split; [reflexivity |].
      rewrite list_lookup_total_alt, lookup_ge_None_2 by lia. reflexivity.
  - destruct (decide (e < length (edgeHeap s))) as [Hlt | Hge].
    + left. rewrite list_lookup_total_insert_eq by exact Hlt. reflexivity.
    + right. rewrite list_insert_ge by lia. split; [reflexivity |].
      rewrite list_lookup_total_alt, lookup_ge_None_2 by lia. reflexivity.
Qed.

Lemma textOf_setText_other (s : State) (o o' : Obj) (t : str) :
  o' <> o -> textOf (setText o t s) o' = textOf s o'.
Proof.
  intros Hne.
  destruct o as [v | e], o' as [v' | e'];
    cbn [textOf setText vertexHeap edgeHeap set_vertexHeap set_edgeHeap];
    try reflexivity.
  - rewrite list_lookup_total_insert_ne by congruence. reflexivity.
  - rewrite list_lookup_total_insert_ne by congruence. reflexivity.
Qed.

(** Writing a label leaves every position and every endpoint as it was. *)
Lemma setText_geometry (s : State) (o : Obj) (t : str) :
  (forall j, Vertex.x (vertexHeap (setText o t s) !!! j) = Vertex.x (vertexHeap s !!! j)
             /\ Vertex.y (vertexHeap (setText o t s) !!! j) = Vertex.y (vertexHeap s !!! j))
  /\ (forall j, Edge.v1 (edgeHeap (setText o t s) !!! j) = Edge.v1 (edgeHeap s !!! j)
                /\ Edge.v2 (edgeHeap (setText o t s) !!! j) = Edge.v2 (edgeHeap s !!! j)
                /\ Edge.kind (edgeHeap (setText o t s) !!! j) = Edge.kind (edgeHeap s !!! j)).
Proof.
  destruct o as [v | e]; cbn [setText vertexHeap edgeHeap set_vertexHeap set_edgeHeap].
  - split; [| intros j; repeat split].
    intros j. rewrite list_lookup_total_insert.
    case_decide as Hd; [destruct Hd as [-> _] |]; split; reflexivity.
  - split; [intros j; split; reflexivity |].
    intros j. rewrite list_lookup_total_insert.
    case_decide as Hd; [destruct Hd as [-> _] |]; repeat split; reflexivity.
Qed.

(** A redraw leaves every label as it was. *)
Lemma draw_textOf (measureText : str -> float) (s : State) (o : Obj) :
  textOf (fst (draw measureText s)) o = textOf s o.
Proof.
  rewrite draw_store. destruct o as [v | e]; cbn [textOf vertexHeap edgeHeap set_vertexHeap].
  - destruct (drawVertices_spec measureText Canvas2D (vertices s) (vertexHeap s))
      as (_ & _ & Hsame).
    destruct (Hsame v) as (_ & _ & Ht & _). exact Ht.
  - reflexivity.
Qed.

(** What the Backspace key does to the labels, the arrays, the selection and
    the geometry, with an entity selected. *)
Lemma backspace_label_frame (measureText : str -> float) (s : State) (o : Obj) :
  selectedObject s = Some o ->
  let s' := fst (onkeydown measureText BACKSPACE s) in
  snd (onkeydown measureText BACKSPACE s) = Normal
  /\ textOf s' o = removelast (textOf s o)
  /\ (textOf s o = [] -> textOf s' o = [])
  /\ (forall t c, textOf s o = t ++ [c] -> textOf s' o = t)
  /\ (forall o', o' <> o -> textOf s' o' = textOf s o')
  /\ vertices s' = vertices s
  /\ edges s' = edges s
  /\ selectedObject s' = selectedObject s
  /\ currentEdge s' = currentEdge s
  /\ (forall j, Vertex.x (vertexHeap s' !!! j) = Vertex.x (vertexHeap s !!! j)
                /\ Vertex.y (vertexHeap s' !!! j) = Vertex.y (vertexHeap s !!! j))
  /\ (forall j, Edge.v1 (edgeHeap s' !!! j) = Edge.v1 (edgeHeap s !!! j)
                /\ Edge.v2 (edgeHeap s' !!! j) = Edge.v2 (edgeHeap s !!! j)
                /\ Edge.kind (edgeHeap s' !!! j) = Edge.kind (edgeHeap s !!! j))
  /\ (forall j, EdgeRef j <> o -> edgeHeap s' !!! j = edgeHeap s !!! j)
  /\ (reachable measureText s ->
      forall j, VertexRef j <> o -> vertexHeap s' !!! j = vertexHeap s !!! j).
Proof.
  intros Hsel. cbv zeta. unfold onkeydown.
  replace (BACKSPACE =? SHIFT)%Z with false by reflexivity.
  replace (BACKSPACE =? CTRL)%Z with false by reflexivity.
  replace (BACKSPACE =? BACKSPACE)%Z with true by reflexivity.
  set (s0 := if mouseDown s then s else set_lastKey (Some BACKSPACE) s).
  assert (Hsel0 : selectedObject s0 = Some o) by (subst s0; destruct (mouseDown s); exact Hsel).
  assert (Htext0 : forall o', textOf s0 o' = textOf s o')
    by (intros o'; subst s0; destruct (mouseDown s); reflexivity).
  assert (Hvh0 : vertexHeap s0 = vertexHeap s) by (subst s0; destruct (mouseDown s); reflexivity).
  assert (Heh0 : edgeHeap s0 = edgeHeap s) by (subst s0; destruct (mouseDown s); reflexivity).
  assert (Hv0 : vertices s0 = vertices s) by (subst s0; destruct (mouseDown s); reflexivity).
  assert (He0 : edges s0 = edges s) by (subst s0; destruct (mouseDown s); reflexivity).
  assert (Hc0 : currentEdge s0 = currentEdge s) by (subst s0; destruct (mouseDown s); reflexivity).
  rewrite Hsel0, substr_drop_last, Htext0.
  set (s1 := setText o (removelast (textOf s o)) s0).
  assert (Htext : textOf (fst (draw measureText s1)) o = removelast (textOf s o)).
  { rewrite draw_textOf. subst s1.
    destruct (textOf_setText_same s0 o (removelast (textOf s o))) as [H | [H Hnil]];
      [exact H |].
    rewrite H, Htext0. rewrite Htext0 in Hnil. rewrite Hnil. reflexivity. }
  split; [apply draw_completes |].
  split; [exact Htext |].
  split; [intros Hnil; rewrite Htext, Hnil; reflexivity |].
  split; [intros t c Ht; rewrite Htext, Ht; apply removelast_last |].
  split.
  { intros o' Hne. rewrite draw_textOf. subst s1.
    rewrite textOf_setText_other by exact Hne. apply Htext0. }
  rewrite draw_store.
  cbn [vertices edges selectedObject currentEdge edgeHeap vertexHeap set_vertexHeap].
  assert (Hfields : vertices s1 = vertices s /\ edges s1 = edges s
                    /\ selectedObject s1 = selectedObject s /\ currentEdge s1 = currentEdge s).
  { subst s1. destruct o; cbn; rewrite Hv0, He0, Hsel0, Hc0, Hsel; repeat split. }
  destruct Hfields as (-> & -> & -> & ->).
  do 4 (split; [reflexivity |]).
  destruct (setText_geometry s0 o (removelast (textOf s o))) as [Hgv Hge].
  fold s1 in Hgv, Hge. rewrite Hvh0 in Hgv. rewrite Heh0 in Hge.
  split; [| split; [exact Hge | split]].
  - intros j.
    destruct (drawVertices_spec measureText Canvas2D (vertices s) (vertexHeap s1))
      as (_ & _ & Hsame).
    destruct (Hsame j) as (Hx & Hy & _). destruct (Hgv j) as [Hx' Hy'].
    split; congruence.
  - intros j Hj. subst s1. destruct o as [v | e]; cbn [setText edgeHeap set_vertexHeap set_edgeHeap];
      rewrite ?Heh0; [reflexivity |].
    apply list_lookup_total_insert_ne. congruence.
  - intros Hreach j Hj.
    assert (Hs1 : vertexHeap s1 !!! j = vertexHeap s !!! j).
    { subst s1. destruct o as [v | e]; cbn [setText vertexHeap set_vertexHeap set_edgeHeap];
        rewrite ?Hvh0; [| reflexivity].
      apply list_lookup_total_insert_ne. congruence. }
    destruct (in_dec Nat.eq_dec j (vertices s)) as [Hin | Hnin].
    + rewrite drawVertices_keeps; [exact Hs1 |].
      rewrite Hs1. apply (drawn_reachable measureText s Hreach). exact Hin.
    + rewrite drawVertices_other by exact Hnin. exact Hs1.
Qed.

(** ** The kind of the edge under construction *)

(** C9 at its failing input: Shift and then Control are pressed and held, and
    the mouse is pressed on a vertex.  The press starts an undirected
    temporary edge, since the Shift flag is tested first; the first mouse
    move, with the mouse still down and no key touched, rebuilds it as a
    directed one, since the last key pressed was Control. *)
Theorem C9_kind_changes_on_first_move :
  mouseDown bothModifiersPressed = true
  /\ currentEdge bothModifiersPressed = Some (TempEdge 0 (Point.mk 50 50))
  /\ currentEdge (fst (onmousemove sampleMeasure (Point.mk 200 200) bothModifiersPressed))
     = Some (TempDirEdge 0 (Point.mk 200 200)).
Proof.
  split; [vm_compute; reflexivity |]. split; vm_compute; reflexivity.
Qed.

(** ** The nearest point of a circle *)

(** C4 (as stated): towards its own center, the nearest circle point is the
    center.  It is not: for a vertex at (100,100) it is the point
    (NaN, NaN). *)
Lemma C4_center_is_not_returned :
  Vertex.nearestCirclePoint (Vertex.new 100 100) 100 100 = Point.mk nan nan
  /\ Vertex.nearestCirclePoint (Vertex.new 100 100) 100 100 <> Point.mk 100 100.
Proof.
  split; [vm_compute; reflexivity |].
  intros H. apply (f_equal Point.x) in H. vm_compute in H. float_discriminate H.
Qed.

Lemma Zmin_same (e : Z) : IntDef.Z.min e e = e.
Proof. unfold IntDef.Z.min. destruct (IntDef.Z.compare e e); reflexivity. Qed.

(** A number minus itself is +0, or NaN when it is not finite. *)
Lemma SF64sub_self (X : spec_float) :
  SF64sub X X = S754_zero false \/ SF64sub X X = S754_nan.
Proof.
  destruct X as [s | s | | s m e]; cbn.
  - destruct s; auto.
  - destruct s; auto.
  - auto.
  - left. unfold SF64sub, SFsub. rewrite Zmin_same. unfold shl_align.
    replace (IntDef.Z.sub e e) with 0%Z by (symmetry; apply Z.sub_diag). cbn [fst].
    replace (IntDef.Z.sub (cond_Zopp s (Z.pos m)) (cond_Zopp s (Z.pos m))) with 0%Z
      by (symmetry; apply Z.sub_diag).
    reflexivity.
Qed.

(** The coordinate computed by [nearestCirclePoint] towards the center
    itself: 0/0, whatever the center and the radius are. *)
Lemma towards_center_nan (c r a b : float) :
  (c + r * (a - a) / sqrt ((a - a) * (a - a) + (b - b) * (b - b)) = nan)%float
  /\ (c + r * (b - b) / sqrt ((a - a) * (a - a) + (b - b) * (b - b)) = nan)%float.
Proof.
  split; apply Prim2SF_inj;
    rewrite add_spec, div_spec, mul_spec, sqrt_spec, add_spec, !mul_spec, !sub_spec;
    destruct (SF64sub_self (Prim2SF a)) as [-> | ->];
    destruct (SF64sub_self (Prim2SF b)) as [-> | ->];
    destruct (Prim2SF r) as [[|] | [|] | | [|] ? ?];
    destruct (Prim2SF c) as [[|] | [|] | | [|] ? ?]; reflexivity.
Qed.

(** C4 (amended): the computation never throws (it is arithmetic on
    numbers), and it has no guard: for every vertex, whatever its center and
    radius, the nearest circle point towards the center itself is
    (NaN, NaN), the result of dividing zero by the zero distance. *)
Theorem C4_nearest_point_towards_center (v : Vertex.t) :
  Vertex.nearestCirclePoint v (Vertex.x v) (Vertex.y v) = Point.mk nan nan.
Proof.
  unfold Vertex.nearestCirclePoint.
  destruct (towards_center_nan (Vertex.x v) (Vertex.radius v) (Vertex.x v) (Vertex.y v))
    as [Hx _].
  destruct (towards_center_nan (Vertex.y v) (Vertex.radius v) (Vertex.x v) (Vertex.y v))
    as [_ Hy].
  rewrite Hx, Hy. reflexivity.
Qed.

(** ** The numeric formatter *)

(** C5 (as stated): for every number and digit count the integer part is
    left as it is.  With no fraction digits there is no decimal point to
    stop at, and the zeros of the integer part go: 100 becomes "1". *)
Lemma C5_integer_zeros_stripped :
  toFixed (fun _ => []) 100 0 = Some (js "100")
  /\ fixed (fun _ => []) 100 0 = Some (js "1")
  /\ fixed (fun _ => []) 100 0 <> Some (js "100").
Proof.
  split; [vm_compute; reflexivity |]. split; [vm_compute; reflexivity |].
  vm_compute. discriminate.
Qed.

Lemma uintDigits_digits (u : Decimal.uint) : forallb isDigit (uintDigits u) = true.
Proof. induction u; cbn; try rewrite IHu; reflexivity. Qed.

Lemma forallb_repeat (p : N -> bool) (c : N) (n : nat) :
  p c = true -> forallb p (repeat c n) = true.
Proof. intros H. induction n as [| n IH]; cbn; [| rewrite H, IH]; reflexivity. Qed.

Lemma forallb_drop (p : N -> bool) (n : nat) (s : str) :
  forallb p s = true -> forallb p (drop n s) = true.
Proof.
  revert n. induction s as [| c s IH]; intros [| n] H; cbn in *; try reflexivity.
  - exact H.
  - apply andb_true_iff in H as [_ H]. apply IH. exact H.
Qed.

(** With at least one fraction digit, the rendering has a decimal point
    followed by exactly that many digits. *)
Lemma pointed_shape (digits : str) (f : nat) :
  1 <= f -> forallb isDigit digits = true ->
  exists whole frac,
    pointed digits f = whole ++ DOT :: frac
    /\ length frac = f /\ forallb isDigit frac = true.
Proof.
  intros Hf Hd. unfold pointed.
  destruct (Nat.eqb_spec f 0) as [-> | _]; [lia |].
  set (ds := if length digits <=? f then repeat ZERO (f + 1 - length digits) ++ digits
             else digits).
  assert (Hds : forallb isDigit ds = true).
  { subst ds. destruct (length digits <=? f); [| exact Hd].
    rewrite forallb_app, Hd, forallb_repeat; reflexivity. }
  assert (Hlen : f < length ds).
  { subst ds. destruct (Nat.leb_spec (length digits) f) as [Hle | Hgt]; [| exact Hgt].
    rewrite length_app, repeat_length. lia. }
  exists (take (length ds - f) ds), (drop (length ds - f) ds).
  split; [reflexivity |]. split; [rewrite length_drop; lia |].
  apply forallb_drop. exact Hds.
Qed.

Lemma dropWhile_app_last (p : N -> bool) (s : str) (c : N) :
  dropWhile p (s ++ [c])
  = match dropWhile p s with
    | [] => if p c then [] else [c]
    | kept => kept ++ [c]
    end.
Proof.
  induction s as [| a s IH]; cbn; [reflexivity |].
  destruct (p a); [exact IH | reflexivity].
Qed.

Lemma dropWhile_nil (p : N -> bool) (s : str) :
  dropWhile p s = [] <-> forallb p s = true.
Proof.
  induction s as [| a s IH]; cbn; [tauto |].
  destruct (p a); cbn; [exact IH |]. split; discriminate.
Qed.

Lemma forallb_rev (p : N -> bool) (s : str) : forallb p (rev s) = forallb p s.
Proof.
  induction s as [| a s IH]; [reflexivity |].
  cbn. rewrite forallb_app, IH. cbn. rewrite andb_true_r. apply andb_comm.
Qed.

(** The regular expression [/0+$/] removes the trailing zeros. *)
Lemma replaceTrailingZeros_drop (s : str) : replaceTrailingZeros s = dropTrailingZeros s.
Proof.
  unfold dropTrailingZeros. induction s as [| c s IH]; [reflexivity |].
  cbn [replaceTrailingZeros rev]. rewrite dropWhile_app_last.
  destruct (forallb (N.eqb ZERO) (c :: s)) eqn:Hall.
  - cbn [forallb] in Hall. apply andb_true_iff in Hall as [Hc Hs].
    rewrite <- forallb_rev in Hs. apply dropWhile_nil in Hs. rewrite Hs, Hc. reflexivity.
  - rewrite IH. cbn [forallb] in Hall.
    destruct (dropWhile (N.eqb ZERO) (rev s)) as [| k kept] eqn:Hk.
    + apply dropWhile_nil in Hk. rewrite forallb_rev in Hk. rewrite Hk, andb_true_r in Hall.
      rewrite Hall. reflexivity.
    + cbn [rev]. rewrite rev_app_distr. reflexivity.
Qed.

(** Nothing is removed before a decimal point. *)
Lemma replaceTrailingZeros_point (pre frac : str) :
  replaceTrailingZeros (pre ++ DOT :: frac) = pre ++ DOT :: replaceTrailingZeros frac.
Proof.
  induction pre as [| c pre IH].
  - cbn. reflexivity.
  - cbn [app replaceTrailingZeros].
    assert (Hall : forallb (N.eqb ZERO) (c :: pre ++ DOT :: frac) = false).
    { cbn [forallb]. rewrite forallb_app. cbn. rewrite andb_false_r, andb_false_r. reflexivity. }
    rewrite Hall, IH. reflexivity.
Qed.

Lemma replaceTrailingDot_last (s : str) (c : N) :
  replaceTrailingDot (s ++ [c]) = if (c =? DOT)%N then s else s ++ [c].
Proof.
  induction s as [| a s IH]; [cbn; destruct (c =? DOT)%N; reflexivity |].
  cbn [app replaceTrailingDot]. rewrite IH.
  destruct (s ++ [c]) eqn:Happ; [destruct s; discriminate Happ |].
  destruct (c =? DOT)%N; reflexivity.
Qed.

Lemma forallb_dropWhile (p q : N -> bool) (s : str) :
  forallb p s = true -> forallb p (dropWhile q s) = true.
Proof.
  induction s as [| a s IH]; intros H; [reflexivity |].
  cbn [dropWhile]. destruct (q a); [| exact H].
  cbn [forallb] in H. apply andb_true_iff in H as [_ H]. apply IH. exact H.
Qed.

(** What is left of a fraction made of digits does not end with a point. *)
Lemma dropTrailingZeros_last (frac : str) :
  forallb isDigit frac = true ->
  dropTrailingZeros frac = []
  \/ exists kept c, dropTrailingZeros frac = kept ++ [c] /\ (c =? DOT)%N = false.
Proof.
  intros Hd. unfold dropTrailingZeros.
  destruct (dropWhile (N.eqb ZERO) (rev frac)) as [| c kept] eqn:Hk; [left; reflexivity |].
  right. exists (rev kept), c. split; [reflexivity |].
  assert (Hin : forallb isDigit (c :: kept) = true).
  { rewrite <- Hk. apply forallb_dropWhile. rewrite forallb_rev. exact Hd. }
  cbn [forallb] in Hin. apply andb_true_iff in Hin as [Hc _].
  unfold isDigit, ZERO, NINE, DOT in *.
  apply andb_true_iff in Hc as [H1 _]. apply N.leb_le in H1. apply N.eqb_neq. lia.
Qed.

(** The two replacements of [fixed] on a fixed-point rendering. *)
Lemma strip_rendering (pre frac : str) :
  forallb isDigit frac = true ->
  replaceTrailingDot (replaceTrailingZeros (pre ++ DOT :: frac)) = pre ++ stripFraction frac.
Proof.
  intros Hd. rewrite replaceTrailingZeros_point, replaceTrailingZeros_drop.
  unfold stripFraction.
  destruct (dropTrailingZeros_last frac Hd) as [-> | (kept & c & -> & Hc)].
  - replace (pre ++ [DOT]) with (pre ++ [DOT]) by reflexivity.
    rewrite replaceTrailingDot_last. rewrite app_nil_r. reflexivity.
  - replace (pre ++ DOT :: kept ++ [c]) with ((pre ++ DOT :: kept) ++ [c])
      by (rewrite <- app_assoc; reflexivity).
    rewrite replaceTrailingDot_last, Hc.
    destruct (kept ++ [c]) eqn:Happ; [destruct kept; discriminate Happ |].
    rewrite <- Happ, <- app_assoc. reflexivity.
Qed.

(** C5 (amended): for at least one fraction digit, and every number for
    which [toFixed] gives a fixed-point rendering (any number but NaN of
    magnitude below 10^21), the rendering is a sign, an integer part, a
    decimal point and that many digits, and [fixed] returns it with the
    trailing zeros of the fraction dropped, and the decimal point too when
    no fraction digit is left; sign and integer part are as they were. *)
Theorem C5_fixed_strips_fraction (ToString : float -> str) (number : float) (digits : nat) :
  1 <= digits <= 100 ->
  PrimFloat.is_nan number = false ->
  (1e21 <=? (if number <? 0 then - number else number))%float = false ->
  (exists sign whole frac,
      toFixed ToString number digits = Some (sign ++ whole ++ DOT :: frac)
      /\ length frac = digits /\ forallb isDigit frac = true)
  /\ (forall sign whole frac,
        toFixed ToString number digits = Some (sign ++ whole ++ DOT :: frac) ->
        forallb isDigit frac = true ->
        fixed ToString number digits = Some (sign ++ whole ++ stripFraction frac)).
Proof.
  intros [Hd1 Hd2] Hnan Hbig. split.
  - unfold toFixed. rewrite Hnan, Hbig.
    destruct (Nat.ltb_spec 100 digits) as [Hlt | _]; [lia |].
    destruct (pointed_shape (decimal (nearestScaled
                (if (number <? 0)%float then (- number)%float else number) digits)) digits Hd1
                (uintDigits_digits _)) as (whole & frac & Hp & Hlen & Hfd).
    exists (if (number <? 0)%float then js "-" else []), whole, frac.
    rewrite Hp. repeat split; assumption.
  - intros sign whole frac Hto Hfd. unfold fixed. rewrite Hto.
    rewrite app_assoc, strip_rendering by exact Hfd. rewrite <- app_assoc. reflexivity.
Qed.

(** Two examples: 100 with two digits gives "100", and 2.5 with two digits,
    rendered "2.50", gives "2.5". *)
Lemma C5_fixed_examples :
  fixed (fun _ => []) 100 2 = Some (js "100")
  /\ fixed (fun _ => []) 2.5 2 = Some (js "2.5").
Proof.
  assert (Hd : 1 <= 2 <= 100) by lia.
  split.
  - destruct (C5_fixed_strips_fraction (fun _ => []) 100 2 Hd eq_refl eq_refl) as [_ H].
    exact (H [] (js "100") (js "00") eq_refl eq_refl).
  - destruct (C5_fixed_strips_fraction (fun _ => []) 2.5 2 Hd eq_refl eq_refl) as [_ H].
    exact (H [] (js "2") (js "50") eq_refl eq_refl).
Defined.

(** ** The label formatters *)

Local Open Scope N_scope.

(** *** The search, step by step *)

Lemma regexScan_fuel {A : Type} (hit : str -> option (list A * str)) (miss : N -> list A) :
  (forall s out after, hit s = Some (out, after) -> (length after < length s)%nat) ->
  forall (fuel1 fuel2 : nat) (s : str),
    (length s <= fuel1)%nat -> (length s <= fuel2)%nat ->
    regexScan fuel1 hit miss s = regexScan fuel2 hit miss s.
Proof.
  intros Hprog. induction fuel1 as [| fuel1 IH]; intros fuel2 s H1 H2.
  - destruct s; [| cbn in H1; lia]. destruct fuel2; reflexivity.
  - destruct fuel2 as [| fuel2]; [destruct s; [reflexivity | cbn in H2; lia] |].
    destruct s as [| c rest]; [reflexivity |].
    cbn [regexScan]. destruct (hit (c :: rest)) as [[out after] |] eqn:Hhit.
    + apply Hprog in Hhit. cbn in *. f_equal. apply IH; lia.
    + cbn in *. f_equal. apply IH; lia.
Qed.

Lemma scanAll_cons {A : Type} (hit : str -> option (list A * str)) (miss : N -> list A)
    (c : N) (rest : str) :
  (forall s out after, hit s = Some (out, after) -> (length after < length s)%nat) ->
  scanAll hit miss (c :: rest)
  = match hit (c :: rest) with
    | Some (out, after) => out ++ scanAll hit miss after
    | None => miss c ++ scanAll hit miss rest
    end.
Proof.
  intros Hprog. unfold scanAll. cbn [length regexScan].
  destruct (hit (c :: rest)) as [[out after] |] eqn:Hhit.
  - f_equal. apply regexScan_fuel; [exact Hprog | | lia].
    apply Hprog in Hhit. cbn in Hhit. lia.
  - reflexivity.
Qed.

Lemma digitRun_spec (t : str) :
  t = fst (digitRun t) ++ snd (digitRun t)
  /\ forallb isDigit (fst (digitRun t)) = true
  /\ match snd (digitRun t) with
     | [] => True
     | h :: _ => isDigit h = false
     end.
Proof.
  induction t as [| c t IH]; [cbn; auto |].
  cbn [digitRun]. destruct (isDigit c) eqn:Hc.
  - destruct (digitRun t) as [ds r]. cbn [fst snd] in *.
    destruct IH as (Ht & Hd & Hr). repeat split.
    + cbn. f_equal. exact Ht.
    + cbn. rewrite Hc, Hd. reflexivity.
    + exact Hr.
  - cbn. auto.
Qed.

Lemma digitRun_digits (ds rest : str) (h : N) :
  forallb isDigit ds = true -> isDigit h = false ->
  digitRun (ds ++ h :: rest) = (ds, h :: rest).
Proof.
  intros Hd Hh. induction ds as [| d ds IH]; cbn [app digitRun].
  - rewrite Hh. reflexivity.
  - cbn [forallb] in Hd. apply andb_true_iff in Hd as [Hd1 Hd2].
    rewrite Hd1, (IH Hd2). reflexivity.
Qed.

(** A match of the search is a pattern at the head of the text. *)
Lemma matchSubscript_Some (s m after : str) :
  matchSubscript s = Some (m, after) -> s = m ++ after /\ isPattern m.
Proof.
  unfold matchSubscript. destruct s as [| c rest]; [discriminate |].
  destruct (N.eqb_spec c UNDERSCORE) as [-> | _]; [| discriminate].
  destruct (digitRun_spec rest) as (Hrest & Hd & _).
  destruct (digitRun rest) as [[| d ds] [| u after']]; try discriminate.
  destruct (N.eqb_spec u UNDERSCORE) as [-> | _]; [| discriminate].
  intros H. injection H as <- <-. cbn [fst snd] in *. split.
  - rewrite Hrest. cbn. rewrite <- app_assoc. reflexivity.
  - exists d, ds. split; [reflexivity | exact Hd].
Qed.

Lemma matchSubscript_pattern (m rest : str) :
  isPattern m -> matchSubscript (m ++ rest) = Some (m, rest).
Proof.
  intros (d & ds & -> & Hd). cbn [app matchSubscript].
  rewrite N.eqb_refl.
  replace ((d :: ds) ++ [UNDERSCORE] ++ rest) with ((d :: ds) ++ UNDERSCORE :: rest)
    by reflexivity.
  rewrite <- app_assoc. cbn [app].
  change (d :: ds ++ UNDERSCORE :: rest) with ((d :: ds) ++ UNDERSCORE :: rest).
  rewrite (digitRun_digits (d :: ds) rest UNDERSCORE Hd eq_refl).
  rewrite N.eqb_refl. reflexivity.
Qed.

Lemma matchSubscript_not_underscore (c : N) (rest : str) :
  c <> UNDERSCORE -> matchSubscript (c :: rest) = None.
Proof.
  intros Hc. cbn [matchSubscript]. destruct (N.eqb_spec c UNDERSCORE); [contradiction |].
  reflexivity.
Qed.

Lemma matchSubscript_shorter (s m after : str) :
  matchSubscript s = Some (m, after) -> (length after < length s)%nat.
Proof.
  intros H. apply matchSubscript_Some in H as [-> (d & ds & -> & _)].
  rewrite length_app. cbn. lia.
Qed.

Lemma scanSubscripts_nil {A : Type} (found : str -> str -> list A) (miss : N -> list A) :
  scanSubscripts found miss [] = [].
Proof. reflexivity. Qed.

Lemma scanSubscripts_cons {A : Type} (found : str -> str -> list A) (miss : N -> list A)
    (c : N) (rest : str) :
  scanSubscripts found miss (c :: rest)
  = match matchSubscript (c :: rest) with
    | Some (m, after) => found m after ++ scanSubscripts found miss after
    | None => miss c ++ scanSubscripts found miss rest
    end.
Proof.
  unfold scanSubscripts. rewrite scanAll_cons.
  - destruct (matchSubscript (c :: rest)) as [[m after] |]; reflexivity.
  - intros s out after H.
    destruct (matchSubscript s) as [[m after'] |] eqn:Hm; [| discriminate].
    injection H as _ <-. eapply matchSubscript_shorter. exact Hm.
Qed.

(** Induction along the search. *)
Lemma search_ind (Q : str -> Prop) :
  Q [] ->
  (forall c rest, matchSubscript (c :: rest) = None -> Q rest -> Q (c :: rest)) ->
  (forall c rest m after, matchSubscript (c :: rest) = Some (m, after) -> Q after ->
                          Q (c :: rest)) ->
  forall s, Q s.
Proof.
  intros Hnil Hmiss Hhit s.
  assert (H : forall n s, (length s <= n)%nat -> Q s).
  { clear s. induction n as [| n IH]; intros s Hlen.
    - destruct s; [exact Hnil | cbn in Hlen; lia].
    - destruct s as [| c rest]; [exact Hnil |].
      destruct (matchSubscript (c :: rest)) as [[m after] |] eqn:Hm.
      + eapply Hhit; [exact Hm |]. apply IH.
        apply matchSubscript_shorter in Hm. cbn in *. lia.
      + apply Hmiss; [exact Hm |]. apply IH. cbn in Hlen. lia. }
  apply (H (length s)). lia.
Qed.

(** *** Replacing a literal pattern *)

Lemma isPrefix_app (p rest : str) : isPrefix p (p ++ rest) = true.
Proof. induction p as [| a p IH]; [reflexivity |]. cbn. rewrite N.eqb_refl. exact IH. Qed.

Lemma isPrefix_spec (p s : str) : isPrefix p s = true -> s = p ++ drop (length p) s.
Proof.
  revert s. induction p as [| a p IH]; intros s H; [reflexivity |].
  destruct s as [| b s]; [discriminate H |].
  cbn in H. apply andb_true_iff in H as [Hab Hp]. apply N.eqb_eq in Hab. subst b.
  cbn. f_equal. apply IH. exact Hp.
Qed.

Lemma isPattern_cons (p : str) : isPattern p -> exists tl, p = UNDERSCORE :: tl.
Proof. intros (d & ds & -> & _). eexists. reflexivity. Qed.

Lemma replaceAll_cons (p r : str) (c : N) (rest : str) :
  isPattern p ->
  replaceAll p r (c :: rest)
  = if isPrefix p (c :: rest)
    then r ++ replaceAll p r (drop (length p) (c :: rest))
    else c :: replaceAll p r rest.
Proof.
  intros Hp. unfold replaceAll. rewrite scanAll_cons.
  - unfold matchLiteral. destruct (isPrefix p (c :: rest)); reflexivity.
  - intros s out after H. unfold matchLiteral in H.
    destruct (isPrefix p s) eqn:Hpre; [| discriminate H]. injection H as _ <-.
    apply isPrefix_spec in Hpre. destruct (isPattern_cons p Hp) as [tl ->].
    rewrite Hpre at 2. rewrite length_app. cbn. lia.
Qed.

Lemma replaceAll_hit (p r rest : str) :
  isPattern p -> replaceAll p r (p ++ rest) = r ++ replaceAll p r rest.
Proof.
  intros Hp. destruct (isPattern_cons p Hp) as [tl Htl].
  rewrite Htl at 2. cbn [app]. rewrite replaceAll_cons by exact Hp.
  change (UNDERSCORE :: tl ++ rest) with ((UNDERSCORE :: tl) ++ rest). rewrite <- Htl.
  rewrite isPrefix_app, drop_app_length. reflexivity.
Qed.

Lemma replaceAll_miss (p r : str) (c : N) (rest : str) :
  isPattern p ->
  (forall after, matchSubscript (c :: rest) <> Some (p, after)) ->
  replaceAll p r (c :: rest) = c :: replaceAll p r rest.
Proof.
  intros Hp Hno. rewrite replaceAll_cons by exact Hp.
  destruct (isPrefix p (c :: rest)) eqn:Hpre; [| reflexivity].
  exfalso. apply isPrefix_spec in Hpre.
  apply (Hno (drop (length p) (c :: rest))).
  rewrite Hpre at 1. apply matchSubscript_pattern. exact Hp.
Qed.

Lemma replaceAll_copy (p r pre rest : str) :
  isPattern p ->
  forallb (fun c => negb (c =? UNDERSCORE)) pre = true ->
  replaceAll p r (pre ++ rest) = pre ++ replaceAll p r rest.
Proof.
  intros Hp. induction pre as [| c pre IH]; intros Hpre; [reflexivity |].
  cbn [forallb] in Hpre. apply andb_true_iff in Hpre as [Hc Hpre].
  cbn [app]. rewrite replaceAll_miss; [rewrite (IH Hpre); reflexivity | exact Hp |].
  intros after. rewrite matchSubscript_not_underscore; [discriminate |].
  apply negb_true_iff in Hc. apply N.eqb_neq. exact Hc.
Qed.

Lemma digit_not_underscore (ds : str) :
  forallb isDigit ds = true -> forallb (fun c => negb (c =? UNDERSCORE)) ds = true.
Proof.
  induction ds as [| d ds IH]; intros H; [reflexivity |].
  cbn [forallb] in *. apply andb_true_iff in H as [Hd Hds]. rewrite (IH Hds), andb_true_r.
  apply negb_true_iff. apply N.eqb_neq. intros ->. discriminate Hd.
Qed.

(** *** The text between two replacements *)

Lemma partlyReplaced_miss (render : str -> str) (done : list str) (c : N) (rest : str) :
  matchSubscript (c :: rest) = None ->
  partlyReplaced render done (c :: rest) = c :: partlyReplaced render done rest.
Proof.
  intros H. unfold partlyReplaced. rewrite scanSubscripts_cons, H. reflexivity.
Qed.

Lemma partlyReplaced_hit (render : str -> str) (done : list str) (c : N)
    (rest m after : str) :
  matchSubscript (c :: rest) = Some (m, after) ->
  partlyReplaced render done (c :: rest)
  = (if in_dec (List.list_eq_dec N.eq_dec) m done then render m else m)
    ++ partlyReplaced render done after.
Proof.
  intros H. unfold partlyReplaced. rewrite scanSubscripts_cons, H. reflexivity.
Qed.

Lemma digitRun_no_digit (s : str) :
  match s with
  | [] => True
  | h :: _ => isDigit h = false
  end ->
  digitRun s = ([], s).
Proof. destruct s as [| h s]; [reflexivity |]. intros H. cbn. rewrite H. reflexivity. Qed.

(** After a unit that is not a digit, the text does not start with a digit
    either, replaced or not. *)
Lemma partlyReplaced_head (render : str -> str) (done : list str) (c : N) (rest : str) :
  goodRender render -> isDigit c = false ->
  match partlyReplaced render done (c :: rest) with
  | [] => True
  | h :: _ => isDigit h = false
  end.
Proof.
  intros [_ Hhead] Hc.
  destruct (matchSubscript (c :: rest)) as [[m after] |] eqn:Hm.
  - rewrite (partlyReplaced_hit _ _ _ _ _ _ Hm).
    apply matchSubscript_Some in Hm as [_ Hpat].
    destruct (in_dec (List.list_eq_dec N.eq_dec) m done).
    + specialize (Hhead m Hpat). destruct (render m); [destruct Hhead | exact Hhead].
    + destruct Hpat as (d & ds & -> & _). reflexivity.
  - rewrite (partlyReplaced_miss _ _ _ _ Hm). exact Hc.
Qed.

(** The digits at the head of the text are not touched. *)
Lemma digitRun_partlyReplaced (render : str -> str) (done : list str) (t : str) :
  goodRender render ->
  digitRun (partlyReplaced render done t)
  = (fst (digitRun t), partlyReplaced render done (snd (digitRun t))).
Proof.
  intros Hgood. induction t as [| c t IH]; [reflexivity |].
  cbn [digitRun]. destruct (isDigit c) eqn:Hc.
  - rewrite partlyReplaced_miss.
    + cbn [digitRun]. rewrite Hc, IH. destruct (digitRun t); reflexivity.
    + apply matchSubscript_not_underscore. intros ->. discriminate Hc.
  - cbn [fst snd]. apply digitRun_no_digit. apply partlyReplaced_head; assumption.
Qed.

(** An underscore that opens no run in the text opens none after the
    replacements. *)
Lemma no_run_after_replacements (render : str -> str) (done : list str) (t : str) :
  goodRender render ->
  matchSubscript (UNDERSCORE :: t) = None ->
  matchSubscript (UNDERSCORE :: partlyReplaced render done t) = None.
Proof.
  intros Hgood. cbn [matchSubscript]. rewrite N.eqb_refl.
  rewrite digitRun_partlyReplaced by exact Hgood.
  destruct (digitRun_spec t) as (_ & _ & Hr).
  destruct (digitRun t) as [[| d ds] [| u after]]; cbn [fst snd] in *; try reflexivity.
  destruct (N.eqb_spec u UNDERSCORE) as [-> | Hu]; [discriminate |]. intros _.
  rewrite partlyReplaced_miss by (apply matchSubscript_not_underscore; exact Hu).
  destruct (N.eqb_spec u UNDERSCORE); [contradiction | reflexivity].
Qed.

Lemma independentRuns_miss (c : N) (rest : str) :
  matchSubscript (c :: rest) = None -> independentRuns (c :: rest) = independentRuns rest.
Proof.
  intros H. unfold independentRuns. rewrite scanSubscripts_cons, H. reflexivity.
Qed.

Lemma independentRuns_hit (c : N) (rest m after : str) :
  matchSubscript (c :: rest) = Some (m, after) ->
  independentRuns (c :: rest) = true ->
  matchSubscript (UNDERSCORE :: after) = None /\ independentRuns after = true.
Proof.
  intros H. unfold independentRuns. rewrite scanSubscripts_cons, H.
  cbn [app forallb]. intros Hb. apply andb_true_iff in Hb as [H1 H2].
  split; [| exact H2]. destruct (matchSubscript (UNDERSCORE :: after)); [discriminate | reflexivity].
Qed.

(** One replacement of the loop: replacing the pattern [p] everywhere in a
    text whose runs are independent replaces the runs equal to [p] and
    nothing else. *)
Lemma replace_step (render : str -> str) (done : list str) (p : str) :
  goodRender render -> isPattern p ->
  forall text, independentRuns text = true ->
    replaceAll p (render p) (partlyReplaced render done text)
    = partlyReplaced render (p :: done) text.
Proof.
  intros Hgood Hp. apply (search_ind (fun text => independentRuns text = true -> _)).
  - intros _. reflexivity.
  - intros c rest Hm IH Hind.
    rewrite (independentRuns_miss _ _ Hm) in Hind.
    rewrite !(partlyReplaced_miss _ _ _ _ Hm).
    rewrite replaceAll_miss; [rewrite (IH Hind); reflexivity | exact Hp |].
    intros after.
    destruct (N.eqb_spec c UNDERSCORE) as [-> | Hc].
    + rewrite no_run_after_replacements; [discriminate | exact Hgood | exact Hm].
    + rewrite matchSubscript_not_underscore by exact Hc. discriminate.
  - intros c rest m after Hm IH Hind.
    destruct (independentRuns_hit _ _ _ _ Hm Hind) as [Hnext Hind'].
    rewrite !(partlyReplaced_hit _ _ _ _ _ _ Hm).
    destruct (matchSubscript_Some _ _ _ Hm) as [_ Hpat].
    destruct (in_dec (List.list_eq_dec N.eq_dec) m done) as [Hin | Hnin].
    + destruct (in_dec (List.list_eq_dec N.eq_dec) m (p :: done)) as [_ | Hn];
        [| exfalso; apply Hn; right; exact Hin].
      destruct Hgood as [Hcopy _]. rewrite Hcopy by assumption.
      rewrite (IH Hind'). reflexivity.
    + destruct (List.list_eq_dec N.eq_dec p m) as [<- | Hne].
      * destruct (in_dec (List.list_eq_dec N.eq_dec) p (p :: done)) as [_ | Hn];
          [| exfalso; apply Hn; left; reflexivity].
        rewrite replaceAll_hit by exact Hp. rewrite (IH Hind'). reflexivity.
      * destruct (in_dec (List.list_eq_dec N.eq_dec) m (p :: done)) as [[Heq | Hin] | _];
          [contradiction | contradiction |].
        destruct Hpat as (d & ds & Hmeq & Hds).
        assert (Hhead : forall rest', matchSubscript (m ++ rest') = Some (m, rest'))
          by (intros rest'; apply matchSubscript_pattern; exists d, ds; split; assumption).
        rewrite Hmeq in *. cbn [app].
        rewrite replaceAll_miss;
          [| exact Hp | intros a Ha; specialize (Hhead (partlyReplaced render done after));
                        cbn [app] in Hhead; rewrite Hhead in Ha; injection Ha as Ha _;
                        apply Hne; symmetry; exact Ha].
        rewrite <- app_assoc. cbn [app].
        change (d :: ds ++ UNDERSCORE :: partlyReplaced render done after)
          with ((d :: ds) ++ UNDERSCORE :: partlyReplaced render done after).
        rewrite replaceAll_copy by (exact Hp || apply digit_not_underscore; exact Hds).
        rewrite replaceAll_miss;
          [| exact Hp
           | intros a; rewrite no_run_after_replacements by assumption; discriminate].
        rewrite (IH Hind'). cbn [app]. rewrite <- app_assoc. reflexivity.
Qed.

(** Before the loop nothing is replaced. *)
Lemma partlyReplaced_none (render : str -> str) (text : str) :
  partlyReplaced render [] text = text.
Proof.
  revert text. apply search_ind.
  - reflexivity.
  - intros c rest Hm IH. rewrite (partlyReplaced_miss _ _ _ _ Hm), IH. reflexivity.
  - intros c rest m after Hm IH. rewrite (partlyReplaced_hit _ _ _ _ _ _ Hm), IH.
    destruct (in_dec (List.list_eq_dec N.eq_dec) m []) as [[] | _].
    apply matchSubscript_Some in Hm as [-> _]. reflexivity.
Qed.

(** After the loop every run is replaced: the text is the one a single pass
    gives. *)
Lemma partlyReplaced_all (render : str -> str) (done : list str) (text : str) :
  (forall m, In m (scanSubscripts (fun m _ => [m]) (fun _ => []) text) -> In m done) ->
  partlyReplaced render done text
  = scanSubscripts (fun m _ => render m) (fun c => [c]) text.
Proof.
  revert text. apply (search_ind (fun text => _ -> _)).
  - intros _. reflexivity.
  - intros c rest Hm IH Hall.
    rewrite (partlyReplaced_miss _ _ _ _ Hm). rewrite !scanSubscripts_cons, Hm in *.
    rewrite IH by exact Hall. reflexivity.
  - intros c rest m after Hm IH Hall.
    rewrite (partlyReplaced_hit _ _ _ _ _ _ Hm). rewrite !scanSubscripts_cons, Hm in *.
    rewrite IH by (intros m' Hm'; apply Hall; right; exact Hm').
    destruct (in_dec (List.list_eq_dec N.eq_dec) m done) as [_ | Hn]; [reflexivity |].
    exfalso. apply Hn. apply Hall. left. reflexivity.
Qed.

Lemma matches_patterns (text : str) :
  forall m, In m (scanSubscripts (fun m _ => [m]) (fun _ => []) text) -> isPattern m.
Proof.
  revert text. apply (search_ind (fun text => forall m, _ -> _)).
  - intros m [].
  - intros c rest Hm IH m. rewrite scanSubscripts_cons, Hm. exact (IH m).
  - intros c rest m after Hm IH m'. rewrite scanSubscripts_cons, Hm.
    intros [<- | Hin]; [| exact (IH m' Hin)].
    apply matchSubscript_Some in Hm as [_ Hp]. exact Hp.
Qed.

Lemma scanSubscripts_ext {A : Type} (f g : str -> str -> list A) (miss : N -> list A)
    (text : str) :
  (forall m after, isPattern m -> f m after = g m after) ->
  scanSubscripts f miss text = scanSubscripts g miss text.
Proof.
  intros Hfg. revert text. apply search_ind.
  - reflexivity.
  - intros c rest Hm IH. rewrite !scanSubscripts_cons, Hm, IH. reflexivity.
  - intros c rest m after Hm IH. rewrite !scanSubscripts_cons, Hm, IH.
    rewrite Hfg; [reflexivity |]. apply matchSubscript_Some in Hm as [_ Hp]. exact Hp.
Qed.

(** The whole loop. *)
Lemma replace_loop (render : str -> str) (text : str) :
  goodRender render -> independentRuns text = true ->
  forall (subs done : list str),
    (forall p, In p subs -> isPattern p) ->
    fold_left (fun t sub => replaceAll sub (render sub) t) subs
              (partlyReplaced render done text)
    = partlyReplaced render (rev subs ++ done) text.
Proof.
  intros Hgood Hind. induction subs as [| p subs IH]; intros done Hpat; [reflexivity |].
  cbn [fold_left rev].
  rewrite replace_step; [| exact Hgood | apply Hpat; left; reflexivity | exact Hind].
  rewrite IH by (intros q Hq; apply Hpat; right; exact Hq).
  rewrite <- app_assoc. reflexivity.
Qed.

Lemma formatter_single_pass (render : str -> str) (text : str) :
  goodRender render -> independentRuns text = true ->
  match matchSubscripts text with
  | Some subscripts =>
      fold_left (fun t sub => replaceAll sub (render sub) t) subscripts text
  | None => text
  end
  = scanSubscripts (fun m _ => render m) (fun c => [c]) text.
Proof.
  intros Hgood Hind.
  assert (Hfold : fold_left (fun t sub => replaceAll sub (render sub) t)
                    (scanSubscripts (fun m _ => [m]) (fun _ => []) text) text
                  = scanSubscripts (fun m _ => render m) (fun c => [c]) text).
  { rewrite <- (partlyReplaced_none render text) at 2.
    rewrite (replace_loop render text Hgood Hind _ [] (matches_patterns text)).
    apply partlyReplaced_all. intros m Hm. rewrite app_nil_r. apply in_rev in Hm. exact Hm. }
  unfold matchSubscripts.
  destruct (scanSubscripts (fun m _ => [m]) (fun _ => []) text) as [| m ms] eqn:Hms;
    exact Hfold.
Qed.

(** *** The two replacement texts *)

Lemma replaceUnit_app (c : N) (by_ x y : str) :
  replaceUnit c by_ (x ++ y) = replaceUnit c by_ x ++ replaceUnit c by_ y.
Proof. unfold replaceUnit. apply flat_map_app. Qed.

Lemma replaceUnit_digits (ds : str) :
  forallb isDigit ds = true -> replaceUnit UNDERSCORE [] ds = ds.
Proof.
  induction ds as [| d ds IH]; intros H; [reflexivity |].
  cbn [forallb] in H. apply andb_true_iff in H as [Hd Hds].
  change (d :: ds) with ([d] ++ ds). rewrite replaceUnit_app, (IH Hds).
  cbn. destruct (N.eqb_spec d UNDERSCORE) as [-> | _]; [discriminate Hd | reflexivity].
Qed.

Lemma filter_digits (ds : str) :
  forallb isDigit ds = true -> List.filter isDigit ds = ds.
Proof.
  induction ds as [| d ds IH]; intros H; [reflexivity |].
  cbn [forallb] in H. apply andb_true_iff in H as [Hd Hds].
  cbn [List.filter]. rewrite Hd, (IH Hds). reflexivity.
Qed.

(** Without its underscores a pattern is its digits. *)
Lemma pattern_digits (d : N) (ds : str) :
  forallb isDigit (d :: ds) = true ->
  replaceUnit UNDERSCORE [] (UNDERSCORE :: (d :: ds) ++ [UNDERSCORE]) = d :: ds
  /\ List.filter isDigit (UNDERSCORE :: (d :: ds) ++ [UNDERSCORE]) = d :: ds.
Proof.
  intros Hd. split.
  - change (UNDERSCORE :: (d :: ds) ++ [UNDERSCORE])
      with ([UNDERSCORE] ++ (d :: ds) ++ [UNDERSCORE]).
    rewrite !replaceUnit_app, (replaceUnit_digits _ Hd). cbn. rewrite app_nil_r. reflexivity.
  - change (UNDERSCORE :: (d :: ds) ++ [UNDERSCORE])
      with ([UNDERSCORE] ++ (d :: ds) ++ [UNDERSCORE]).
    rewrite !List.filter_app.
    change (List.filter isDigit [UNDERSCORE]) with (@nil N).
    rewrite app_nil_r. cbn [app]. apply filter_digits. exact Hd.
Qed.

Lemma subscriptDigits_app (x y : str) :
  subscriptDigits (x ++ y) = subscriptDigits x ++ subscriptDigits y.
Proof.
  unfold subscriptDigits. cbn [seq fold_left]. rewrite !replaceUnit_app. reflexivity.
Qed.

Lemma subscriptDigits_digit (d : N) :
  isDigit d = true -> subscriptDigits [d] = [8320 + (d - ZERO)].
Proof.
  intros Hd. unfold isDigit, ZERO, NINE in *.
  apply andb_true_iff in Hd as [H1 H2]. apply N.leb_le in H1. apply N.leb_le in H2.
  assert (Hcases : d = 48 \/ d = 49 \/ d = 50 \/ d = 51 \/ d = 52
                   \/ d = 53 \/ d = 54 \/ d = 55 \/ d = 56 \/ d = 57) by lia.
  repeat (destruct Hcases as [-> | Hcases]; [reflexivity |]). subst d. reflexivity.
Qed.

Lemma subscriptDigits_digits (ds : str) :
  forallb isDigit ds = true ->
  subscriptDigits ds = List.map (fun d => 8320 + (d - ZERO)) ds.
Proof.
  induction ds as [| d ds IH]; intros H; [reflexivity |].
  cbn [forallb] in H. apply andb_true_iff in H as [Hd Hds].
  change (d :: ds) with ([d] ++ ds).
  rewrite subscriptDigits_app, (subscriptDigits_digit d Hd), (IH Hds). reflexivity.
Qed.

(** On a pattern the replacement texts of the program are the renderings
    the specification names. *)
Lemma screenRender_pattern (m : str) :
  isPattern m -> screenRender m = renderSubscript OnScreen (List.filter isDigit m).
Proof.
  intros (d & ds & -> & Hd). unfold screenRender.
  destruct (pattern_digits d ds Hd) as [-> ->].
  apply subscriptDigits_digits. exact Hd.
Qed.

Lemma markupRender_pattern (m : str) :
  isPattern m -> markupRender m = renderSubscript Markup (List.filter isDigit m).
Proof.
  intros (d & ds & -> & Hd). unfold markupRender.
  destruct (pattern_digits d ds Hd) as [-> ->]. reflexivity.
Qed.

Lemma screenRender_good : goodRender screenRender.
Proof.
  split.
  - intros m p r rest Hm Hp. rewrite (screenRender_pattern m Hm).
    destruct Hm as (d & ds & -> & Hd). destruct (pattern_digits d ds Hd) as [_ ->].
    apply replaceAll_copy; [exact Hp |].
    cbn [renderSubscript]. generalize (d :: ds). intros l.
    induction l as [| a l IH]; [reflexivity |].
    cbn [List.map forallb]. rewrite IH, andb_true_r.
    apply negb_true_iff. apply N.eqb_neq. unfold UNDERSCORE. lia.
  - intros m Hm. rewrite (screenRender_pattern m Hm).
    destruct Hm as (d & ds & -> & Hd). destruct (pattern_digits d ds Hd) as [_ ->].
    cbn [renderSubscript List.map]. unfold isDigit, NINE.
    apply andb_false_iff. right. apply N.leb_gt. lia.
Qed.

Lemma markupRender_good : goodRender markupRender.
Proof.
  split.
  - intros m p r rest Hm Hp. rewrite (markupRender_pattern m Hm).
    destruct Hm as (d & ds & -> & Hd). destruct (pattern_digits d ds Hd) as [_ ->].
    cbn [renderSubscript].
    change ((js "_{" ++ (d :: ds) ++ js "}") ++ rest)
      with (UNDERSCORE :: (123 :: (d :: ds) ++ [125]) ++ rest).
    rewrite replaceAll_miss; [| exact Hp | intros after; discriminate].
    rewrite replaceAll_copy; [reflexivity | exact Hp |].
    cbn [forallb]. rewrite forallb_app. cbn [forallb].
    apply digit_not_underscore in Hd. cbn [forallb] in Hd. rewrite Hd. reflexivity.
  - intros m Hm. rewrite (markupRender_pattern m Hm). reflexivity.
Qed.

(** C6 (as stated): for every string the formatters replace the
    non-overlapping occurrences and leave the rest.  In "_2_ _1_2_" the
    occurrences the search finds are "_2_" and "_1_"; the final "2_" is not
    one, but the replacement of "_2_" everywhere takes it together with the
    closing underscore of "_1_". *)
Lemma C6_shared_underscore :
  makeSubscripts (js "_2_ _1_2_") <> applySubscripts OnScreen (js "_2_ _1_2_")
  /\ makeLaTeXSubscripts (js "_2_ _1_2_") <> applySubscripts Markup (js "_2_ _1_2_").
Proof. split; vm_compute; discriminate. Qed.

(** C6 (amended): for every string whose subscript runs are independent (no
    underscore is shared by two occurrences of underscore, digits,
    underscore), [makeSubscripts] replaces each occurrence by the subscript
    digits (U+2080 + digit) and [makeLaTeXSubscripts] by _{digits}, any
    number of them, and both leave the rest of the text as it is. *)
Theorem C6_formatters_single_pass (text : str) :
  independentRuns text = true ->
  makeSubscripts text = applySubscripts OnScreen text
  /\ makeLaTeXSubscripts text = applySubscripts Markup text.
Proof.
  intros Hind. split.
  - change (makeSubscripts text)
      with (match matchSubscripts text with
            | Some subscripts =>
                fold_left (fun t sub => replaceAll sub (screenRender sub) t) subscripts text
            | None => text
            end).
    rewrite (formatter_single_pass screenRender text screenRender_good Hind).
    apply scanSubscripts_ext. intros m _ Hm. apply screenRender_pattern. exact Hm.
  - change (makeLaTeXSubscripts text)
      with (match matchSubscripts text with
            | Some subscripts =>
                fold_left (fun t sub => replaceAll sub (markupRender sub) t) subscripts text
            | None => text
            end).
    rewrite (formatter_single_pass markupRender text markupRender_good Hind).
    apply scanSubscripts_ext. intros m _ Hm. apply markupRender_pattern. exact Hm.
Qed.

(** The example of the specification, and one with several runs. *)
Lemma C6_formatter_examples :
  (makeSubscripts (js "x_12_y") = [120; 8321; 8322; 121]
   /\ makeLaTeXSubscripts (js "x_12_y") = js "x_{12}y")
  /\ (makeSubscripts (js "a_1_b_22_c_1_") = [97; 8321; 98; 8322; 8322; 99; 8321]
      /\ makeLaTeXSubscripts (js "a_1_b_22_c_1_") = js "a_{1}b_{22}c_{1}").
Proof.
  split.
  - destruct (C6_formatters_single_pass (js "x_12_y") eq_refl) as [-> ->].
    split; reflexivity.
  - destruct (C6_formatters_single_pass (js "a_1_b_22_c_1_") eq_refl) as [-> ->].
    split; reflexivity.
Defined.

(** ** The last key pressed during a gesture *)

Local Open Scope nat_scope.

Lemma draw_input (measureText : str -> float) (c : Surface) (s : State) :
  mouseDown (fst (drawWith measureText c s)) = mouseDown s
  /\ lastKey (fst (drawWith measureText c s)) = lastKey s
  /\ currentEdge (fst (drawWith measureText c s)) = currentEdge s
  /\ edgeHeap (fst (drawWith measureText c s)) = edgeHeap s.
Proof. rewrite drawWith_store. repeat split. Qed.

Lemma setText_input (s : State) (o : Obj) (t : str) :
  mouseDown (setText o t s) = mouseDown s /\ lastKey (setText o t s) = lastKey s.
Proof. destruct o; split; reflexivity. Qed.

(** With the mouse down, no handler but the release writes [lastKey], and
    the mouse stays down. *)
Lemma handle_while_mouse_down (measureText : str -> float) (ev : Event) (s : State) :
  mouseDown s = true -> isMouseUp ev = false ->
  mouseDown (fst (handle measureText ev s)) = true
  /\ lastKey (fst (handle measureText ev s)) = lastKey s.
Proof.
  intros Hdown Hev. destruct ev as [m | m | m | m | k | k | k | |];
    cbn [handle isMouseUp] in *; try discriminate Hev.
  - unfold onmousedown. cbn [fst selectedObject set_selectedObject].
    destruct (selectObject _ _ _) as [[v | e] |]; try (split; reflexivity).
    destruct (shift _ && isNull _); [split; reflexivity |].
    destruct (ctrl _ && isNull _); split; reflexivity.
  - unfold onmousemove.
    match goal with
    | |- context [if movingObject ?s1 then _ else _] => set (s1' := s1)
    end.
    assert (H1 : mouseDown s1' = true /\ lastKey s1' = lastKey s).
    { subst s1'. destruct (negb _); [| split; [exact Hdown | reflexivity]].
      destruct (selectedObject s) as [[v | e] |]; try (split; [exact Hdown | reflexivity]).
      destruct (selectObject _ _ _) as [[d | e] |];
        destruct (lastKeyIs SHIFT s); try (split; [exact Hdown | reflexivity]);
        destruct (lastKeyIs CTRL s); split; solve [exact Hdown | reflexivity]. }
    clearbody s1'. destruct H1 as [Hd1 Hk1].
    destruct (movingObject s1').
    + destruct (selectedObject s1') as [[v | e] |]; try (split; assumption).
      unfold draw. destruct (draw_input measureText Canvas2D
        (snap v (set_vertexHeap
           (<[v := Vertex.setAnchorPoint (vertexHeap s1' !!! v) (Point.x m) (Point.y m)]>
              (vertexHeap s1')) s1'))) as (-> & -> & _).
      split; assumption.
    + unfold draw. destruct (draw_input measureText Canvas2D s1') as (-> & -> & _).
      split; assumption.
  - unfold ondblclick. cbn [selectedObject set_selectedObject].
    destruct (selectObject _ _ _); [split; [exact Hdown | reflexivity] |].
    unfold draw.
    match goal with
    | |- context [drawWith measureText Canvas2D ?t] =>
        destruct (draw_input measureText Canvas2D t) as (-> & -> & _)
    end.
    split; [exact Hdown | reflexivity].
  - unfold onkeydown. rewrite Hdown.
    destruct (k =? SHIFT)%Z; [split; [exact Hdown | reflexivity] |].
    destruct (k =? CTRL)%Z; [split; [exact Hdown | reflexivity] |].
    destruct (selectedObject s) as [selected |]; [| split; [exact Hdown | reflexivity]].
    destruct (k =? BACKSPACE)%Z.
    + unfold draw.
      match goal with
      | |- context [drawWith measureText Canvas2D ?t] =>
          destruct (draw_input measureText Canvas2D t) as (-> & -> & _)
      end.
      destruct (setText_input s selected
                  (substr (textOf s selected) 0 (Z.of_nat (length (textOf s selected)) - 1)))
        as [-> ->].
      split; [exact Hdown | reflexivity].
    + destruct (k =? DELETE)%Z; [| split; [exact Hdown | reflexivity]].
      unfold draw.
      match goal with
      | |- context [drawWith measureText Canvas2D ?t] =>
          destruct (draw_input measureText Canvas2D t) as (-> & -> & _)
      end.
      split; [exact Hdown | reflexivity].
  - unfold onkeyup. destruct (k =? SHIFT)%Z; [split; [exact Hdown | reflexivity] |].
    destruct (k =? CTRL)%Z; split; solve [exact Hdown | reflexivity].
  - unfold onkeypress.
    destruct (selectedObject s) as [selected |]; [| split; [exact Hdown | reflexivity]].
    destruct (_ && _); [| split; [exact Hdown | reflexivity]].
    unfold draw.
    match goal with
    | |- context [drawWith measureText Canvas2D ?t] =>
        destruct (draw_input measureText Canvas2D t) as (-> & -> & _)
    end.
    destruct (setText_input s selected (textOf s selected ++ fromCharCode k)) as [-> ->].
    split; [exact Hdown | reflexivity].
  - unfold saveAsPNG.
    pose proof (draw_input measureText Canvas2D (set_selectedObject None s)) as (Hd & Hk & _).
    destruct (drawWith measureText Canvas2D (set_selectedObject None s)) as [s' [| err]];
      cbn [andThen fst mouseDown lastKey set_selectedObject] in *; rewrite ?Hd, ?Hk;
      split; solve [exact Hdown | reflexivity].
  - unfold saveAsLaTeX.
    pose proof (draw_input measureText LaTeXDrawer (set_selectedObject None s)) as (Hd & Hk & _).
    destruct (drawWith measureText LaTeXDrawer (set_selectedObject None s)) as [s' [| err]];
      cbn [andThen fst mouseDown lastKey set_selectedObject] in *; rewrite ?Hd, ?Hk;
      split; solve [exact Hdown | reflexivity].
Qed.

(** A mouse move leaves the edge under construction as it is or rebuilds it
    with the kind the last key stands for. *)
Lemma onmousemove_kind (measureText : str -> float) (mouse : Point.t) (s : State) :
  let s' := fst (onmousemove measureText mouse s) in
  currentEdge s' = currentEdge s
  \/ (kindOfCurrentEdge s' = kindOfLastKey s /\ kindOfLastKey s <> None).
Proof.
  cbv zeta. unfold onmousemove.
  match goal with
  | |- context [if movingObject ?s1 then _ else _] => set (s1' := s1)
  end.
  assert (H1 : currentEdge s1' = currentEdge s
               \/ (kindOfCurrentEdge s1' = kindOfLastKey s /\ kindOfLastKey s <> None)).
  { subst s1'. unfold kindOfLastKey. destruct (negb _); [| left; reflexivity].
    destruct (selectedObject s) as [[v | e] |]; try (left; reflexivity).
    destruct (selectObject _ _ _) as [[d | e] |];
      destruct (lastKeyIs SHIFT s);
      try (right; split; [reflexivity | discriminate]);
      try (right; split; [| discriminate]; unfold kindOfCurrentEdge, connect; cbn;
           rewrite list_lookup_total_middle by reflexivity; reflexivity);
      destruct (lastKeyIs CTRL s);
      try (left; reflexivity);
      try (right; split; [reflexivity | discriminate]);
      try (right; split; [| discriminate]; unfold kindOfCurrentEdge, connect; cbn;
           rewrite list_lookup_total_middle by reflexivity; reflexivity). }
  clearbody s1'.
  assert (Hframe : forall t, currentEdge t = currentEdge s1' -> edgeHeap t = edgeHeap s1' ->
            currentEdge t = currentEdge s
            \/ (kindOfCurrentEdge t = kindOfLastKey s /\ kindOfLastKey s <> None)).
  { intros t Hc Hh. destruct H1 as [H1 | [H1 H2]]; [left; congruence |].
    right. split; [| exact H2]. unfold kindOfCurrentEdge in *. rewrite Hc, Hh. exact H1. }
  destruct (movingObject s1').
  - destruct (selectedObject s1') as [[v | e] |]; try (apply Hframe; reflexivity).
    unfold draw.
    match goal with
    | |- context [drawWith measureText Canvas2D ?t] =>
        destruct (draw_input measureText Canvas2D t) as (_ & _ & Hc & Hh)
    end.
    apply Hframe; [rewrite Hc | rewrite Hh]; reflexivity.
  - unfold draw. destruct (draw_input measureText Canvas2D s1') as (_ & _ & Hc & Hh).
    apply Hframe; assumption.
Qed.

(** Between the press and the release of the mouse, whatever key and mouse
    events occur, [lastKey] stays what it was at the press, and every
    rebuild of the edge under construction by a mouse move has the kind that
    key stands for: undirected for Shift, directed for Control. *)
Theorem rebuilds_follow_lastKey (measureText : str -> float) (s : State)
    (evs : list Event) (mouse : Point.t) :
  mouseDown s = true ->
  forallb (fun ev => negb (isMouseUp ev)) evs = true ->
  let s1 := run measureText evs s in
  let s2 := fst (onmousemove measureText mouse s1) in
  mouseDown s1 = true
  /\ lastKey s1 = lastKey s
  /\ (currentEdge s2 = currentEdge s1
      \/ (kindOfCurrentEdge s2 = kindOfLastKey s /\ kindOfLastKey s <> None)).
Proof.
  intros Hdown Hevs. cbv zeta.
  assert (Hrun : mouseDown (run measureText evs s) = true
                 /\ lastKey (run measureText evs s) = lastKey s).
  { revert s Hdown. induction evs as [| ev evs IH]; intros s Hdown;
      [split; [exact Hdown | reflexivity] |].
    cbn [forallb] in Hevs. apply andb_true_iff in Hevs as [Hev Hevs].
    apply negb_true_iff in Hev.
    destruct (handle_while_mouse_down measureText ev s Hdown Hev) as [Hd Hk].
    cbn [run fold_left]. destruct (IH Hevs _ Hd) as [Hd' Hk'].
    split; [exact Hd' |]. unfold run in Hk'. rewrite Hk'. exact Hk. }
  destruct Hrun as [Hd Hk]. split; [exact Hd |]. split; [exact Hk |].
  destruct (onmousemove_kind measureText mouse (run measureText evs s)) as [H | [H1 H2]];
    [left; exact H |].
  right. unfold kindOfLastKey, lastKeyIs in *. rewrite Hk in *. split; assumption.
Qed.

(** In a gesture started with Shift, pressing Control and releasing Shift
    with the mouse down changes nothing: the next rebuild is undirected. *)
Lemma rebuilds_follow_lastKey_example :
  mouseDown shiftGesture = true
  /\ lastKey (run sampleMeasure [KeyDown CTRL; KeyUp SHIFT] shiftGesture) = Some SHIFT
  /\ currentEdge (fst (onmousemove sampleMeasure (Point.mk 200 200)
                         (run sampleMeasure [KeyDown CTRL; KeyUp SHIFT] shiftGesture)))
     = Some (TempEdge 0 (Point.mk 200 200)).
Proof.
  assert (Hdown : mouseDown shiftGesture = true) by (vm_compute; reflexivity).
  split; [exact Hdown |].
  destruct (rebuilds_follow_lastKey sampleMeasure shiftGesture [KeyDown CTRL; KeyUp SHIFT]
              (Point.mk 200 200) Hdown eq_refl) as (_ & Hk & _).
  split; [rewrite Hk |]; vm_compute; reflexivity.
Defined.

(** ** Silent no-ops *)

(** A gesture released while the edge under construction is still a
    temporary edge creates nothing: the temporary edge is discarded and the
    store is otherwise as it was. *)
Theorem release_without_destination (mouse dest : Point.t) (s : State) (v : nat) :
  currentEdge s = Some (TempEdge v dest) \/ currentEdge s = Some (TempDirEdge v dest) ->
  let s' := fst (onmouseup mouse s) in
  snd (onmouseup mouse s) = Normal
  /\ currentEdge s' = None
  /\ edges s' = edges s
  /\ vertices s' = vertices s
  /\ edgeHeap s' = edgeHeap s
  /\ vertexHeap s' = vertexHeap s
  /\ selectedObject s' = selectedObject s
  /\ lastKey s' = lastKey s.
Proof.
  intros Hcur. cbv zeta. unfold onmouseup. cbn [fst snd currentEdge set_movingObject].
  destruct Hcur as [-> | ->]; repeat split.
Qed.

Lemma release_without_destination_example :
  currentEdge bothModifiersPressed = Some (TempEdge 0 (Point.mk 50 50))
  /\ currentEdge (fst (onmouseup (Point.mk 300 300) bothModifiersPressed)) = None
  /\ edges (fst (onmouseup (Point.mk 300 300) bothModifiersPressed)) = [].
Proof.
  assert (Hcur : currentEdge bothModifiersPressed = Some (TempEdge 0 (Point.mk 50 50)))
    by (vm_compute; reflexivity).
  split; [exact Hcur |].
  destruct (release_without_destination (Point.mk 300 300) (Point.mk 50 50)
              bothModifiersPressed 0 (or_introl Hcur)) as (_ & Hc & He & _).
  split; [exact Hc |]. rewrite He. vm_compute. reflexivity.
Defined.

(** With nothing selected, Delete and Backspace change nothing but the
    record of the last key (and that only with the mouse up), and raise no
    error. *)
Theorem delete_backspace_without_selection (measureText : str -> float) (key : Z)
    (s : State) :
  selectedObject s = None ->
  key = DELETE \/ key = BACKSPACE ->
  onkeydown measureText key s
  = (if mouseDown s then s else set_lastKey (Some key) s, Normal).
Proof.
  intros Hsel Hkey. unfold onkeydown.
  assert (Hsel' : selectedObject (if mouseDown s then s else set_lastKey (Some key) s) = None)
    by (destruct (mouseDown s); exact Hsel).
  rewrite Hsel'. destruct Hkey as [-> | ->]; reflexivity.
Qed.

Lemma delete_backspace_without_selection_example :
  onkeydown sampleMeasure DELETE initial = (set_lastKey (Some DELETE) initial, Normal)
  /\ onkeydown sampleMeasure BACKSPACE initial = (set_lastKey (Some BACKSPACE) initial, Normal).
Proof.
  split.
  - exact (delete_backspace_without_selection sampleMeasure DELETE initial eq_refl
             (or_introl eq_refl)).
  - exact (delete_backspace_without_selection sampleMeasure BACKSPACE initial eq_refl
             (or_intror eq_refl)).
Defined.

(** The scenario of the specification: two double clicks create two
    vertices of the default radius; a drag with Shift from the first to the
    second creates exactly one undirected edge with v1 the first and v2 the
    second; Delete with that edge selected removes it and leaves both
    vertices. *)
Theorem connect_then_delete_scenario :
  vertices connectedScene = [0; 1]
  /\ vertexHeap connectedScene = [Vertex.new 50 50; Vertex.new 200 50]
  /\ edges connectedScene = [0]
  /\ edgeHeap connectedScene !!! 0 = Edge.new Undirected 0 1
  /\ selectedObject labelledEdge = Some (EdgeRef 0)
  /\ vertices (fst (onkeydown sampleMeasure DELETE labelledEdge)) = [0; 1]
  /\ edges (fst (onkeydown sampleMeasure DELETE labelledEdge)) = []
  /\ selectedObject (fst (onkeydown sampleMeasure DELETE labelledEdge)) = None.
Proof. repeat split; vm_compute; reflexivity. Qed.

(** ** Errors raised by the handlers *)

Lemma forallb_map {A B : Type} (f : B -> bool) (g : A -> B) (l : list A) :
  forallb f (List.map g l) = forallb (fun a => f (g a)) l.
Proof. induction l as [| a l IH]; [reflexivity |]. cbn. rewrite IH. reflexivity. Qed.

(** On the LaTeX surface the label of an edge is drawn with an angle: unless
    the label is blank the draw reads [angleOrNull] and throws. *)
Lemma Edge_draw_latex (vs : list Vertex.t) (e : Edge.t) :
  Edge.draw vs LaTeXDrawer e
  = if blankLabel (Edge.text e) then Normal else Throw ReferenceError.
Proof.
  unfold Edge.draw, drawText, advancedFillText, blankLabel. cbn [hasAdvancedFillText].
  destruct (length _); reflexivity.
Qed.

Lemma drawEdges_latex (vs : list Vertex.t) (es : list Edge.t) (ids : list nat) :
  drawEdges LaTeXDrawer vs es ids
  = if forallb (fun e => blankLabel (Edge.text (es !!! e))) ids
    then Normal else Throw ReferenceError.
Proof.
  induction ids as [| i ids IH]; [reflexivity |].
  cbn [drawEdges forallb]. rewrite Edge_draw_latex.
  destruct (blankLabel _); [exact IH | reflexivity].
Qed.

Lemma drawWith_latex (measureText : str -> float) (s : State) :
  snd (drawWith measureText LaTeXDrawer s)
  = if forallb blankLabel (angledLabels s) then Normal else Throw ReferenceError.
Proof.
  unfold drawWith, angledLabels.
  destruct (drawVertices_spec measureText LaTeXDrawer (vertices s) (vertexHeap s)) as (Hn & _).
  destruct (drawVertices measureText LaTeXDrawer (vertices s) (vertexHeap s)) as [vs r].
  cbn [snd] in Hn. subst r. cbn [andThen edgeHeap edges vertexHeap set_vertexHeap].
  rewrite forallb_app, forallb_map, drawEdges_latex.
  destruct (forallb _ (edges s)); cbn [andThen snd andb]; [| reflexivity].
  unfold drawCurrentEdge. cbn [currentEdge edgeHeap vertexHeap set_vertexHeap].
  destruct (currentEdge s) as [[v d | v d | e] |]; try reflexivity.
  rewrite Edge_draw_latex. cbn [forallb]. rewrite andb_true_r. reflexivity.
Qed.

(** The first part of [onmousemove], which rebuilds the edge under
    construction, writes neither [movingObject] nor the selection. *)
Lemma onmousemove_completion (measureText : str -> float) (mouse : Point.t) (s : State) :
  snd (onmousemove measureText mouse s)
  = if movingObject s && negb (isVertexRef (selectedObject s))
    then Throw TypeError else Normal.
Proof.
  unfold onmousemove.
  match goal with
  | |- context [if movingObject ?s1 then _ else _] => set (s1' := s1)
  end.
  assert (H1 : movingObject s1' = movingObject s /\ selectedObject s1' = selectedObject s).
  { subst s1'. destruct (negb _); [| split; reflexivity].
    destruct (selectedObject s) as [[v | e] |] eqn:Hsel;
      try (split; [reflexivity | exact Hsel]).
    destruct (selectObject _ _ _) as [[d | e] |];
      destruct (lastKeyIs SHIFT s); try (split; [reflexivity | exact Hsel]);
      destruct (lastKeyIs CTRL s); split; solve [reflexivity | exact Hsel]. }
  clearbody s1'. destruct H1 as [Hm Hs]. rewrite <- Hm, <- Hs.
  destruct (movingObject s1'); [| apply draw_completes].
  destruct (selectedObject s1') as [[v | e] |]; try reflexivity.
  apply draw_completes.
Qed.

(** The errors of the editor.  Two handlers can raise an error, and each in
    one circumstance only: a mouse move while a move is in progress and the
    selection is not a vertex (a TypeError, from calling [setAnchorPoint] on
    null or on an edge), and the LaTeX export when a label drawn with an
    angle is not blank (a ReferenceError, from reading [angleOrNull]).
    Every other handler completes in every store. *)
Theorem handle_completion (measureText : str -> float) (ev : Event) (s : State) :
  snd (handle measureText ev s)
  = match ev with
    | MouseMove _ =>
        if movingObject s && negb (isVertexRef (selectedObject s))
        then Throw TypeError else Normal
    | SaveAsLaTeX =>
        if forallb blankLabel (angledLabels s) then Normal else Throw ReferenceError
    | _ => Normal
    end.
Proof.
  destruct ev as [m | m | m | m | k | k | k | |]; cbn [handle].
  - reflexivity.
  - reflexivity.
  - apply onmousemove_completion.
  - unfold ondblclick. cbn [selectedObject set_selectedObject].
    destruct (selectObject _ _ _); [reflexivity | apply draw_completes].
  - unfold onkeydown.
    destruct (k =? SHIFT)%Z; [reflexivity |]. destruct (k =? CTRL)%Z; [reflexivity |].
    destruct (selectedObject _); [| reflexivity].
    destruct (k =? BACKSPACE)%Z; [apply draw_completes |].
    destruct (k =? DELETE)%Z; [apply draw_completes | reflexivity].
  - unfold onkeyup.
    destruct (k =? SHIFT)%Z; [reflexivity |]. destruct (k =? CTRL)%Z; reflexivity.
  - unfold onkeypress. destruct (selectedObject s); [| reflexivity].
    destruct (_ && _); [apply draw_completes | reflexivity].
  - unfold saveAsPNG.
    pose proof (draw_completes measureText (set_selectedObject None s)) as Hn.
    unfold draw in Hn.
    destruct (drawWith measureText Canvas2D (set_selectedObject None s)) as [s' r].
    cbn [snd] in Hn. subst r. reflexivity.
  - unfold saveAsLaTeX.
    pose proof (drawWith_latex measureText (set_selectedObject None s)) as Hn.
    unfold angledLabels in *. cbn [edges edgeHeap currentEdge set_selectedObject] in Hn.
    destruct (drawWith measureText LaTeXDrawer (set_selectedObject None s)) as [s' r].
    cbn [snd] in Hn. subst r. destruct (forallb _ _); reflexivity.
Qed.

(** A mouse move that raises the TypeError does nothing else: the edge under
    construction is not rebuilt, nothing is moved and nothing is redrawn. *)
Theorem move_without_vertex (measureText : str -> float) (mouse : Point.t) (s : State) :
  movingObject s = true -> isVertexRef (selectedObject s) = false ->
  onmousemove measureText mouse s = (s, Throw TypeError).
Proof.
  intros Hm Hs. unfold onmousemove.
  destruct (selectedObject s) as [[v | e] |] eqn:Hsel; try discriminate Hs;
    destruct (negb _); rewrite Hm, Hsel; reflexivity.
Qed.

(** Deleting the vertex that is being dragged leaves the move in progress
    with nothing selected; the next mouse move raises the error. *)
Lemma move_without_vertex_example :
  movingObject deletedWhileDragged = true
  /\ selectedObject deletedWhileDragged = None
  /\ onmousemove sampleMeasure (Point.mk 60 60) deletedWhileDragged
     = (deletedWhileDragged, Throw TypeError).
Proof.
  assert (Hm : movingObject deletedWhileDragged = true) by (vm_compute; reflexivity).
  assert (Hs : selectedObject deletedWhileDragged = None) by (vm_compute; reflexivity).
  split; [exact Hm |]. split; [exact Hs |].
  apply (move_without_vertex sampleMeasure (Point.mk 60 60) deletedWhileDragged Hm).
  rewrite Hs. reflexivity.
Defined.

(** ** The two exports *)

(** The radii a redraw computes do not depend on the surface. *)
Lemma drawVertices_surface (measureText : str -> float) (c : Surface) (ids : list nat) :
  forall h : list Vertex.t,
  fst (drawVertices measureText c ids h) = fst (drawVertices measureText Canvas2D ids h).
Proof.
  induction ids as [| i ids IH]; intros h; [reflexivity |].
  rewrite (drawVertices_fold measureText c), (drawVertices_fold measureText Canvas2D).
  cbn [fold_left]. rewrite <- !drawVertices_fold.
  rewrite (Vertex_draw_fst measureText c), <- (Vertex_draw_fst measureText Canvas2D).
  apply IH.
Qed.

Lemma drawWith_redrawn (measureText : str -> float) (c : Surface) (s : State) :
  fst (drawWith measureText c s) = redrawn measureText s.
Proof. rewrite drawWith_store, drawVertices_surface. reflexivity. Qed.

(** In a store the editor can reach, a redraw finds every radius up to date
    and writes nothing new. *)
Lemma redrawn_reachable (measureText : str -> float) (s : State) :
  reachable measureText s -> redrawn measureText s = s.
Proof.
  intros Hreach. unfold redrawn. rewrite drawVertices_drawn.
  - destruct s; reflexivity.
  - intros v Hv. apply (drawn_reachable measureText s Hreach). exact Hv.
Qed.




(** The outcome of the LaTeX export in a store the editor can reach.  When
    every label drawn with an angle is blank the export completes and the
    store is exactly as before.  Otherwise it ends with the ReferenceError,
    and the store is as before except that the selection is lost: the
    assignment that restores it is not reached. *)
Theorem saveAsLaTeX_outcome (measureText : str -> float) (s : State) :
  reachable measureText s ->
  saveAsLaTeX measureText s
  = if forallb blankLabel (angledLabels s) then (s, Normal)
    else (set_selectedObject None s, Throw ReferenceError).
Proof.
  intros Hreach. unfold saveAsLaTeX.
  pose proof (drawWith_latex measureText (set_selectedObject None s)) as Hn.
  pose proof (drawWith_redrawn measureText LaTeXDrawer (set_selectedObject None s)) as Hst.
  replace (angledLabels (set_selectedObject None s)) with (angledLabels s) in Hn
    by reflexivity.
  assert (Hre : redrawn measureText (set_selectedObject None s) = set_selectedObject None s).
  { pose proof (redrawn_reachable measureText s Hreach) as H.
    unfold redrawn in *. cbn [vertices vertexHeap set_selectedObject].
    apply (f_equal vertexHeap) in H. cbn [vertexHeap set_vertexHeap] in H.
    rewrite H. destruct s; reflexivity. }
  rewrite Hre in Hst.
  destruct (drawWith measureText LaTeXDrawer (set_selectedObject None s)) as [s' r].
  cbn [fst snd] in *. subst s' r.
  destruct (forallb blankLabel (angledLabels s)); cbn [andThen]; [| reflexivity].
  destruct s; reflexivity.
Qed.

(** A labelled edge makes the export fail and lose the selection; without
    the label the scene is exported and left as it was. *)
Lemma saveAsLaTeX_outcome_example :
  saveAsLaTeX sampleMeasure labelledEdge
  = (set_selectedObject None labelledEdge, Throw ReferenceError)
  /\ saveAsLaTeX sampleMeasure connectedScene = (connectedScene, Normal).
Proof.
  split.
  - rewrite (saveAsLaTeX_outcome sampleMeasure labelledEdge).
    + vm_compute. reflexivity.
    + exists (twoVertices ++ connectFirstToSecond
              ++ [KeyUp SHIFT; MouseDown (Point.mk 125 50); MouseUp (Point.mk 125 50);
                  KeyPress 97])%list.
      vm_compute. reflexivity.
  - rewrite (saveAsLaTeX_outcome sampleMeasure connectedScene).
    + vm_compute. reflexivity.
    + exists (twoVertices ++ connectFirstToSecond)%list. reflexivity.
Defined.

(** The PNG export always completes, and in a store the editor can reach it
    leaves the store, selection included, exactly as it was. *)
Theorem saveAsPNG_leaves_store (measureText : str -> float) (s : State) :
  reachable measureText s -> saveAsPNG measureText s = (s, Normal).
Proof.
  intros Hreach. unfold saveAsPNG.
  pose proof (draw_completes measureText (set_selectedObject None s)) as Hn.
  pose proof (drawWith_redrawn measureText Canvas2D (set_selectedObject None s)) as Hst.
  unfold draw in Hn.
  assert (Hre : redrawn measureText (set_selectedObject None s) = set_selectedObject None s).
  { pose proof (redrawn_reachable measureText s Hreach) as H.
    unfold redrawn in *. cbn [vertices vertexHeap set_selectedObject].
    apply (f_equal vertexHeap) in H. cbn [vertexHeap set_vertexHeap] in H.
    rewrite H. destruct s; reflexivity. }
  rewrite Hre in Hst.
  destruct (drawWith measureText Canvas2D (set_selectedObject None s)) as [s' r].
  cbn [fst snd] in *. subst s' r. cbn [andThen]. destruct s; reflexivity.
Qed.

Lemma saveAsPNG_leaves_store_example :
  saveAsPNG sampleMeasure labelledEdge = (labelledEdge, Normal)
  /\ selectedObject labelledEdge = Some (EdgeRef 0).
Proof.
  split; [| vm_compute; reflexivity].
  apply (saveAsPNG_leaves_store sampleMeasure labelledEdge).
  exists (twoVertices ++ connectFirstToSecond
          ++ [KeyUp SHIFT; MouseDown (Point.mk 125 50); MouseUp (Point.mk 125 50);
              KeyPress 97])%list.
  vm_compute. reflexivity.
Defined.

(** ** Gestures last while the mouse is down *)

Lemma draw_gesture (measureText : str -> float) (c : Surface) (s : State) :
  mouseDown (fst (drawWith measureText c s)) = mouseDown s
  /\ currentEdge (fst (drawWith measureText c s)) = currentEdge s
  /\ movingObject (fst (drawWith measureText c s)) = movingObject s.
Proof. rewrite drawWith_store. repeat split. Qed.

Lemma setText_gesture (s : State) (o : Obj) (t : str) :
  mouseDown (setText o t s) = mouseDown s
  /\ currentEdge (setText o t s) = currentEdge s
  /\ movingObject (setText o t s) = movingObject s.
Proof. destruct o; repeat split. Qed.

(** The keyboard handlers, the double click and the exports write none of
    [mouseDown], [currentEdge] and [movingObject]. *)
Lemma handle_gesture (measureText : str -> float) (ev : Event) (s : State) :
  match ev with
  | MouseDown _ | MouseUp _ | MouseMove _ => True
  | _ =>
      mouseDown (fst (handle measureText ev s)) = mouseDown s
      /\ currentEdge (fst (handle measureText ev s)) = currentEdge s
      /\ movingObject (fst (handle measureText ev s)) = movingObject s
  end.
Proof.
  destruct ev as [m | m | m | m | k | k | k | |]; cbn [handle]; try exact I.
  - unfold ondblclick. cbn [selectedObject set_selectedObject].
    destruct (selectObject _ _ _); [repeat split |].
    unfold draw.
    match goal with
    | |- context [drawWith measureText Canvas2D ?t] =>
        destruct (draw_gesture measureText Canvas2D t) as (-> & -> & ->)
    end.
    repeat split.
  - unfold onkeydown.
    set (s0 := if mouseDown s then s else set_lastKey (Some k) s).
    assert (H0 : mouseDown s0 = mouseDown s /\ currentEdge s0 = currentEdge s
                 /\ movingObject s0 = movingObject s)
      by (subst s0; destruct (mouseDown s) eqn:Hd; repeat split; exact Hd).
    clearbody s0. destruct H0 as (<- & <- & <-).
    destruct (k =? SHIFT)%Z; [repeat split |].
    destruct (k =? CTRL)%Z; [repeat split |].
    destruct (selectedObject s0) as [selected |]; [| repeat split].
    destruct (k =? BACKSPACE)%Z.
    + unfold draw.
      match goal with
      | |- context [drawWith measureText Canvas2D ?t] =>
          destruct (draw_gesture measureText Canvas2D t) as (-> & -> & ->)
      end.
      apply setText_gesture.
    + destruct (k =? DELETE)%Z; [| repeat split].
      unfold draw.
      match goal with
      | |- context [drawWith measureText Canvas2D ?t] =>
          destruct (draw_gesture measureText Canvas2D t) as (-> & -> & ->)
      end.
      repeat split.
  - unfold onkeyup. destruct (k =? SHIFT)%Z; [repeat split |].
    destruct (k =? CTRL)%Z; repeat split.
  - unfold onkeypress. destruct (selectedObject s) as [selected |]; [| repeat split].
    destruct (_ && _); [| repeat split].
    unfold draw.
    match goal with
    | |- context [drawWith measureText Canvas2D ?t] =>
        destruct (draw_gesture measureText Canvas2D t) as (-> & -> & ->)
    end.
    apply setText_gesture.
  - unfold saveAsPNG.
    pose proof (draw_gesture measureText Canvas2D (set_selectedObject None s)) as H.
    destruct (drawWith measureText Canvas2D (set_selectedObject None s)) as [s' [| err]];
      exact H.
  - unfold saveAsLaTeX.
    pose proof (draw_gesture measureText LaTeXDrawer (set_selectedObject None s)) as H.
    destruct (drawWith measureText LaTeXDrawer (set_selectedObject None s)) as [s' [| err]];
      exact H.
Qed.

Lemma onmousedown_down (mouse : Point.t) (s : State) :
  mouseDown (fst (onmousedown mouse s)) = true.
Proof. reflexivity. Qed.

(** With no edge under construction and no move in progress, a mouse move is
    a redraw and nothing else. *)
Lemma onmousemove_at_rest (measureText : str -> float) (mouse : Point.t) (s : State) :
  currentEdge s = None -> movingObject s = false ->
  onmousemove measureText mouse s = draw measureText s.
Proof. intros Hc Hm. unfold onmousemove. rewrite Hc. cbn [isNull negb]. rewrite Hm. reflexivity. Qed.

Lemma at_rest_handle (measureText : str -> float) (ev : Event) (s : State) :
  (mouseDown s = false -> currentEdge s = None /\ movingObject s = false) ->
  mouseDown (fst (handle measureText ev s)) = false ->
  currentEdge (fst (handle measureText ev s)) = None
  /\ movingObject (fst (handle measureText ev s)) = false.
Proof.
  intros Hinv. pose proof (handle_gesture measureText ev s) as Hg.
  destruct ev as [m | m | m | m | k | k | k | |];
    try (destruct Hg as (-> & -> & ->); exact Hinv); cbn [handle].
  - rewrite onmousedown_down. discriminate.
  - intros _. destruct (onmouseup_edges m s) as (_ & Hc & _). split; [exact Hc |].
    unfold onmouseup. cbn [fst currentEdge set_movingObject].
    destruct (currentEdge s) as [[v d | v d | e] |]; try reflexivity.
    destruct (negb _); reflexivity.
  - destruct (mouseDown s) eqn:Hd.
    + destruct (handle_while_mouse_down measureText (MouseMove m) s Hd eq_refl) as [Hd' _].
      cbn [handle] in Hd'. rewrite Hd'. discriminate.
    + destruct (Hinv eq_refl) as [Hc Hm]. rewrite onmousemove_at_rest by assumption.
      unfold draw. destruct (draw_gesture measureText Canvas2D s) as (_ & -> & ->).
      intros _. split; assumption.
Qed.

Lemma at_rest_reachable (measureText : str -> float) (s : State) :
  reachable measureText s -> mouseDown s = false ->
  currentEdge s = None /\ movingObject s = false.
Proof.
  intros [evs ->].
  assert (H : forall s0,
             (mouseDown s0 = false -> currentEdge s0 = None /\ movingObject s0 = false) ->
             mouseDown (run measureText evs s0) = false ->
             currentEdge (run measureText evs s0) = None
             /\ movingObject (run measureText evs s0) = false).
  { induction evs as [| ev evs IH]; intros s0 H0; [exact H0 |].
    cbn [run fold_left]. apply IH. apply at_rest_handle. exact H0. }
  apply H. intros _. split; reflexivity.
Qed.

(** Whenever the mouse button is up in a store the editor can reach, no edge
    is under construction and no move is in progress, and a mouse move
    changes nothing in the store and raises no error. *)
Theorem nothing_in_progress_with_mouse_up (measureText : str -> float) (s : State) :
  reachable measureText s -> mouseDown s = false ->
  currentEdge s = None
  /\ movingObject s = false
  /\ forall mouse, onmousemove measureText mouse s = (s, Normal).
Proof.
  intros Hreach Hup.
  destruct (at_rest_reachable measureText s Hreach Hup) as [Hc Hm].
  split; [exact Hc |]. split; [exact Hm |].
  intros mouse. rewrite onmousemove_at_rest by assumption.
  pose proof (draw_completes measureText s) as Hn.
  pose proof (drawWith_redrawn measureText Canvas2D s) as Hst.
  rewrite (redrawn_reachable measureText s Hreach) in Hst. unfold draw in *.
  destruct (drawWith measureText Canvas2D s) as [s' r]. cbn [fst snd] in *. subst. reflexivity.
Qed.

(** After a completed connect gesture the mouse is up: nothing is under
    construction, and moving the mouse leaves the scene as it is. *)
Lemma nothing_in_progress_with_mouse_up_example :
  mouseDown connectedScene = false
  /\ currentEdge connectedScene = None
  /\ onmousemove sampleMeasure (Point.mk 125 50) connectedScene = (connectedScene, Normal).
Proof.
  assert (Hup : mouseDown connectedScene = false) by (vm_compute; reflexivity).
  assert (Hreach : reachable sampleMeasure connectedScene)
    by (exists (twoVertices ++ connectFirstToSecond)%list; reflexivity).
  destruct (nothing_in_progress_with_mouse_up sampleMeasure connectedScene Hreach Hup)
    as (Hc & _ & Hmove).
  split; [exact Hup |]. split; [exact Hc |]. apply Hmove.
Defined.

(** ** What the handlers do to the scene *)

Lemma selectObject_inScene (s : State) (px py : float) : inScene s (selectObject s px py).
Proof.
  unfold selectObject.
  destruct (List.find _ (vertices s)) as [v |] eqn:Hv.
  - apply List.find_some in Hv as [Hin _]. exact Hin.
  - destruct (List.find _ (edges s)) as [e |] eqn:He; [| exact I].
    apply List.find_some in He as [Hin _]. exact Hin.
Qed.

Lemma onmousedown_scene (mouse : Point.t) (s : State) :
  vertices (fst (onmousedown mouse s)) = vertices s
  /\ edges (fst (onmousedown mouse s)) = edges s
  /\ selectedObject (fst (onmousedown mouse s))
     = selectObject s (Point.x mouse) (Point.y mouse).
Proof.
  unfold onmousedown. cbn [fst selectedObject set_selectedObject].
  change (selectObject (set_sourceMouse (Some mouse) s) (Point.x mouse) (Point.y mouse))
    with (selectObject s (Point.x mouse) (Point.y mouse)).
  destruct (selectObject s _ _) as [[v | e] |]; try solve [repeat split].
  destruct (shift _ && isNull _); [repeat split |].
  destruct (ctrl _ && isNull _); repeat split.
Qed.

Lemma onmouseup_scene (mouse : Point.t) (s : State) :
  vertices (fst (onmouseup mouse s)) = vertices s
  /\ selectedObject (fst (onmouseup mouse s)) = selectedObject s.
Proof.
  unfold onmouseup. cbn [fst currentEdge set_movingObject].
  destruct (currentEdge s) as [[v d | v d | e] |]; try (split; reflexivity).
  destruct (negb _); split; reflexivity.
Qed.

Lemma onmousemove_scene (measureText : str -> float) (mouse : Point.t) (s : State) :
  vertices (fst (onmousemove measureText mouse s)) = vertices s
  /\ edges (fst (onmousemove measureText mouse s)) = edges s
  /\ selectedObject (fst (onmousemove measureText mouse s)) = selectedObject s.
Proof.
  unfold onmousemove.
  match goal with
  | |- context [if movingObject ?s1 then _ else _] => set (s1' := s1)
  end.
  assert (H1 : vertices s1' = vertices s /\ edges s1' = edges s
               /\ selectedObject s1' = selectedObject s).
  { subst s1'. destruct (negb _); [| repeat split].
    destruct (selectedObject s) as [[v | e] |] eqn:Hsel;
      try (repeat split; exact Hsel).
    destruct (selectObject _ _ _) as [[d | e] |];
      destruct (lastKeyIs SHIFT s); try (repeat split; exact Hsel);
      destruct (lastKeyIs CTRL s); repeat split; exact Hsel. }
  clearbody s1'. destruct H1 as (<- & <- & <-).
  destruct (movingObject s1'); [| rewrite draw_store; repeat split].
  destruct (selectedObject s1') as [[v | e] |] eqn:Hsel; try (repeat split; exact Hsel).
  rewrite draw_store. repeat split. exact Hsel.
Qed.

Lemma ondblclick_scene (measureText : str -> float) (mouse : Point.t) (s : State) :
  edges (fst (ondblclick measureText mouse s)) = edges s
  /\ match selectObject s (Point.x mouse) (Point.y mouse) with
     | Some o =>
         vertices (fst (ondblclick measureText mouse s)) = vertices s
         /\ selectedObject (fst (ondblclick measureText mouse s)) = Some o
     | None =>
         vertices (fst (ondblclick measureText mouse s))
         = vertices s ++ [length (vertexHeap s)]
         /\ selectedObject (fst (ondblclick measureText mouse s))
            = Some (VertexRef (length (vertexHeap s)))
     end.
Proof.
  unfold ondblclick. cbn [selectedObject set_selectedObject].
  destruct (selectObject s _ _); [repeat split |].
  rewrite draw_store. repeat split.
Qed.

Lemma onkeydown_scene (measureText : str -> float) (key : Z) (s : State) :
  let s' := fst (onkeydown measureText key s) in
  match selectedObject s with
  | Some selected =>
      if (key =? DELETE)%Z then
        vertices s'
        = List.filter (fun v => negb (Obj_eqb (VertexRef v) selected)) (vertices s)
        /\ edges s'
           = List.filter
               (fun e => negb (Obj_eqb (EdgeRef e) selected
                               || Obj_eqb (VertexRef (Edge.v1 (edgeHeap s !!! e))) selected
                               || Obj_eqb (VertexRef (Edge.v2 (edgeHeap s !!! e))) selected))
               (edges s)
        /\ selectedObject s' = None
      else
        vertices s' = vertices s /\ edges s' = edges s
        /\ selectedObject s' = selectedObject s
  | None =>
      vertices s' = vertices s /\ edges s' = edges s /\ selectedObject s' = None
  end.
Proof.
  cbv zeta. unfold onkeydown.
  set (s0 := if mouseDown s then s else set_lastKey (Some key) s).
  assert (H0 : vertices s0 = vertices s /\ edges s0 = edges s
               /\ selectedObject s0 = selectedObject s /\ edgeHeap s0 = edgeHeap s)
    by (subst s0; destruct (mouseDown s); repeat split).
  clearbody s0. destruct H0 as (Hv & He & Hs & Hh). rewrite <- Hv, <- He, <- Hs, <- Hh.
  destruct (Z.eqb_spec key DELETE) as [-> | Hnd].
  - replace (DELETE =? SHIFT)%Z with false by reflexivity.
    replace (DELETE =? CTRL)%Z with false by reflexivity.
    replace (DELETE =? BACKSPACE)%Z with false by reflexivity.
    destruct (selectedObject s0) as [selected |] eqn:Hsel; [| repeat split; exact Hsel].
    rewrite draw_store, !spliceWhere_filter. repeat split.
  - destruct (key =? SHIFT)%Z;
      [destruct (selectedObject s0) eqn:Hsel; repeat split; exact Hsel |].
    destruct (key =? CTRL)%Z;
      [destruct (selectedObject s0) eqn:Hsel; repeat split; exact Hsel |].
    destruct (selectedObject s0) as [selected |] eqn:Hsel; [| repeat split; exact Hsel].
    destruct (key =? BACKSPACE)%Z; [| repeat split; exact Hsel].
    rewrite draw_store. destruct selected; repeat split; exact Hsel.
Qed.

Lemma onkeyup_scene (key : Z) (s : State) :
  vertices (fst (onkeyup key s)) = vertices s
  /\ edges (fst (onkeyup key s)) = edges s
  /\ selectedObject (fst (onkeyup key s)) = selectedObject s.
Proof.
  unfold onkeyup. destruct (key =? SHIFT)%Z; [repeat split |].
  destruct (key =? CTRL)%Z; repeat split.
Qed.

Lemma onkeypress_scene (measureText : str -> float) (key : Z) (s : State) :
  vertices (fst (onkeypress measureText key s)) = vertices s
  /\ edges (fst (onkeypress measureText key s)) = edges s
  /\ selectedObject (fst (onkeypress measureText key s)) = selectedObject s.
Proof.
  unfold onkeypress. destruct (selectedObject s) as [selected |] eqn:Hsel;
    [| repeat split; exact Hsel].
  destruct (_ && _); [| repeat split; exact Hsel].
  rewrite draw_store. destruct selected; repeat split; exact Hsel.
Qed.

Lemma save_scene (measureText : str -> float) (c : Surface) (s : State) :
  let s' := fst (andThen (drawWith measureText c (set_selectedObject None s))
                   (fun s' => (set_selectedObject (selectedObject s) s', Normal))) in
  vertices s' = vertices s /\ edges s' = edges s
  /\ (selectedObject s' = selectedObject s \/ selectedObject s' = None).
Proof.
  cbv zeta.
  pose proof (drawWith_store measureText c (set_selectedObject None s)) as Hst.
  destruct (drawWith measureText c (set_selectedObject None s)) as [s' [| err]];
    cbn [andThen fst] in *; subst s'; repeat split; [left | right]; reflexivity.
Qed.

(** ** The arrays hold no object twice, and the selection is in the scene *)

Lemma NoDup_snoc {A : Type} (l : list A) (a : A) :
  List.NoDup l -> ~ In a l -> List.NoDup (l ++ [a]).
Proof.
  induction l as [| b l IH]; intros Hnd Hnin.
  - constructor; [intros [] | constructor].
  - inversion Hnd as [| ? ? Hb Hl]; subst. cbn. constructor.
    + intros Hin. apply in_app_or in Hin as [Hin | [<- | []]]; [exact (Hb Hin) |].
      apply Hnin. left. reflexivity.
    + apply IH; [exact Hl |]. intros Hin. apply Hnin. right. exact Hin.
Qed.

(** An edge of the array is always found by [containsEdge]. *)
Lemma containsEdge_member (s : State) (e : nat) :
  In e (edges s) -> containsEdge s e = true.
Proof.
  intros Hin. unfold containsEdge. apply existsb_exists. exists e. split; [exact Hin |].
  unfold sameEnds. rewrite !Nat.eqb_refl. reflexivity.
Qed.

Lemma consistent_frame (s s' : State) :
  consistent s -> vertices s' = vertices s -> edges s' = edges s ->
  inScene s (selectedObject s') -> consistent s'.
Proof.
  intros (Hv & He & _) Hvs Hes Hsel. unfold consistent, inScene in *.
  rewrite Hvs, Hes. repeat split; assumption.
Qed.

Lemma consistent_handle (measureText : str -> float) (ev : Event) (s : State) :
  drawn measureText s -> consistent s -> consistent (fst (handle measureText ev s)).
Proof.
  intros Hd Hc. pose proof Hc as (Hv & He & Hsel).
  destruct ev as [m | m | m | m | k | k | k | |]; cbn [handle].
  - destruct (onmousedown_scene m s) as (Hvs & Hes & Hs).
    apply (consistent_frame s _ Hc Hvs Hes). rewrite Hs. apply selectObject_inScene.
  - destruct (onmouseup_scene m s) as (Hvs & Hs).
    destruct (onmouseup_edges m s) as (_ & _ & Hes).
    unfold consistent, inScene. rewrite Hvs, Hs, Hes.
    destruct (currentEdge s) as [[v d | v d | e] |]; try (repeat split; assumption).
    destruct (containsEdge s e) eqn:Hcont; [repeat split; assumption |].
    assert (Hnin : ~ In e (edges s)).
    { intros Hin. rewrite (containsEdge_member s e Hin) in Hcont. discriminate Hcont. }
    split; [exact Hv |]. split; [apply NoDup_snoc; assumption |].
    unfold inScene in Hsel. destruct (selectedObject s) as [[v | e'] |]; try exact Hsel.
    apply in_or_app. left. exact Hsel.
  - destruct (onmousemove_scene measureText m s) as (Hvs & Hes & Hs).
    apply (consistent_frame s _ Hc Hvs Hes). rewrite Hs. exact Hsel.
  - destruct (ondblclick_scene measureText m s) as (Hes & Hrest).
    pose proof (selectObject_inScene s (Point.x m) (Point.y m)) as Hin.
    destruct (selectObject s (Point.x m) (Point.y m)) as [o |].
    + destruct Hrest as (Hvs & Hs).
      apply (consistent_frame s _ Hc Hvs Hes). rewrite Hs. exact Hin.
    + destruct Hrest as (Hvs & Hs). unfold consistent, inScene. rewrite Hvs, Hes, Hs.
      split; [| split; [exact He | apply in_or_app; right; left; reflexivity]].
      apply NoDup_snoc; [exact Hv |].
      intros Hmem. destruct (Hd _ Hmem) as [Hlt _]. lia.
  - pose proof (onkeydown_scene measureText k s) as Hk. cbv zeta in Hk.
    unfold inScene in Hsel.
    destruct (selectedObject s) as [selected |] eqn:Hso.
    + destruct (k =? DELETE)%Z.
      * destruct Hk as (Hvs & Hes & Hs). unfold consistent, inScene. rewrite Hvs, Hes, Hs.
        split; [apply List.NoDup_filter; exact Hv |].
        split; [apply List.NoDup_filter; exact He | exact I].
      * destruct Hk as (Hvs & Hes & Hs).
        apply (consistent_frame s _ Hc Hvs Hes). rewrite Hs. exact Hsel.
    + destruct Hk as (Hvs & Hes & Hs).
      apply (consistent_frame s _ Hc Hvs Hes). rewrite Hs. exact I.
  - destruct (onkeyup_scene k s) as (Hvs & Hes & Hs).
    apply (consistent_frame s _ Hc Hvs Hes). rewrite Hs. exact Hsel.
  - destruct (onkeypress_scene measureText k s) as (Hvs & Hes & Hs).
    apply (consistent_frame s _ Hc Hvs Hes). rewrite Hs. exact Hsel.
  - destruct (save_scene measureText Canvas2D s) as (Hvs & Hes & Hs).
    apply (consistent_frame s _ Hc Hvs Hes). destruct Hs as [-> | ->]; [exact Hsel | exact I].
  - destruct (save_scene measureText LaTeXDrawer s) as (Hvs & Hes & Hs).
    apply (consistent_frame s _ Hc Hvs Hes). destruct Hs as [-> | ->]; [exact Hsel | exact I].
Qed.

Lemma consistent_reachable (measureText : str -> float) (s : State) :
  reachable measureText s -> consistent s.
Proof.
  intros [evs ->].
  assert (H : forall s0, drawn measureText s0 -> consistent s0 ->
                         consistent (run measureText evs s0)).
  { induction evs as [| ev evs IH]; intros s0 Hd0 H0; [exact H0 |].
    cbn [run fold_left]. apply IH; [apply drawn_handle; exact Hd0 |].
    apply consistent_handle; assumption. }
  apply H; [intros v [] |]. split; [constructor |]. split; [constructor | exact I].
Qed.

(** In every store the editor can reach, no vertex is twice in the array of
    vertices, no edge is twice in the array of edges, and the selection is
    null or an object that is still in its array: a deleted object is never
    left selected, and what the Delete and Backspace keys act on is always
    part of the scene. *)
Theorem selection_is_in_the_scene (measureText : str -> float) (s : State) :
  reachable measureText s ->
  List.NoDup (vertices s) /\ List.NoDup (edges s)
  /\ match selectedObject s with
     | Some (VertexRef v) => In v (vertices s)
     | Some (EdgeRef e) => In e (edges s)
     | None => True
     end.
Proof. intros Hreach. exact (consistent_reachable measureText s Hreach). Qed.

Lemma selection_is_in_the_scene_example :
  selectedObject triangleScene = Some (VertexRef 1)
  /\ In 1 (vertices triangleScene)
  /\ List.NoDup (edges triangleScene).
Proof.
  assert (Hsel : selectedObject triangleScene = Some (VertexRef 1))
    by (vm_compute; reflexivity).
  assert (Hreach : reachable sampleMeasure triangleScene).
  { exists (twoVertices ++ connectFirstToSecond
            ++ [DblClick (Point.mk 200 200);
                KeyDown SHIFT; MouseDown (Point.mk 200 50); MouseMove (Point.mk 200 200);
                MouseUp (Point.mk 200 200);
                KeyDown SHIFT; MouseDown (Point.mk 50 50); MouseMove (Point.mk 200 200);
                MouseUp (Point.mk 200 200);
                KeyUp SHIFT; MouseDown (Point.mk 200 50); MouseUp (Point.mk 200 50)])%list.
    vm_compute. reflexivity. }
  destruct (selection_is_in_the_scene sampleMeasure triangleScene Hreach) as (_ & He & Hin).
  rewrite Hsel in Hin. split; [exact Hsel |]. split; [exact Hin | exact He].
Defined.

(** ** Edges and the vertices they connect *)

Lemma edgeStep_handle (measureText : str -> float) (ev : Event) (s : State) :
  isMouseUp ev = false -> edgeStep s (fst (handle measureText ev s)).
Proof.
  intros Hev. destruct ev as [m | m | m | m | k | k | k | |]; cbn [handle];
    try discriminate Hev.
  - apply edgeStep_onmousedown.
  - apply edgeStep_onmousemove.
  - apply edgeStep_ondblclick.
  - apply edgeStep_onkeydown.
  - apply edgeStep_onkeyup.
  - apply edgeStep_onkeypress.
  - apply edgeStep_save.
  - apply edgeStep_save.
Qed.

(** No handler but the Delete key takes a vertex out of the array. *)
Lemma vertices_kept (measureText : str -> float) (ev : Event) (s : State) :
  match ev with
  | KeyDown key => (key =? DELETE)%Z = false
  | _ => True
  end ->
  forall v, In v (vertices s) -> In v (vertices (fst (handle measureText ev s))).
Proof.
  intros Hev v Hin. destruct ev as [m | m | m | m | k | k | k | |]; cbn [handle].
  - destruct (onmousedown_scene m s) as (-> & _). exact Hin.
  - destruct (onmouseup_scene m s) as (-> & _). exact Hin.
  - destruct (onmousemove_scene measureText m s) as (-> & _). exact Hin.
  - destruct (ondblclick_scene measureText m s) as (_ & Hrest).
    destruct (selectObject s _ _); destruct Hrest as (-> & _); [exact Hin |].
    apply in_or_app. left. exact Hin.
  - pose proof (onkeydown_scene measureText k s) as Hk. cbv zeta in Hk. rewrite Hev in Hk.
    destruct (selectedObject s); destruct Hk as (-> & _); exact Hin.
  - destruct (onkeyup_scene k s) as (-> & _). exact Hin.
  - destruct (onkeypress_scene measureText k s) as (-> & _). exact Hin.
  - unfold saveAsPNG. destruct (save_scene measureText Canvas2D s) as (-> & _). exact Hin.
  - unfold saveAsLaTeX. destruct (save_scene measureText LaTeXDrawer s) as (-> & _).
    exact Hin.
Qed.

Lemma anchoredEdge_frame (s s' : State) (e : nat) :
  anchoredEdge s e -> e < length (edgeHeap s) ->
  heapGrows (edgeHeap s) (edgeHeap s') ->
  (forall v, In v (vertices s) -> In v (vertices s')) ->
  anchoredEdge s' e.
Proof.
  intros [H1 H2] Hlt [_ Hends] Hsub. destruct (Hends e Hlt) as [E1 E2].
  unfold anchoredEdge. rewrite E1, E2. split; apply Hsub; assumption.
Qed.

(** The edge a mouse move puts under construction goes from the selected
    vertex to the vertex under the mouse, both taken from the array. *)
Lemma onmousemove_candidate (measureText : str -> float) (mouse : Point.t) (s : State)
    (e : nat) :
  consistent s ->
  currentEdge (fst (onmousemove measureText mouse s)) = Some (NewEdge e) ->
  currentEdge s = Some (NewEdge e)
  \/ anchoredEdge (fst (onmousemove measureText mouse s)) e.
Proof.
  intros (_ & _ & Hsel).
  destruct (onmousemove_scene measureText mouse s) as (Hvs & _).
  unfold anchoredEdge. rewrite Hvs. clear Hvs. unfold onmousemove.
  match goal with
  | |- context [if movingObject ?s1 then _ else _] => set (s1' := s1)
  end.
  assert (H1 : currentEdge s1' = Some (NewEdge e) ->
               currentEdge s = Some (NewEdge e)
               \/ (In (Edge.v1 (edgeHeap s1' !!! e)) (vertices s)
                   /\ In (Edge.v2 (edgeHeap s1' !!! e)) (vertices s))).
  { subst s1'. destruct (negb _); [| intros H; left; exact H].
    unfold inScene in Hsel.
    destruct (selectedObject s) as [[v | e'] |]; try (intros H; left; exact H).
    pose proof (selectObject_inScene s (Point.x mouse) (Point.y mouse)) as Hdest.
    unfold inScene in Hdest.
    destruct (selectObject _ _ _) as [[d | e'] |];
      destruct (lastKeyIs SHIFT s); try (intros H; discriminate H);
      try (unfold connect; cbn; intros H; injection H as <-; right;
           rewrite list_lookup_total_middle by reflexivity; split; assumption);
      destruct (lastKeyIs CTRL s); try (intros H; discriminate H);
      try (intros H; left; exact H);
      unfold connect; cbn; intros H; injection H as <-; right;
      rewrite list_lookup_total_middle by reflexivity; split; assumption. }
  clearbody s1'.
  destruct (movingObject s1').
  - destruct (selectedObject s1') as [[v | e'] |]; try exact H1.
    unfold draw.
    match goal with
    | |- context [drawWith measureText Canvas2D ?t] =>
        destruct (draw_input measureText Canvas2D t) as (_ & _ & -> & ->)
    end.
    exact H1.
  - unfold draw. destruct (draw_input measureText Canvas2D s1') as (_ & _ & -> & ->).
    exact H1.
Qed.

Lemma onmousedown_candidate (mouse : Point.t) (s : State) (e : nat) :
  currentEdge (fst (onmousedown mouse s)) = Some (NewEdge e) ->
  currentEdge s = Some (NewEdge e).
Proof.
  unfold onmousedown. cbn [fst selectedObject set_selectedObject].
  destruct (selectObject _ _ _) as [[v | e'] |]; try (intros H; exact H).
  destruct (shift _ && isNull _); [intros H; discriminate H |].
  destruct (ctrl _ && isNull _); [intros H; discriminate H |].
  intros H; exact H.
Qed.

Lemma anchored_handle (measureText : str -> float) (ev : Event) (s : State) :
  wellFormed s -> consistent s -> anchored s ->
  deletesWhileConnecting ev s = false ->
  anchored (fst (handle measureText ev s)).
Proof.
  intros Hwf Hc [Harr Hcand] Hguard. pose proof Hwf as (Hlive & Hclive & _).
  destruct (isMouseUp ev) eqn:Hup.
  { destruct ev as [m | m | m | m | k | k | k | |]; try discriminate Hup. cbn [handle].
    destruct (onmouseup_scene m s) as (Hvs & _).
    destruct (onmouseup_edges m s) as (Hh & Hcur & Hes).
    unfold anchored, anchoredEdge. rewrite Hvs, Hh, Hes, Hcur.
    split; [| intros e H; discriminate H].
    intros e Hin. destruct (currentEdge s) as [[v d | v d | c] |]; try (apply Harr; exact Hin).
    destruct (containsEdge s c); [apply Harr; exact Hin |].
    apply in_app_or in Hin as [Hin | [<- | []]]; [apply Harr; exact Hin |].
    apply Hcand. reflexivity. }
  pose proof (edgeStep_handle measureText ev s Hup) as (Hgrow & [keep Hkeep] & _).
  split.
  - (* the edges of the array *)
    intros e Hin. rewrite Hkeep in Hin. pose proof Hin as Hin'.
    apply List.filter_In in Hin as [Hin _].
    destruct ev as [m | m | m | m | k | k | k | |];
      try (apply (anchoredEdge_frame s _ e (Harr e Hin) (Hlive e Hin) Hgrow);
           apply (vertices_kept measureText); exact I).
    destruct (Z.eqb_spec k DELETE) as [-> | Hnd].
    + rewrite <- Hkeep in Hin'. cbn [handle] in *.
      pose proof (onkeydown_scene measureText DELETE s) as Hk. cbv zeta in Hk.
      destruct (selectedObject s) as [selected |].
      * replace (DELETE =? DELETE)%Z with true in Hk by reflexivity.
        destruct Hk as (Hvs & Hes & _).
        rewrite Hes in Hin'. apply List.filter_In in Hin' as [_ Htest].
        apply negb_true_iff in Htest. apply orb_false_iff in Htest as [Htest H2].
        apply orb_false_iff in Htest as [_ H1].
        destruct (Harr e Hin) as [A1 A2].
        destruct Hgrow as [_ Hends]. destruct (Hends e (Hlive e Hin)) as [E1 E2].
        unfold anchoredEdge. rewrite E1, E2, Hvs.
        split; apply List.filter_In; (split; [assumption |]); cbv beta;
          apply negb_true_iff; assumption.
      * destruct Hk as (Hvs & _).
        apply (anchoredEdge_frame s _ e (Harr e Hin) (Hlive e Hin) Hgrow).
        intros v Hv. rewrite Hvs. exact Hv.
    + apply (anchoredEdge_frame s _ e (Harr e Hin) (Hlive e Hin) Hgrow).
      apply (vertices_kept measureText). apply Z.eqb_neq. exact Hnd.
  - (* the edge under construction *)
    intros e Hcur.
    assert (Hsame : currentEdge s = Some (NewEdge e) ->
                    (forall v, In v (vertices s) ->
                               In v (vertices (fst (handle measureText ev s)))) ->
                    anchoredEdge (fst (handle measureText ev s)) e).
    { intros H Hsub.
      apply (anchoredEdge_frame s _ e (Hcand e H) (Hclive e H) Hgrow Hsub). }
    pose proof (handle_gesture measureText ev s) as Hg.
    destruct ev as [m | m | m | m | k | k | k | |]; try discriminate Hup;
      try (destruct Hg as (_ & Hg & _); rewrite Hg in Hcur).
    + apply Hsame; [apply onmousedown_candidate in Hcur; exact Hcur |].
      apply (vertices_kept measureText). exact I.
    + cbn [handle] in *.
      destruct (onmousemove_candidate measureText m s e Hc Hcur) as [H | H]; [| exact H].
      apply Hsame; [exact H |]. apply (vertices_kept measureText (MouseMove m)). exact I.
    + apply Hsame; [exact Hcur |]. apply (vertices_kept measureText). exact I.
    + unfold deletesWhileConnecting in Hguard. rewrite Hcur in Hguard.
      apply Hsame; [exact Hcur |]. apply (vertices_kept measureText). exact Hguard.
    + apply Hsame; [exact Hcur |]. apply (vertices_kept measureText). exact I.
    + apply Hsame; [exact Hcur |]. apply (vertices_kept measureText). exact I.
    + apply Hsame; [exact Hcur |]. apply (vertices_kept measureText). exact I.
    + apply Hsame; [exact Hcur |]. apply (vertices_kept measureText). exact I.
Qed.

(** As long as the Delete key is not pressed while the edge under
    construction has a destination vertex, every edge of the array has both
    its endpoints in the array of vertices: deleting a vertex takes its
    edges with it, and nothing else removes a vertex. *)
Theorem edges_stay_anchored (measureText : str -> float) (evs : list Event) (e : nat) :
  neverDeletesWhileConnecting measureText evs initial = true ->
  let s := run measureText evs initial in
  In e (edges s) ->
  In (Edge.v1 (edgeHeap s !!! e)) (vertices s)
  /\ In (Edge.v2 (edgeHeap s !!! e)) (vertices s).
Proof.
  intros Hcalm. cbv zeta.
  assert (H : forall s0, reachable measureText s0 -> anchored s0 ->
                neverDeletesWhileConnecting measureText evs s0 = true ->
                anchored (run measureText evs s0)).
  { clear Hcalm. induction evs as [| ev evs IH]; intros s0 Hreach Ha Hcalm; [exact Ha |].
    cbn [neverDeletesWhileConnecting] in Hcalm.
    apply andb_true_iff in Hcalm as [Hev Hcalm]. apply negb_true_iff in Hev.
    cbn [run fold_left]. apply IH; [| | exact Hcalm].
    - destruct Hreach as [pre ->]. exists (pre ++ [ev])%list.
      unfold run. rewrite fold_left_app. reflexivity.
    - apply anchored_handle;
        [apply (wellFormed_reachable measureText) | apply (consistent_reachable measureText)
        | |]; assumption. }
  destruct (H initial) as [Harr _].
  - exists []. reflexivity.
  - split; [intros e' [] | intros e' Hc; discriminate Hc].
  - exact Hcalm.
  - exact (Harr e).
Qed.

(** Deleting the second vertex of the triangle takes its two edges with it;
    the edge that is left joins the two vertices that are left. *)
Lemma edges_stay_anchored_example :
  edges (run sampleMeasure (triangleEvents ++ [KeyDown DELETE]) initial) = [2]
  /\ vertices (run sampleMeasure (triangleEvents ++ [KeyDown DELETE]) initial) = [0; 2]
  /\ In (Edge.v1 (edgeHeap (run sampleMeasure (triangleEvents ++ [KeyDown DELETE]) initial)
                  !!! 2))
        (vertices (run sampleMeasure (triangleEvents ++ [KeyDown DELETE]) initial)).
Proof.
  split; [vm_compute; reflexivity |]. split; [vm_compute; reflexivity |].
  refine (proj1 (edges_stay_anchored sampleMeasure (triangleEvents ++ [KeyDown DELETE]) 2
                   _ _)).
  - vm_compute. reflexivity.
  - vm_compute. left. reflexivity.
Defined.

(** What the Delete key leaves of the store when a vertex is selected. *)
Lemma onkeydown_delete_vertex (measureText : str -> float) (s : State) (V : nat) :
  selectedObject s = Some (VertexRef V) ->
  let s' := fst (onkeydown measureText DELETE s) in
  vertices s' = List.filter (fun v => negb (v =? V)) (vertices s)
  /\ edges s' = List.filter (fun e => negb ((Edge.v1 (edgeHeap s !!! e) =? V)
                                           || (Edge.v2 (edgeHeap s !!! e) =? V)))
                            (edges s)
  /\ edgeHeap s' = edgeHeap s
  /\ currentEdge s' = currentEdge s.
Proof.
  intros Hsel. cbv zeta.
  pose proof (onkeydown_scene measureText DELETE s) as Hk. cbv zeta in Hk.
  rewrite Hsel in Hk. replace (DELETE =? DELETE)%Z with true in Hk by reflexivity.
  destruct Hk as (Hvs & Hes & _).
  destruct (handle_gesture measureText (KeyDown DELETE) s) as (_ & Hcur & _).
  cbn [handle] in Hcur.
  split; [exact Hvs |]. split; [exact Hes |]. split; [| exact Hcur].
  unfold onkeydown.
  replace (DELETE =? SHIFT)%Z with false by reflexivity.
  replace (DELETE =? CTRL)%Z with false by reflexivity.
  replace (DELETE =? BACKSPACE)%Z with false by reflexivity.
  replace (DELETE =? DELETE)%Z with true by reflexivity.
  destruct (mouseDown s); cbn [selectedObject set_lastKey]; rewrite Hsel;
    rewrite draw_store; reflexivity.
Qed.

(** Pressing Delete while the edge under construction has its destination
    removes the selected vertex but not the edge under construction: when
    that edge starts or ends at the deleted vertex, the release of the mouse
    adds it to the array of edges all the same, with an endpoint that is no
    longer in the array of vertices. *)
Theorem delete_while_connecting (measureText : str -> float) (s : State)
    (mouse : Point.t) (e V : nat) :
  currentEdge s = Some (NewEdge e) ->
  selectedObject s = Some (VertexRef V) ->
  Edge.v1 (edgeHeap s !!! e) = V \/ Edge.v2 (edgeHeap s !!! e) = V ->
  let s' := fst (onmouseup mouse (fst (onkeydown measureText DELETE s))) in
  In e (edges s')
  /\ ~ In V (vertices s')
  /\ (Edge.v1 (edgeHeap s' !!! e) = V \/ Edge.v2 (edgeHeap s' !!! e) = V).
Proof.
  intros Hcur Hsel Hend. cbv zeta.
  destruct (onkeydown_delete_vertex measureText s V Hsel) as (Hvs & Hes & Hh & Hc).
  set (s1 := fst (onkeydown measureText DELETE s)) in *.
  destruct (onmouseup_scene mouse s1) as (Hvs' & _).
  destruct (onmouseup_edges mouse s1) as (Hh' & _ & Hes').
  rewrite Hvs', Hh', Hes', Hvs, Hh, Hc, Hcur.
  assert (Hcont : containsEdge s1 e = false).
  { unfold containsEdge. apply not_true_iff_false. intros Hex.
    apply existsb_exists in Hex as (x & Hx & Hsame).
    rewrite Hes in Hx. apply List.filter_In in Hx as [_ Htest].
    apply negb_true_iff in Htest. apply orb_false_iff in Htest as [T1 T2].
    apply Nat.eqb_neq in T1. apply Nat.eqb_neq in T2.
    rewrite Hh in Hsame. unfold sameEnds in Hsame.
    apply orb_true_iff in Hsame. rewrite !andb_true_iff, !Nat.eqb_eq in Hsame.
    destruct Hsame as [[S1 S2] | [S1 S2]], Hend as [E | E]; congruence. }
  rewrite Hcont. split; [apply in_or_app; right; left; reflexivity |].
  split; [| exact Hend].
  intros Hin. apply List.filter_In in Hin as [_ Hne].
  rewrite Nat.eqb_refl in Hne. discriminate Hne.
Qed.

(** With the drag from the first vertex held over the second, Delete removes
    the first vertex; the release then commits an edge from the deleted
    vertex to the second one. *)
Lemma delete_while_connecting_example :
  currentEdge connectingGesture = Some (NewEdge 0)
  /\ selectedObject connectingGesture = Some (VertexRef 0)
  /\ edges (fst (onmouseup (Point.mk 200 50)
                   (fst (onkeydown sampleMeasure DELETE connectingGesture)))) = [0]
  /\ vertices (fst (onmouseup (Point.mk 200 50)
                      (fst (onkeydown sampleMeasure DELETE connectingGesture)))) = [1]
  /\ ~ In 0 (vertices (fst (onmouseup (Point.mk 200 50)
                              (fst (onkeydown sampleMeasure DELETE connectingGesture))))).
Proof.
  assert (Hcur : currentEdge connectingGesture = Some (NewEdge 0))
    by (vm_compute; reflexivity).
  assert (Hsel : selectedObject connectingGesture = Some (VertexRef 0))
    by (vm_compute; reflexivity).
  split; [exact Hcur |]. split; [exact Hsel |].
  split; [vm_compute; reflexivity |]. split; [vm_compute; reflexivity |].
  refine (proj1 (proj2 (delete_while_connecting sampleMeasure connectingGesture
                          (Point.mk 200 50) 0 0 Hcur Hsel _))).
  left. vm_compute. reflexivity.
Defined.

(** ** Edges between coincident endpoints *)

(** The position along an edge of zero length: the numerator is a zero or
    NaN, the squared length is zero or NaN, and the quotient is NaN, which
    fails every comparison. *)
Lemma percent_of_zero_length (a b p q : float) :
  (0 <? ((a - a) * p + (b - b) * q)
        / (sqrt ((a - a) * (a - a) + (b - b) * (b - b))
           * sqrt ((a - a) * (a - a) + (b - b) * (b - b))))%float = false.
Proof.
  rewrite ltb_spec, div_spec, !mul_spec, sqrt_spec, !add_spec, !mul_spec, !sub_spec.
  destruct (SF64sub_self (Prim2SF a)) as [-> | ->];
    destruct (SF64sub_self (Prim2SF b)) as [-> | ->];
    destruct (Prim2SF p) as [[|] | [|] | | [|] ? ?];
    destruct (Prim2SF q) as [[|] | [|] | | [|] ? ?]; reflexivity.
Qed.

(** An edge whose two endpoints are at the same position contains no point:
    it cannot be selected with the mouse.  This is the case of an edge from
    a vertex to itself, which a drag released on its source vertex
    creates. *)
Theorem edge_of_zero_length_contains_nothing (vs : list Vertex.t) (e : Edge.t)
    (px py : float) :
  Vertex.x (vs !!! Edge.v2 e) = Vertex.x (vs !!! Edge.v1 e) ->
  Vertex.y (vs !!! Edge.v2 e) = Vertex.y (vs !!! Edge.v1 e) ->
  Edge.contains vs e px py = false.
Proof.
  intros Hx Hy. unfold Edge.contains. rewrite Hx, Hy.
  rewrite percent_of_zero_length. reflexivity.
Qed.

Lemma edge_of_zero_length_contains_nothing_example :
  edges selfLoopScene = [0]
  /\ Edge.v1 (edgeHeap selfLoopScene !!! 0) = 0
  /\ Edge.v2 (edgeHeap selfLoopScene !!! 0) = 0
  /\ Edge.contains (vertexHeap selfLoopScene) (edgeHeap selfLoopScene !!! 0) 55 50 = false.
Proof.
  split; [vm_compute; reflexivity |]. split; [vm_compute; reflexivity |].
  split; [vm_compute; reflexivity |].
  apply (edge_of_zero_length_contains_nothing (vertexHeap selfLoopScene)
           (edgeHeap selfLoopScene !!! 0) 55 50); vm_compute; reflexivity.
Defined.

(** ** Typing into a label *)

Lemma reachable_step (measureText : str -> float) (ev : Event) (s : State) :
  reachable measureText s -> reachable measureText (fst (handle measureText ev s)).
Proof.
  intros [evs ->]. exists (evs ++ [ev])%list. unfold run. rewrite fold_left_app. reflexivity.
Qed.

Lemma drawVertices_app (measureText : str -> float) (c : Surface) (l1 l2 : list nat)
    (h : list Vertex.t) :
  fst (drawVertices measureText c (l1 ++ l2) h)
  = fst (drawVertices measureText c l2 (fst (drawVertices measureText c l1 h))).
Proof. rewrite !drawVertices_fold. apply fold_left_app. Qed.

(** A redraw after one vertex has been rewritten, the others being up to
    date: the vertex is drawn, the others are written back as they are. *)
Lemma drawVertices_one (measureText : str -> float) (c : Surface) (ids : list nat)
    (h : list Vertex.t) (v : nat) (x : Vertex.t) :
  List.NoDup ids -> In v ids -> v < length h ->
  (forall j, In j ids -> upToDate measureText (h !!! j)) ->
  fst (drawVertices measureText c ids (<[v := x]> h))
  = <[v := fst (Vertex.draw measureText c x)]> h.
Proof.
  intros Hnd Hin Hlt Hup.
  destruct (List.in_split v ids Hin) as (pre & post & ->).
  pose proof (List.NoDup_remove_2 _ _ _ Hnd) as Hnin.
  rewrite drawVertices_app.
  rewrite (drawVertices_drawn measureText c pre).
  - rewrite drawVertices_fold. cbn [fold_left]. rewrite <- drawVertices_fold.
    rewrite list_lookup_total_insert_eq by exact Hlt.
    rewrite list_insert_insert_eq.
    apply drawVertices_drawn. intros j Hj.
    rewrite list_lookup_total_insert_ne.
    + apply Hup. apply in_or_app. right. right. exact Hj.
    + intros ->. apply Hnin. apply in_or_app. right. exact Hj.
  - intros j Hj. rewrite list_lookup_total_insert_ne.
    + apply Hup. apply in_or_app. left. exact Hj.
    + intros ->. apply Hnin. apply in_or_app. left. exact Hj.
Qed.

(** The store after the label of the selection has been written and the
    scene redrawn: the object of the selection has its new label and, for a
    vertex, the radius that goes with it; nothing else is written. *)
Lemma retext_store (measureText : str -> float) (s : State) (o : Obj) (t : str) :
  drawn measureText s -> List.NoDup (vertices s) -> inScene s (Some o) ->
  fst (draw measureText (setText o t s))
  = match o with
    | VertexRef v =>
        set_vertexHeap
          (<[v := fst (Vertex.draw measureText Canvas2D
                         (Vertex.set_text t (vertexHeap s !!! v)))]> (vertexHeap s)) s
    | EdgeRef e => setText o t s
    end.
Proof.
  intros Hd Hnd Hin. rewrite draw_store. destruct o as [v | e]; cbn [inScene] in Hin.
  - cbn [setText vertices vertexHeap set_vertexHeap].
    rewrite drawVertices_one;
      [reflexivity | exact Hnd | exact Hin | apply Hd; exact Hin
      | intros j Hj; apply Hd; exact Hj].
  - cbn [setText vertices vertexHeap set_edgeHeap set_vertexHeap].
    rewrite drawVertices_drawn by (intros j Hj; apply Hd; exact Hj).
    reflexivity.
Qed.

Lemma fromCharCode_printable (key : Z) :
  (32 <= key <= 126)%Z -> fromCharCode key = [Z.to_N key].
Proof. intros Hk. unfold fromCharCode. rewrite Z.mod_small by lia. reflexivity. Qed.

(** What is selected in a store the editor can reach is a live object. *)
Lemma selected_live (measureText : str -> float) (s : State) (o : Obj) :
  reachable measureText s -> selectedObject s = Some o ->
  inScene s (Some o)
  /\ match o with
     | VertexRef v => v < length (vertexHeap s)
     | EdgeRef e => e < length (edgeHeap s)
     end.
Proof.
  intros Hreach Hsel.
  destruct (consistent_reachable measureText s Hreach) as (_ & _ & Hin).
  rewrite Hsel in Hin. split; [exact Hin |]. destruct o as [v | e]; cbn [inScene] in Hin.
  - apply (drawn_reachable measureText s Hreach). exact Hin.
  - destruct (wellFormed_reachable measureText s Hreach) as (Hlive & _).
    apply Hlive. exact Hin.
Qed.

Lemma textOf_setText_live (s : State) (o : Obj) (t : str) :
  match o with
  | VertexRef v => v < length (vertexHeap s)
  | EdgeRef e => e < length (edgeHeap s)
  end ->
  textOf (setText o t s) o = t.
Proof.
  intros Hlive.
  destruct o as [v | e]; cbn [textOf setText vertexHeap edgeHeap set_vertexHeap set_edgeHeap];
    rewrite list_lookup_total_insert_eq by exact Hlive; reflexivity.
Qed.

(** With an object selected in a store the editor can reach, a printable key
    (code 32 to 126) appends its character to the label of the selection
    and to no other label; the arrays, the selection, the edge under
    construction, the positions of the vertices and the endpoints of the
    edges are as before. *)
Theorem typing_appends (measureText : str -> float) (s : State) (o : Obj) (key : Z) :
  reachable measureText s -> selectedObject s = Some o -> (32 <= key <= 126)%Z ->
  let s' := fst (onkeypress measureText key s) in
  textOf s' o = (textOf s o ++ [Z.to_N key])%list
  /\ (forall o', o' <> o -> textOf s' o' = textOf s o')
  /\ vertices s' = vertices s /\ edges s' = edges s
  /\ selectedObject s' = selectedObject s /\ currentEdge s' = currentEdge s
  /\ (forall j, Vertex.x (vertexHeap s' !!! j) = Vertex.x (vertexHeap s !!! j)
                /\ Vertex.y (vertexHeap s' !!! j) = Vertex.y (vertexHeap s !!! j))
  /\ (forall j, Edge.v1 (edgeHeap s' !!! j) = Edge.v1 (edgeHeap s !!! j)
                /\ Edge.v2 (edgeHeap s' !!! j) = Edge.v2 (edgeHeap s !!! j)
                /\ Edge.kind (edgeHeap s' !!! j) = Edge.kind (edgeHeap s !!! j)).
Proof.
  intros Hreach Hsel Hkey. cbv zeta.
  destruct (selected_live measureText s o Hreach Hsel) as [_ Hlive].
  destruct (onkeypress_scene measureText key s) as (Hvs & Hes & Hs).
  destruct (handle_gesture measureText (KeyPress key) s) as (_ & Hcur & _).
  cbn [handle] in Hcur.
  assert (Hst : fst (onkeypress measureText key s)
                = fst (draw measureText (setText o (textOf s o ++ [Z.to_N key])%list s))).
  { unfold onkeypress. rewrite Hsel.
    replace ((32 <=? key)%Z && (key <=? 126)%Z) with true
      by (symmetry; apply andb_true_iff; split; apply Z.leb_le; lia).
    rewrite fromCharCode_printable by exact Hkey. reflexivity. }
  split; [rewrite Hst, draw_textOf; apply textOf_setText_live; exact Hlive |].
  split; [intros o' Hne; rewrite Hst, draw_textOf; apply textOf_setText_other; exact Hne |].
  do 4 (split; [assumption |]).
  destruct (setText_geometry s o (textOf s o ++ [Z.to_N key])%list) as [Hgv Hge].
  rewrite Hst, draw_store.
  cbn [vertexHeap edgeHeap set_vertexHeap]. split; [| exact Hge].
  intros j.
  match goal with
  | |- context [drawVertices measureText Canvas2D ?ids ?h] =>
      destruct (drawVertices_spec measureText Canvas2D ids h) as (_ & _ & Hsame)
  end.
  destruct (Hsame j) as (Hx & Hy & _). destruct (Hgv j) as [Hx' Hy'].
  split; congruence.
Qed.

(** Typing "b" after "a" into the label of the selected vertex. *)
Lemma typing_appends_example :
  textOf labelledA (VertexRef 0) = js "a"
  /\ textOf (fst (onkeypress sampleMeasure 98 labelledA)) (VertexRef 0) = js "ab".
Proof.
  split; [vm_compute; reflexivity |].
  assert (Hreach : reachable sampleMeasure labelledA)
    by (exists [DblClick (Point.mk 50 50); KeyPress 97]; reflexivity).
  assert (Hsel : selectedObject labelledA = Some (VertexRef 0)) by (vm_compute; reflexivity).
  assert (Hkey : (32 <= 98 <= 126)%Z) by lia.
  destruct (typing_appends sampleMeasure labelledA (VertexRef 0) 98 Hreach Hsel Hkey)
    as (Ht & _).
  rewrite Ht. vm_compute. reflexivity.
Defined.

(** Drawing a vertex under another label and then under its own label again
    gives the vertex back, radius included, when it was up to date. *)
Lemma draw_retext_back (measureText : str -> float) (hv : Vertex.t) (t : str) :
  upToDate measureText hv ->
  fst (Vertex.draw measureText Canvas2D
         (Vertex.set_text (Vertex.text hv)
            (fst (Vertex.draw measureText Canvas2D (Vertex.set_text t hv)))))
  = hv.
Proof.
  intros Hup. unfold upToDate in Hup.
  rewrite (Vertex_draw_fst measureText Canvas2D (Vertex.set_text (Vertex.text hv) _)).
  rewrite (Vertex_draw_radius measureText Canvas2D hv) by reflexivity.
  rewrite Hup. rewrite (Vertex_draw_fst measureText Canvas2D (Vertex.set_text t hv)).
  destruct hv; reflexivity.
Qed.

Lemma insert_same_edge (h : list Edge.t) (i : nat) : <[i := h !!! i]> h = h.
Proof.
  destruct (decide (i < length h)) as [Hlt | Hge].
  - apply list_insert_id. apply list_lookup_lookup_total_lt. exact Hlt.
  - apply list_insert_ge. lia.
Qed.

(** Typing a character and pressing Backspace next gives back the store as
    it was, the radius of a selected vertex included; only the record of
    the last key pressed is Backspace now (when the mouse is up). *)
Theorem type_then_backspace (measureText : str -> float) (s : State) (o : Obj) (key : Z) :
  reachable measureText s -> selectedObject s = Some o -> (32 <= key <= 126)%Z ->
  fst (onkeydown measureText BACKSPACE (fst (onkeypress measureText key s)))
  = if mouseDown s then s else set_lastKey (Some BACKSPACE) s.
Proof.
  intros Hreach Hsel Hkey.
  destruct (selected_live measureText s o Hreach Hsel) as [Hin Hlive].
  pose proof (drawn_reachable measureText s Hreach) as Hd.
  destruct (consistent_reachable measureText s Hreach) as (Hnd & _ & _).
  pose proof (reachable_step measureText (KeyPress key) s Hreach) as Hreach1.
  cbn [handle] in Hreach1.
  assert (Hst : fst (onkeypress measureText key s)
                = fst (draw measureText (setText o (textOf s o ++ [Z.to_N key])%list s))).
  { unfold onkeypress. rewrite Hsel.
    replace ((32 <=? key)%Z && (key <=? 126)%Z) with true
      by (symmetry; apply andb_true_iff; split; apply Z.leb_le; lia).
    rewrite fromCharCode_printable by exact Hkey. reflexivity. }
  rewrite (retext_store measureText s o _ Hd Hnd Hin) in Hst.
  set (s1 := fst (onkeypress measureText key s)) in *.
  pose proof (drawn_reachable measureText s1 Hreach1) as Hd1.
  destruct (consistent_reachable measureText s1 Hreach1) as (Hnd1 & _ & Hin1).
  unfold onkeydown.
  replace (BACKSPACE =? SHIFT)%Z with false by reflexivity.
  replace (BACKSPACE =? CTRL)%Z with false by reflexivity.
  replace (BACKSPACE =? BACKSPACE)%Z with true by reflexivity.
  set (s0 := if mouseDown s1 then s1 else set_lastKey (Some BACKSPACE) s1).
  assert (Hsel0 : selectedObject s0 = Some o).
  { subst s0. destruct (mouseDown s1); cbn [selectedObject set_lastKey];
      rewrite Hst; destruct o; exact Hsel. }
  assert (Hd0 : drawn measureText s0) by (subst s0; destruct (mouseDown s1); exact Hd1).
  assert (Hnd0 : List.NoDup (vertices s0)) by (subst s0; destruct (mouseDown s1); exact Hnd1).
  assert (Hin0 : inScene s0 (Some o)).
  { assert (Hs1 : selectedObject s1 = Some o) by (rewrite Hst; destruct o; exact Hsel).
    rewrite Hs1 in Hin1. subst s0. destruct (mouseDown s1); exact Hin1. }
  assert (Htext0 : textOf s0 o = (textOf s o ++ [Z.to_N key])%list).
  { assert (Ht1 : textOf s1 o = (textOf s o ++ [Z.to_N key])%list).
    { rewrite Hst. destruct o as [v | e];
        cbn [textOf setText vertexHeap edgeHeap set_vertexHeap set_edgeHeap];
        rewrite list_lookup_total_insert_eq by exact Hlive.
      - rewrite Vertex_draw_fst. reflexivity.
      - reflexivity. }
    subst s0. destruct (mouseDown s1); exact Ht1. }
  rewrite Hsel0, substr_drop_last, Htext0, removelast_last.
  rewrite (retext_store measureText s0 o _ Hd0 Hnd0 Hin0).
  assert (Hs0 : s0 = if mouseDown s then s1 else set_lastKey (Some BACKSPACE) s1).
  { subst s0. rewrite Hst. destruct o; reflexivity. }
  destruct o as [v | e]; cbn [textOf setText] in *.
  - assert (Hheap : <[v := fst (Vertex.draw measureText Canvas2D
                                  (Vertex.set_text (Vertex.text (vertexHeap s !!! v))
                                     (vertexHeap s0 !!! v)))]> (vertexHeap s0)
                    = vertexHeap s).
    { assert (Hh0 : vertexHeap s0 = vertexHeap s1)
        by (rewrite Hs0; destruct (mouseDown s); reflexivity).
      rewrite Hh0, Hst. cbn [vertexHeap set_vertexHeap].
      rewrite list_lookup_total_insert_eq by exact Hlive.
      rewrite list_insert_insert_eq.
      rewrite draw_retext_back by (apply Hd; exact Hin).
      apply insert_same. }
    rewrite Hheap, Hs0, Hst. clear.
    destruct s as [so ce sm mo vs es lk sh ct md vh eh]; destruct md; reflexivity.
  - assert (Hheap : <[e := Edge.set_text (Edge.text (edgeHeap s !!! e)) (edgeHeap s0 !!! e)]>
                      (edgeHeap s0)
                    = edgeHeap s).
    { assert (Hh0 : edgeHeap s0 = edgeHeap s1)
        by (rewrite Hs0; destruct (mouseDown s); reflexivity).
      rewrite Hh0, Hst. cbn [edgeHeap set_edgeHeap].
      rewrite list_lookup_total_insert_eq by exact Hlive.
      rewrite list_insert_insert_eq.
      replace (Edge.set_text (Edge.text (edgeHeap s !!! e))
                 (Edge.set_text (textOf s (EdgeRef e) ++ [Z.to_N key]) (edgeHeap s !!! e)))
        with (edgeHeap s !!! e) by (destruct (edgeHeap s !!! e); reflexivity).
      apply insert_same_edge. }
    rewrite Hheap, Hs0, Hst. clear.
    destruct s as [so ce sm mo vs es lk sh ct md vh eh]; destruct md; reflexivity.
Qed.

Lemma type_then_backspace_example :
  fst (onkeydown sampleMeasure BACKSPACE (fst (onkeypress sampleMeasure 98 labelledA)))
  = set_lastKey (Some BACKSPACE) labelledA.
Proof.
  assert (Hreach : reachable sampleMeasure labelledA)
    by (exists [DblClick (Point.mk 50 50); KeyPress 97]; reflexivity).
  assert (Hsel : selectedObject labelledA = Some (VertexRef 0)) by (vm_compute; reflexivity).
  assert (Hkey : (32 <= 98 <= 126)%Z) by lia.
  rewrite (type_then_backspace sampleMeasure labelledA (VertexRef 0) 98 Hreach Hsel Hkey).
  vm_compute. reflexivity.
Defined.

(** ** A double click on empty space *)

Lemma find_snoc {A : Type} (f : A -> bool) (l : list A) (a : A) :
  List.find f (l ++ [a])
  = match List.find f l with
    | Some x => Some x
    | None => if f a then Some a else None
    end.
Proof.
  induction l as [| b l IH]; [reflexivity |].
  cbn. destruct (f b); [reflexivity | exact IH].
Qed.

Lemma find_ext_in {A : Type} (f g : A -> bool) (l : list A) :
  (forall a, In a l -> f a = g a) -> List.find f l = List.find g l.
Proof.
  induction l as [| b l IH]; intros Hext; [reflexivity |].
  cbn. rewrite (Hext b) by (left; reflexivity).
  destruct (g b); [reflexivity |]. apply IH. intros a Ha. apply Hext. right. exact Ha.
Qed.

(** A finite number minus itself is +0. *)
Lemma sub_self_finite (x : float) :
  PrimFloat.is_finite x = true -> Prim2SF (x - x) = S754_zero false.
Proof.
  unfold PrimFloat.is_finite, PrimFloat.is_nan, PrimFloat.is_infinity. intros Hfin.
  rewrite !FloatAxioms.eqb_spec, abs_spec in Hfin. rewrite sub_spec.
  destruct (Prim2SF x) as [s | s | | s m e].
  - destruct s; reflexivity.
  - destruct s; discriminate Hfin.
  - discriminate Hfin.
  - unfold SF64sub, SFsub. rewrite Zmin_same. unfold shl_align.
    replace (IntDef.Z.sub e e) with 0%Z by (symmetry; apply Z.sub_diag). cbn [fst].
    replace (IntDef.Z.sub (cond_Zopp s (Z.pos m)) (cond_Zopp s (Z.pos m))) with 0%Z
      by (symmetry; apply Z.sub_diag).
    reflexivity.
Qed.

(** A vertex of the default radius contains its own center. *)
Lemma new_vertex_contains_center (x y : float) :
  PrimFloat.is_finite x = true -> PrimFloat.is_finite y = true ->
  Vertex.contains (Vertex.new x y) x y = true.
Proof.
  intros Hx Hy. unfold Vertex.contains. cbn [Vertex.x Vertex.y Vertex.radius Vertex.new].
  rewrite leb_spec, add_spec, !mul_spec.
  rewrite (sub_self_finite x Hx), (sub_self_finite y Hy).
  vm_compute. reflexivity.
Qed.

(** With an empty label narrower than the threshold, a new vertex is up to
    date: its radius is the default one. *)
Lemma new_vertex_upToDate (measureText : str -> float) (x y : float) :
  (measureText [] <? 50)%float = true -> upToDate measureText (Vertex.new x y).
Proof.
  intros Hw. unfold upToDate, Vertex.draw.
  change (makeSubscripts (Vertex.text (Vertex.new x y))) with (@nil N).
  replace (2 * VERTEX_RADIUS - VERTEX_RADIUS / 3)%float with 50%float
    by (vm_compute; reflexivity).
  rewrite Hw. reflexivity.
Qed.

(** A double click where nothing is (at a point with finite coordinates, the
    empty label being narrower than 50) adds one vertex: a new object at
    the point, with the default radius, no label and no offset, appended to
    the array and selected; no other object is written.  The new vertex is
    what a click at the same point selects next. *)
Theorem double_click_creates_vertex (measureText : str -> float) (s : State)
    (mouse : Point.t) :
  reachable measureText s ->
  selectObject s (Point.x mouse) (Point.y mouse) = None ->
  PrimFloat.is_finite (Point.x mouse) = true ->
  PrimFloat.is_finite (Point.y mouse) = true ->
  (measureText [] <? 50)%float = true ->
  let s' := fst (ondblclick measureText mouse s) in
  let v := length (vertexHeap s) in
  vertices s' = vertices s ++ [v]
  /\ vertexHeap s' = vertexHeap s ++ [Vertex.new (Point.x mouse) (Point.y mouse)]
  /\ edges s' = edges s
  /\ edgeHeap s' = edgeHeap s
  /\ selectedObject s' = Some (VertexRef v)
  /\ selectObject s' (Point.x mouse) (Point.y mouse) = Some (VertexRef v)
  /\ selectedObject (fst (onmousedown mouse s')) = Some (VertexRef v).
Proof.
  intros Hreach Hnone Hx Hy Hw. cbv zeta.
  pose proof (drawn_reachable measureText s Hreach) as Hd.
  assert (Hst : fst (ondblclick measureText mouse s)
                = set_vertices (vertices s ++ [length (vertexHeap s)])
                    (set_selectedObject (Some (VertexRef (length (vertexHeap s))))
                       (set_vertexHeap
                          (vertexHeap s ++ [Vertex.new (Point.x mouse) (Point.y mouse)]) s))).
  { unfold ondblclick. cbn [selectedObject set_selectedObject]. rewrite Hnone.
    rewrite draw_store. cbn [vertices vertexHeap set_vertices set_selectedObject set_vertexHeap].
    rewrite drawVertices_drawn; [reflexivity |].
    intros j Hj. apply in_app_or in Hj as [Hj | [<- | []]].
    - destruct (Hd j Hj) as [Hlt Hup]. rewrite lookup_total_app_l by exact Hlt. exact Hup.
    - rewrite list_lookup_total_middle by reflexivity. apply new_vertex_upToDate. exact Hw. }
  assert (Hfind : selectObject (fst (ondblclick measureText mouse s))
                    (Point.x mouse) (Point.y mouse)
                  = Some (VertexRef (length (vertexHeap s)))).
  { rewrite Hst. unfold selectObject in *.
    cbn [vertices vertexHeap set_vertices set_selectedObject set_vertexHeap].
    destruct (List.find _ (vertices s)) as [w |] eqn:Hv; [discriminate Hnone |].
    rewrite find_snoc.
    rewrite (find_ext_in _
               (fun v => Vertex.contains (vertexHeap s !!! v) (Point.x mouse) (Point.y mouse)))
      by (intros j Hj; rewrite lookup_total_app_l by (apply Hd; exact Hj); reflexivity).
    rewrite Hv, list_lookup_total_middle by reflexivity.
    rewrite new_vertex_contains_center by assumption. reflexivity. }
  rewrite Hst at 1 2 3 4 5.
  cbn [vertices vertexHeap edges edgeHeap selectedObject
       set_vertices set_selectedObject set_vertexHeap].
  do 5 (split; [reflexivity |]). split; [exact Hfind |].
  destruct (onmousedown_scene mouse (fst (ondblclick measureText mouse s))) as (_ & _ & ->).
  exact Hfind.
Qed.

(** A double click below the edge of the connected scene adds a third
    vertex, which the next click at that point selects. *)
Lemma double_click_creates_vertex_example :
  vertices (fst (ondblclick sampleMeasure (Point.mk 125 200) connectedScene)) = [0; 1; 2]
  /\ selectObject (fst (ondblclick sampleMeasure (Point.mk 125 200) connectedScene)) 125 200
     = Some (VertexRef 2).
Proof.
  assert (Hreach : reachable sampleMeasure connectedScene)
    by (exists (twoVertices ++ connectFirstToSecond)%list; reflexivity).
  assert (Hnone : selectObject connectedScene 125 200 = None) by (vm_compute; reflexivity).
  destruct (double_click_creates_vertex sampleMeasure connectedScene (Point.mk 125 200)
              Hreach Hnone eq_refl eq_refl eq_refl) as (Hv & _ & _ & _ & _ & Hfind & _).
  split; [rewrite Hv; vm_compute; reflexivity |].
  cbn [Point.x Point.y] in Hfind. rewrite Hfind. vm_compute. reflexivity.
Defined.

(** ** The Delete key, with an edge selected *)

Lemma filter_remove_one (E : nat) (l : list nat) :
  List.NoDup l -> In E l ->
  S (length (List.filter (fun e => negb (e =? E)) l)) = length l.
Proof.
  induction l as [| a l IH]; intros Hnd Hin; [destruct Hin |].
  inversion Hnd as [| ? ? Ha Hl]; subst. cbn [List.filter length].
  destruct (Nat.eqb_spec a E) as [-> | Hne]; cbn [negb].
  - f_equal. f_equal. transitivity (List.filter (fun _ => true) l); [| apply filter_all].
    apply List.filter_ext_in. intros b Hb. apply negb_true_iff. apply Nat.eqb_neq.
    intros ->. exact (Ha Hb).
  - cbn [length]. f_equal. apply IH; [exact Hl |].
    destruct Hin as [-> | Hin]; [contradiction | exact Hin].
Qed.

(** With an edge E selected, the Delete key removes E from the array of
    edges and nothing else: every vertex stays, the other edges stay in
    their order, no object is written, the selection is cleared.  In a store
    the editor can reach E was in the array once, so exactly one edge is
    gone. *)
Theorem delete_selected_edge (measureText : str -> float) (s : State) (E : nat) :
  selectedObject s = Some (EdgeRef E) ->
  let s' := fst (onkeydown measureText DELETE s) in
  vertices s' = vertices s
  /\ edges s' = List.filter (fun e => negb (e =? E)) (edges s)
  /\ ~ In E (edges s')
  /\ selectedObject s' = None
  /\ edgeHeap s' = edgeHeap s
  /\ currentEdge s' = currentEdge s
  /\ (reachable measureText s ->
      vertexHeap s' = vertexHeap s /\ S (length (edges s')) = length (edges s)).
Proof.
  intros Hsel. cbv zeta.
  pose proof (onkeydown_scene measureText DELETE s) as Hk. cbv zeta in Hk.
  rewrite Hsel in Hk. replace (DELETE =? DELETE)%Z with true in Hk by reflexivity.
  destruct Hk as (Hvs & Hes & Hs).
  destruct (handle_gesture measureText (KeyDown DELETE) s) as (_ & Hcur & _).
  cbn [handle] in Hcur.
  assert (Hes' : edges (fst (onkeydown measureText DELETE s))
                 = List.filter (fun e => negb (e =? E)) (edges s)).
  { rewrite Hes. apply List.filter_ext. intros e. cbn [Obj_eqb].
    rewrite !orb_false_r. reflexivity. }
  assert (Hvs' : vertices (fst (onkeydown measureText DELETE s)) = vertices s).
  { rewrite Hvs. cbn [Obj_eqb negb]. apply filter_all. }
  assert (Hheaps : vertexHeap (fst (onkeydown measureText DELETE s))
                   = fst (drawVertices measureText Canvas2D (vertices s) (vertexHeap s))
                   /\ edgeHeap (fst (onkeydown measureText DELETE s)) = edgeHeap s).
  { unfold onkeydown.
    replace (DELETE =? SHIFT)%Z with false by reflexivity.
    replace (DELETE =? CTRL)%Z with false by reflexivity.
    replace (DELETE =? BACKSPACE)%Z with false by reflexivity.
    replace (DELETE =? DELETE)%Z with true by reflexivity.
    destruct (mouseDown s); cbn [selectedObject set_lastKey]; rewrite Hsel;
      rewrite !draw_store, !spliceWhere_filter;
      cbn [vertices edges vertexHeap edgeHeap set_vertexHeap set_selectedObject
           set_edges set_vertices set_lastKey Obj_eqb negb];
      rewrite filter_all; split; reflexivity. }
  destruct Hheaps as [Hvh Heh].
  split; [exact Hvs' |]. split; [exact Hes' |]. split.
  { rewrite Hes'. intros Hin. apply List.filter_In in Hin as [_ Hne].
    rewrite Nat.eqb_refl in Hne. discriminate Hne. }
  split; [exact Hs |]. split; [exact Heh |]. split; [exact Hcur |].
  intros Hreach. split.
  - rewrite Hvh. apply drawVertices_drawn.
    intros v Hv. apply (drawn_reachable measureText s Hreach). exact Hv.
  - destruct (consistent_reachable measureText s Hreach) as (_ & Hnd & Hin).
    rewrite Hsel in Hin. rewrite Hes'. apply filter_remove_one; assumption.
Qed.

(** Delete on the selected edge of the connected scene leaves the two
    vertices and no edge. *)
Lemma delete_selected_edge_example :
  selectedObject labelledEdge = Some (EdgeRef 0)
  /\ vertices (fst (onkeydown sampleMeasure DELETE labelledEdge)) = [0; 1]
  /\ edges (fst (onkeydown sampleMeasure DELETE labelledEdge)) = [].
Proof.
  assert (Hsel : selectedObject labelledEdge = Some (EdgeRef 0)) by (vm_compute; reflexivity).
  destruct (delete_selected_edge sampleMeasure labelledEdge 0 Hsel) as (Hv & He & _).
  split; [exact Hsel |]. split; [rewrite Hv | rewrite He]; vm_compute; reflexivity.
Defined.

(** ** Dragging a vertex *)

(** While the selected vertex V is being moved, a mouse move puts V at the
    mouse position plus the offset recorded at the press, then snaps each
    coordinate to the other vertices as [snap] does.  Its radius, label and
    offsets stay; every other vertex object is untouched, and so are the
    arrays and the selection. *)
Theorem drag_moves_selected_vertex (measureText : str -> float) (s : State)
    (mouse : Point.t) (V : nat) :
  reachable measureText s -> movingObject s = true ->
  selectedObject s = Some (VertexRef V) ->
  let s' := fst (onmousemove measureText mouse s) in
  let v := vertexHeap s !!! V in
  let v' := vertexHeap s' !!! V in
  let xs := List.map (fun i => Vertex.x (vertexHeap s !!! i)) (otherVertices V s) in
  let ys := List.map (fun i => Vertex.y (vertexHeap s !!! i)) (otherVertices V s) in
  Vertex.x v' = snapAxis (Point.x mouse + Vertex.mouseOffsetX v)%float xs
  /\ Vertex.y v' = snapAxis (Point.y mouse + Vertex.mouseOffsetY v)%float ys
  /\ Vertex.radius v' = Vertex.radius v
  /\ Vertex.text v' = Vertex.text v
  /\ Vertex.mouseOffsetX v' = Vertex.mouseOffsetX v
  /\ Vertex.mouseOffsetY v' = Vertex.mouseOffsetY v
  /\ (forall j, j <> V -> vertexHeap s' !!! j = vertexHeap s !!! j)
  /\ vertices s' = vertices s
  /\ edges s' = edges s
  /\ selectedObject s' = selectedObject s.
Proof.
  intros Hreach Hmov Hsel. cbv zeta.
  destruct (selected_live measureText s (VertexRef V) Hreach Hsel) as [Hin Hlive].
  cbn [inScene] in Hin.
  pose proof (drawn_reachable measureText s Hreach) as Hd.
  destruct (onmousemove_scene measureText mouse s) as (Hvs & Hes & Hso).
  set (placed := <[V := Vertex.setAnchorPoint (vertexHeap s !!! V)
                            (Point.x mouse) (Point.y mouse)]> (vertexHeap s)).
  assert (Hlive' : V < length placed) by (subst placed; rewrite length_insert; exact Hlive).
  destruct (snap_loop V (vertices s) placed Hlive')
    as (_ & Hoth & Hx & Hy & Hr & Ht & Hox & Hoy).
  assert (Hself : placed !!! V
                  = Vertex.setAnchorPoint (vertexHeap s !!! V) (Point.x mouse) (Point.y mouse))
    by (subst placed; apply list_lookup_total_insert_eq; exact Hlive).
  assert (Hrest : forall j, j <> V -> placed !!! j = vertexHeap s !!! j)
    by (intros j Hj; subst placed; apply list_lookup_total_insert_ne; congruence).
  assert (Hheap : vertexHeap (fst (onmousemove measureText mouse s))
                  = fold_left (snapStep V) (vertices s) placed).
  { unfold onmousemove.
    match goal with
    | |- context [if movingObject ?s1 then _ else _] => set (s1' := s1)
    end.
    assert (H1 : vertexHeap s1' = vertexHeap s /\ vertices s1' = vertices s
                 /\ movingObject s1' = true /\ selectedObject s1' = Some (VertexRef V)).
    { subst s1'. destruct (negb _); [| repeat split; assumption].
      rewrite Hsel.
      destruct (selectObject _ _ _) as [[d | e] |];
        destruct (lastKeyIs SHIFT s); try (repeat split; assumption);
        destruct (lastKeyIs CTRL s); repeat split; assumption. }
    clearbody s1'. destruct H1 as (Hh1 & Hv1 & Hm1 & Hs1).
    rewrite Hm1, Hs1, draw_store. unfold snap.
    cbn [vertices vertexHeap set_vertexHeap]. rewrite Hh1, Hv1. fold placed.
    apply drawVertices_drawn. intros j Hj. destruct (Hd j Hj) as [_ Hup].
    destruct (Nat.eq_dec j V) as [-> | Hne].
    - apply (upToDate_same measureText (vertexHeap s !!! V)); [| | exact Hup].
      + rewrite Ht, Hself. reflexivity.
      + rewrite Hr, Hself. reflexivity.
    - rewrite Hoth, Hrest by exact Hne. exact Hup. }
  assert (Hmap : forall f : Vertex.t -> float,
             List.map (fun i => f (placed !!! i))
               (List.filter (fun i => negb (i =? V)) (vertices s))
             = List.map (fun i => f (vertexHeap s !!! i)) (otherVertices V s)).
  { intros f. unfold otherVertices. apply List.map_ext_in. intros i Hi.
    apply List.filter_In in Hi as [_ Hi]. rewrite Hrest; [reflexivity |].
    intros ->. rewrite Nat.eqb_refl in Hi. discriminate Hi. }
  rewrite Hheap, Hx, Hy, Hr, Ht, Hox, Hoy, !Hmap, Hself.
  do 6 (split; [reflexivity |]).
  split; [intros j Hj; rewrite Hoth by exact Hj; apply Hrest; exact Hj |].
  split; [exact Hvs |]. split; [exact Hes | exact Hso].
Qed.

(** The second vertex, pressed ten units off its center, is dragged to
    (65,130): it lands on (55,120), and its x snaps to the 50 of the first
    vertex, which does not move. *)
Lemma drag_moves_selected_vertex_example :
  movingObject draggingSecond = true
  /\ selectedObject draggingSecond = Some (VertexRef 1)
  /\ Vertex.x (vertexHeap (fst (onmousemove sampleMeasure (Point.mk 65 130) draggingSecond))
               !!! 1) = 50%float
  /\ Vertex.y (vertexHeap (fst (onmousemove sampleMeasure (Point.mk 65 130) draggingSecond))
               !!! 1) = 120%float
  /\ vertexHeap (fst (onmousemove sampleMeasure (Point.mk 65 130) draggingSecond)) !!! 0
     = Vertex.new 50 50.
Proof.
  assert (Hreach : reachable sampleMeasure draggingSecond)
    by (exists (twoVertices ++ [MouseDown (Point.mk 210 60)])%list; reflexivity).
  assert (Hmov : movingObject draggingSecond = true) by (vm_compute; reflexivity).
  assert (Hsel : selectedObject draggingSecond = Some (VertexRef 1))
    by (vm_compute; reflexivity).
  destruct (drag_moves_selected_vertex sampleMeasure draggingSecond (Point.mk 65 130) 1
              Hreach Hmov Hsel) as (Hx & Hy & _ & _ & _ & _ & Hoth & _).
  split; [exact Hmov |]. split; [exact Hsel |].
  split; [rewrite Hx; vm_compute; reflexivity |].
  split; [rewrite Hy; vm_compute; reflexivity |].
  rewrite Hoth by discriminate. vm_compute. reflexivity.
Defined.

(** ** What a click selects *)

Lemma find_first {A : Type} (f : A -> bool) (l : list A) (x : A) :
  List.find f l = Some x ->
  exists pre post, l = (pre ++ x :: post)%list /\ f x = true
                   /\ forall y, In y pre -> f y = false.
Proof.
  induction l as [| a l IH]; intros Hf; [discriminate Hf |].
  cbn in Hf. destruct (f a) eqn:Ha.
  - injection Hf as <-. exists [], l. split; [reflexivity |]. split; [exact Ha |].
    intros y [].
  - destruct (IH Hf) as (pre & post & -> & Hx & Hpre).
    exists (a :: pre), post. split; [reflexivity |]. split; [exact Hx |].
    intros y [<- | Hy]; [exact Ha | apply Hpre; exact Hy].
Qed.

(** [selectObject] returns the first vertex of the array that contains the
    point; an edge only when no vertex contains the point, and then the
    first such edge of the array; and nothing only when no vertex and no
    edge of the arrays contains the point. *)
Theorem selectObject_first_hit (s : State) (px py : float) :
  match selectObject s px py with
  | Some (VertexRef v) =>
      exists pre post, vertices s = (pre ++ v :: post)%list
        /\ Vertex.contains (vertexHeap s !!! v) px py = true
        /\ forall w, In w pre -> Vertex.contains (vertexHeap s !!! w) px py = false
  | Some (EdgeRef e) =>
      (forall w, In w (vertices s) -> Vertex.contains (vertexHeap s !!! w) px py = false)
      /\ exists pre post, edges s = (pre ++ e :: post)%list
           /\ Edge.contains (vertexHeap s) (edgeHeap s !!! e) px py = true
           /\ forall f, In f pre ->
                Edge.contains (vertexHeap s) (edgeHeap s !!! f) px py = false
  | None =>
      (forall w, In w (vertices s) -> Vertex.contains (vertexHeap s !!! w) px py = false)
      /\ (forall f, In f (edges s) ->
            Edge.contains (vertexHeap s) (edgeHeap s !!! f) px py = false)
  end.
Proof.
  unfold selectObject.
  destruct (List.find _ (vertices s)) as [v |] eqn:Hv.
  - exact (find_first _ _ _ Hv).
  - pose proof (List.find_none _ _ Hv) as Hnone.
    destruct (List.find _ (edges s)) as [e |] eqn:He.
    + split; [exact Hnone |]. exact (find_first _ _ _ He).
    + split; [exact Hnone |]. exact (List.find_none _ _ He).
Qed.

(** ** What the handlers never write *)

Lemma draw_vertex_frame (measureText : str -> float) (s : State) (j : nat) :
  sameButRadius (vertexHeap s !!! j) (vertexHeap (fst (draw measureText s)) !!! j).
Proof.
  rewrite draw_store. cbn [vertexHeap set_vertexHeap]. apply drawVertices_spec.
Qed.

(** Snapping a reference that is not live writes nothing. *)
Lemma snap_dead (vertex : nat) (l : list nat) : forall h : list Vertex.t,
  length h <= vertex -> fold_left (snapStep vertex) l h = h.
Proof.
  induction l as [| i l IH]; intros h Hge; [reflexivity |].
  cbn [fold_left].
  assert (Hstep : snapStep vertex h i = h).
  { unfold snapStep.
    destruct (_ <? _)%float; repeat rewrite (list_insert_ge h) by lia;
      destruct (_ <? _)%float; repeat rewrite (list_insert_ge h) by lia; reflexivity. }
  rewrite Hstep. apply IH. exact Hge.
Qed.

(** Snapping leaves every label as it is. *)
Lemma snap_text (vertex : nat) (l : list nat) (h : list Vertex.t) (j : nat) :
  Vertex.text (fold_left (snapStep vertex) l h !!! j) = Vertex.text (h !!! j).
Proof.
  destruct (le_lt_dec (length h) vertex) as [Hge | Hlt].
  - rewrite snap_dead by exact Hge. reflexivity.
  - destruct (snap_loop vertex l h Hlt) as (_ & Hoth & _ & _ & _ & Ht & _).
    destruct (Nat.eq_dec j vertex) as [-> | Hne]; [exact Ht |].
    rewrite Hoth by exact Hne. reflexivity.
Qed.

Lemma onmousemove_text (measureText : str -> float) (mouse : Point.t) (s : State) :
  (forall j, Vertex.text (vertexHeap (fst (onmousemove measureText mouse s)) !!! j)
             = Vertex.text (vertexHeap s !!! j))
  /\ (forall e, e < length (edgeHeap s) ->
        edgeHeap (fst (onmousemove measureText mouse s)) !!! e = edgeHeap s !!! e).
Proof.
  unfold onmousemove.
  match goal with
  | |- context [if movingObject ?s1 then _ else _] => set (s1' := s1)
  end.
  assert (H1 : vertexHeap s1' = vertexHeap s
               /\ forall e, e < length (edgeHeap s) -> edgeHeap s1' !!! e = edgeHeap s !!! e).
  { subst s1'. destruct (negb _); [| split; reflexivity].
    destruct (selectedObject s) as [[v | e'] |]; try (split; reflexivity).
    destruct (selectObject _ _ _) as [[d | e'] |];
      destruct (lastKeyIs SHIFT s);
      try (split; reflexivity);
      try (split; [reflexivity |]; intros e He; unfold connect; cbn;
           apply lookup_total_app_l; exact He);
      destruct (lastKeyIs CTRL s);
      try (split; reflexivity);
      split; [reflexivity |]; intros e He; unfold connect; cbn;
      apply lookup_total_app_l; exact He. }
  clearbody s1'. destruct H1 as [Hh1 He1]. rewrite <- Hh1.
  assert (Hdraw : forall t,
            (forall j, Vertex.text (vertexHeap t !!! j) = Vertex.text (vertexHeap s1' !!! j)) ->
            edgeHeap t = edgeHeap s1' ->
            (forall j, Vertex.text (vertexHeap (fst (draw measureText t)) !!! j)
                       = Vertex.text (vertexHeap s1' !!! j))
            /\ (forall e, e < length (edgeHeap s) ->
                  edgeHeap (fst (draw measureText t)) !!! e = edgeHeap s !!! e)).
  { intros t Ht Hte. split.
    - intros j. destruct (draw_vertex_frame measureText t j) as (_ & _ & Hx & _).
      rewrite Hx. apply Ht.
    - intros e He. rewrite draw_store. cbn [edgeHeap set_vertexHeap]. rewrite Hte.
      apply He1. exact He. }
  destruct (movingObject s1'); [| apply Hdraw; [intros j |]; reflexivity].
  destruct (selectedObject s1') as [[v | e'] |];
    try (split; [intros j; reflexivity | exact He1]).
  apply Hdraw; [| reflexivity].
  intros j. unfold snap. cbn [vertices vertexHeap set_vertexHeap].
  rewrite snap_text, list_lookup_total_insert.
  case_decide as Hd; [destruct Hd as [-> _] |]; reflexivity.
Qed.

Lemma drawWith_vertex_frame (measureText : str -> float) (c : Surface) (s : State) (j : nat) :
  sameButRadius (vertexHeap s !!! j) (vertexHeap (fst (drawWith measureText c s)) !!! j).
Proof.
  rewrite drawWith_store. cbn [vertexHeap set_vertexHeap]. apply drawVertices_spec.
Qed.

(** What a label change and the redraw after it leave as they were: every
    position, and the endpoints and the kind of every edge. *)
Lemma retext_frame (measureText : str -> float) (s : State) (o : Obj) (t : str) :
  let s' := fst (draw measureText (setText o t s)) in
  (forall e, Edge.v1 (edgeHeap s' !!! e) = Edge.v1 (edgeHeap s !!! e)
             /\ Edge.v2 (edgeHeap s' !!! e) = Edge.v2 (edgeHeap s !!! e)
             /\ Edge.kind (edgeHeap s' !!! e) = Edge.kind (edgeHeap s !!! e))
  /\ (forall j, Vertex.x (vertexHeap s' !!! j) = Vertex.x (vertexHeap s !!! j)
                /\ Vertex.y (vertexHeap s' !!! j) = Vertex.y (vertexHeap s !!! j)).
Proof.
  cbv zeta. destruct (setText_geometry s o t) as [Hgv Hge]. split.
  - intros e. rewrite draw_store. cbn [edgeHeap set_vertexHeap]. apply Hge.
  - intros j. destruct (draw_vertex_frame measureText (setText o t s) j) as (Hx & Hy & _).
    destruct (Hgv j) as [Hx' Hy']. split; congruence.
Qed.

(** What the handlers never write.  The endpoints and the kind of an edge
    never change once the edge exists.  The position of a vertex is written
    by a mouse move only, and a label by a key only: every other handler
    leaves the positions of the existing vertices, respectively the labels
    of the existing vertices and edges, as they were. *)
Theorem objects_frame (measureText : str -> float) (ev : Event) (s : State) :
  let s' := fst (handle measureText ev s) in
  (forall e, e < length (edgeHeap s) ->
     Edge.v1 (edgeHeap s' !!! e) = Edge.v1 (edgeHeap s !!! e)
     /\ Edge.v2 (edgeHeap s' !!! e) = Edge.v2 (edgeHeap s !!! e)
     /\ Edge.kind (edgeHeap s' !!! e) = Edge.kind (edgeHeap s !!! e))
  /\ match ev with
     | MouseMove _ => True
     | _ =>
         forall j, j < length (vertexHeap s) ->
           Vertex.x (vertexHeap s' !!! j) = Vertex.x (vertexHeap s !!! j)
           /\ Vertex.y (vertexHeap s' !!! j) = Vertex.y (vertexHeap s !!! j)
     end
  /\ match ev with
     | KeyPress _ | KeyDown _ => True
     | _ =>
         (forall j, j < length (vertexHeap s) ->
            Vertex.text (vertexHeap s' !!! j) = Vertex.text (vertexHeap s !!! j))
         /\ (forall e, e < length (edgeHeap s) ->
               Edge.text (edgeHeap s' !!! e) = Edge.text (edgeHeap s !!! e))
     end.
Proof.
  cbv zeta. destruct ev as [m | m | m | m | k | k | k | |]; cbn [handle].
  - (* press *)
    assert (He : edgeHeap (fst (onmousedown m s)) = edgeHeap s
                 /\ forall j, sameButRadius (vertexHeap s !!! j)
                                (vertexHeap (fst (onmousedown m s)) !!! j)
                              \/ vertexHeap (fst (onmousedown m s)) !!! j
                                 = Vertex.setStartPoint (vertexHeap s !!! j)
                                     (Point.x m) (Point.y m)).
    { unfold onmousedown. cbn [fst selectedObject set_selectedObject].
      destruct (selectObject _ _ _) as [[v | e] |];
        try (split; [reflexivity | intros j; left; apply sameButRadius_refl]).
      destruct (shift _ && isNull _);
        [split; [reflexivity | intros j; left; apply sameButRadius_refl] |].
      destruct (ctrl _ && isNull _);
        [split; [reflexivity | intros j; left; apply sameButRadius_refl] |].
      split; [reflexivity |]. intros j. cbn. rewrite list_lookup_total_insert.
      case_decide as Hd; [destruct Hd as [-> _]; right; reflexivity |].
      left. apply sameButRadius_refl. }
    destruct He as [-> Hv]. split; [intros e _; repeat split |].
    split; [| split; [| intros e _; reflexivity]].
    + intros j _. destruct (Hv j) as [(Hx & Hy & _) | ->]; split; solve [assumption | reflexivity].
    + intros j _. destruct (Hv j) as [(_ & _ & Ht & _) | ->]; [exact Ht | reflexivity].
  - (* release *)
    destruct (onmouseup_edges m s) as (-> & _).
    assert (Hv : vertexHeap (fst (onmouseup m s)) = vertexHeap s).
    { unfold onmouseup. cbn [fst currentEdge set_movingObject].
      destruct (currentEdge s) as [[v d | v d | e] |]; try reflexivity.
      destruct (negb _); reflexivity. }
    rewrite Hv. repeat split.
  - (* move *)
    destruct (onmousemove_text measureText m s) as [Ht He].
    split; [intros e Hlt; rewrite He by exact Hlt; repeat split |].
    split; [exact I |]. split; [intros j _; apply Ht |].
    intros e Hlt. rewrite He by exact Hlt. reflexivity.
  - (* double click *)
    assert (He : edgeHeap (fst (ondblclick measureText m s)) = edgeHeap s
                 /\ forall j, j < length (vertexHeap s) ->
                      sameButRadius (vertexHeap s !!! j)
                        (vertexHeap (fst (ondblclick measureText m s)) !!! j)).
    { unfold ondblclick. cbn [selectedObject set_selectedObject].
      destruct (selectObject _ _ _);
        [split; [reflexivity | intros j _; apply sameButRadius_refl] |].
      split; [rewrite draw_store; reflexivity |].
      intros j Hlt.
      match goal with
      | |- context [draw measureText ?t] =>
          pose proof (draw_vertex_frame measureText t j) as Hf
      end.
      cbn [vertexHeap set_vertices set_selectedObject set_vertexHeap] in Hf.
      rewrite lookup_total_app_l in Hf by exact Hlt. exact Hf. }
    destruct He as [-> Hv]. split; [intros e _; repeat split |].
    split; [| split; [| intros e _; reflexivity]].
    + intros j Hlt. destruct (Hv j Hlt) as (Hx & Hy & _). split; assumption.
    + intros j Hlt. destruct (Hv j Hlt) as (_ & _ & Ht & _). exact Ht.
  - (* key down *)
    split; [| split; [| exact I]].
    + intros e _. unfold onkeydown.
      set (s0 := if mouseDown s then s else set_lastKey (Some k) s).
      assert (H0 : edgeHeap s0 = edgeHeap s) by (subst s0; destruct (mouseDown s); reflexivity).
      clearbody s0. rewrite <- H0.
      destruct (k =? SHIFT)%Z; [repeat split |]. destruct (k =? CTRL)%Z; [repeat split |].
      destruct (selectedObject s0) as [selected |]; [| repeat split].
      destruct (k =? BACKSPACE)%Z; [apply retext_frame |].
      destruct (k =? DELETE)%Z; [| repeat split].
      rewrite draw_store. repeat split.
    + intros j _. unfold onkeydown.
      set (s0 := if mouseDown s then s else set_lastKey (Some k) s).
      assert (H0 : vertexHeap s0 = vertexHeap s)
        by (subst s0; destruct (mouseDown s); reflexivity).
      clearbody s0. rewrite <- H0.
      destruct (k =? SHIFT)%Z; [repeat split |]. destruct (k =? CTRL)%Z; [repeat split |].
      destruct (selectedObject s0) as [selected |]; [| repeat split].
      destruct (k =? BACKSPACE)%Z; [apply retext_frame |].
      destruct (k =? DELETE)%Z; [| repeat split].
      match goal with
      | |- context [draw measureText ?t] =>
          destruct (draw_vertex_frame measureText t j) as (Hx & Hy & _)
      end.
      split; assumption.
  - (* key up *)
    assert (He : fst (onkeyup k s) = s \/ fst (onkeyup k s) = set_shift false s
                 \/ fst (onkeyup k s) = set_ctrl false s).
    { unfold onkeyup. destruct (k =? SHIFT)%Z; [right; left; reflexivity |].
      destruct (k =? CTRL)%Z; [right; right; reflexivity | left; reflexivity]. }
    destruct He as [-> | [-> | ->]]; repeat split.
  - (* key press *)
    split; [| split; [| exact I]].
    + intros e _. unfold onkeypress. destruct (selectedObject s); [| repeat split].
      destruct (_ && _); [apply retext_frame | repeat split].
    + intros j _. unfold onkeypress. destruct (selectedObject s); [| repeat split].
      destruct (_ && _); [apply retext_frame | repeat split].
  - (* PNG export *)
    unfold saveAsPNG.
    pose proof (drawWith_store measureText Canvas2D (set_selectedObject None s)) as Hst.
    pose proof (fun j => drawWith_vertex_frame measureText Canvas2D
                           (set_selectedObject None s) j) as Hf.
    destruct (drawWith measureText Canvas2D (set_selectedObject None s)) as [s' [| err]];
      cbn [andThen fst vertexHeap edgeHeap set_selectedObject] in *;
      (split; [intros e _; rewrite Hst; repeat split |]);
      (split; [intros j _; destruct (Hf j) as (Hx & Hy & _); split; assumption |]);
      (split; [intros j _; destruct (Hf j) as (_ & _ & Ht & _); exact Ht |]);
      intros e _; rewrite Hst; reflexivity.
  - (* LaTeX export *)
    unfold saveAsLaTeX.
    pose proof (drawWith_store measureText LaTeXDrawer (set_selectedObject None s)) as Hst.
    pose proof (fun j => drawWith_vertex_frame measureText LaTeXDrawer
                           (set_selectedObject None s) j) as Hf.
    destruct (drawWith measureText LaTeXDrawer (set_selectedObject None s)) as [s' [| err]];
      cbn [andThen fst vertexHeap edgeHeap set_selectedObject] in *;
      (split; [intros e _; rewrite Hst; repeat split |]);
      (split; [intros j _; destruct (Hf j) as (Hx & Hy & _); split; assumption |]);
      (split; [intros j _; destruct (Hf j) as (_ & _ & Ht & _); exact Ht |]);
      intros e _; rewrite Hst; reflexivity.
Qed.

(** What adds to the arrays and what removes from them.  A vertex is added
    by a double click only (at most one, at the end of the array) and an
    edge by the release of the mouse only (at most one, the edge under
    construction, at the end of the array); the Delete key is the only
    handler that removes, and it keeps what it does not remove in order.
    Every other handler leaves both arrays as they are. *)
Theorem arrays_change_only_by (measureText : str -> float) (ev : Event) (s : State) :
  let s' := fst (handle measureText ev s) in
  match ev with
  | DblClick _ =>
      edges s' = edges s
      /\ (vertices s' = vertices s \/ vertices s' = vertices s ++ [length (vertexHeap s)])
  | MouseUp _ =>
      vertices s' = vertices s
      /\ (edges s' = edges s
          \/ exists e, currentEdge s = Some (NewEdge e) /\ edges s' = edges s ++ [e])
  | KeyDown key =>
      if (key =? DELETE)%Z
      then exists keepVertex keepEdge,
             vertices s' = List.filter keepVertex (vertices s)
             /\ edges s' = List.filter keepEdge (edges s)
      else vertices s' = vertices s /\ edges s' = edges s
  | _ => vertices s' = vertices s /\ edges s' = edges s
  end.
Proof.
  cbv zeta. destruct ev as [m | m | m | m | k | k | k | |]; cbn [handle].
  - destruct (onmousedown_scene m s) as (Hv & He & _). split; assumption.
  - destruct (onmouseup_scene m s) as (Hv & _). split; [exact Hv |].
    destruct (onmouseup_edges m s) as (_ & _ & He). rewrite He.
    destruct (currentEdge s) as [[v d | v d | e] |]; try (left; reflexivity).
    destruct (containsEdge s e); [left; reflexivity |].
    right. exists e. split; reflexivity.
  - destruct (onmousemove_scene measureText m s) as (Hv & He & _). split; assumption.
  - destruct (ondblclick_scene measureText m s) as (He & Hrest). split; [exact He |].
    destruct (selectObject s _ _); destruct Hrest as (Hv & _); [left | right]; exact Hv.
  - pose proof (onkeydown_scene measureText k s) as Hk. cbv zeta in Hk.
    destruct (selectedObject s) as [selected |].
    + destruct (k =? DELETE)%Z.
      * destruct Hk as (Hv & He & _). eexists. eexists. split; eassumption.
      * destruct Hk as (Hv & He & _). split; assumption.
    + destruct Hk as (Hv & He & _). destruct (k =? DELETE)%Z; [| split; assumption].
      exists (fun _ => true), (fun _ => true). rewrite !filter_all. split; assumption.
  - destruct (onkeyup_scene k s) as (Hv & He & _). split; assumption.
  - destruct (onkeypress_scene measureText k s) as (Hv & He & _). split; assumption.
  - destruct (save_scene measureText Canvas2D s) as (Hv & He & _). split; assumption.
  - destruct (save_scene measureText LaTeXDrawer s) as (Hv & He & _). split; assumption.
Qed.

(** ** Labels without subscripts *)

Lemma search_without_underscore (text : str) :
  (forall c, In c text -> c <> UNDERSCORE) ->
  scanSubscripts (fun m _ => [m]) (fun _ => @nil str) text = [].
Proof.
  induction text as [| c rest IH]; intros Hno; [reflexivity |].
  rewrite scanSubscripts_cons.
  rewrite matchSubscript_not_underscore by (apply Hno; left; reflexivity).
  apply IH. intros d Hd. apply Hno. right. exact Hd.
Qed.

(** A label with no underscore in it is left as it is by both formatters:
    the search finds nothing and no replacement is made. *)
Theorem label_without_underscore (text : str) :
  (forall c, In c text -> c <> UNDERSCORE) ->
  matchSubscripts text = None
  /\ makeSubscripts text = text
  /\ makeLaTeXSubscripts text = text.
Proof.
  intros Hno.
  assert (Hm : matchSubscripts text = None)
    by (unfold matchSubscripts; rewrite search_without_underscore by exact Hno; reflexivity).
  unfold makeSubscripts, makeLaTeXSubscripts. rewrite Hm. repeat split.
Qed.

Lemma label_without_underscore_example :
  makeSubscripts (js "q12") = js "q12" /\ makeLaTeXSubscripts (js "q12") = js "q12".
Proof.
  refine (proj2 (label_without_underscore (js "q12") _)).
  intros c Hc. vm_compute in Hc.
  destruct Hc as [<- | [<- | [<- | []]]]; discriminate.
Defined.

(** ** The connect gesture, from the press to the release *)

(** A redraw of a drawn store writes nothing. *)
Lemma draw_drawn (measureText : str -> float) (s : State) :
  drawn measureText s -> draw measureText s = (s, Normal).
Proof.
  intros Hd. pose proof (draw_completes measureText s) as Hn.
  pose proof (draw_store measureText s) as Hst.
  rewrite drawVertices_drawn in Hst by (intros v Hv; apply Hd; exact Hv).
  destruct (draw measureText s) as [s' r]. cbn [fst snd] in *. subst.
  destruct s; reflexivity.
Qed.

(** The press on a vertex with the modifier of a kind held and no edge under
    construction starts a temporary edge of that kind. *)
Lemma onmousedown_starts (mouse : Point.t) (s : State) (A : nat) (k : Kind) :
  selectObject s (Point.x mouse) (Point.y mouse) = Some (VertexRef A) ->
  currentEdge s = None -> heldFor k s = true ->
  fst (onmousedown mouse s)
  = set_mouseDown true
      (set_currentEdge (Some (tempFor k A mouse))
         (set_selectedObject (Some (VertexRef A)) (set_sourceMouse (Some mouse) s))).
Proof.
  intros Hsel Hcur Hheld. unfold onmousedown. cbn [fst selectedObject set_selectedObject].
  change (selectObject (set_sourceMouse (Some mouse) s) (Point.x mouse) (Point.y mouse))
    with (selectObject s (Point.x mouse) (Point.y mouse)).
  rewrite Hsel. cbn [shift ctrl currentEdge set_selectedObject set_sourceMouse].
  rewrite Hcur. cbn [isNull].
  destruct k; cbn [heldFor tempFor] in *.
  - rewrite Hheld. reflexivity.
  - apply andb_true_iff in Hheld as [Hs Hc]. apply negb_true_iff in Hs.
    rewrite Hs, Hc. reflexivity.
Qed.

(** A mouse move over a vertex, with an edge under construction from the
    selected vertex and the key of a kind as the last key, puts an edge of
    that kind between the two vertices under construction. *)
Lemma onmousemove_connects (measureText : str -> float) (mouse : Point.t) (s : State)
    (A B : nat) (k : Kind) :
  currentEdge s <> None -> selectedObject s = Some (VertexRef A) ->
  selectObject s (Point.x mouse) (Point.y mouse) = Some (VertexRef B) ->
  lastKey s = Some (keyOfKind k) -> movingObject s = false ->
  onmousemove measureText mouse s = draw measureText (connect k A B s).
Proof.
  intros Hcur Hsel Hdest Hkey Hmov. unfold onmousemove.
  destruct (currentEdge s) as [c |] eqn:Hc; [| congruence]. cbn [isNull negb].
  rewrite Hsel, Hdest. unfold lastKeyIs. rewrite Hkey.
  destruct k; cbn [keyOfKind].
  - replace (SHIFT =? SHIFT)%Z with true by reflexivity.
    change (movingObject (connect Undirected A B s)) with (movingObject s).
    rewrite Hmov. reflexivity.
  - replace (CTRL =? SHIFT)%Z with false by reflexivity.
    replace (CTRL =? CTRL)%Z with true by reflexivity.
    change (movingObject (connect Directed A B s)) with (movingObject s).
    rewrite Hmov. reflexivity.
Qed.

(** The whole gesture.  In a store the editor can reach, with the mouse up,
    the modifier of a kind held and last pressed: pressing the mouse on a
    vertex A, moving it onto a vertex B and releasing it there leaves
    exactly one edge between A and B in the array.  When there was none, it
    is a new edge of that kind from A to B, appended to the array;
    otherwise the array is as before.  No vertex is written, A is selected,
    nothing is left under construction and the last key is forgotten. *)
Theorem connect_gesture (measureText : str -> float) (s : State) (k : Kind)
    (pA pB : Point.t) (A B : nat) :
  reachable measureText s -> mouseDown s = false ->
  lastKey s = Some (keyOfKind k) -> heldFor k s = true ->
  selectObject s (Point.x pA) (Point.y pA) = Some (VertexRef A) ->
  selectObject s (Point.x pB) (Point.y pB) = Some (VertexRef B) ->
  let s' := run measureText [MouseDown pA; MouseMove pB; MouseUp pB] s in
  let e := length (edgeHeap s) in
  length (edgesBetween A B s') = 1
  /\ (edgesBetween A B s = [] -> edges s' = edges s ++ [e])
  /\ (edgesBetween A B s <> [] -> edges s' = edges s)
  /\ edgeHeap s' = edgeHeap s ++ [Edge.new k A B]
  /\ vertices s' = vertices s
  /\ vertexHeap s' = vertexHeap s
  /\ selectedObject s' = Some (VertexRef A)
  /\ currentEdge s' = None
  /\ mouseDown s' = false
  /\ lastKey s' = None.
Proof.
  intros Hreach Hup Hkey Hheld HA HB. cbv zeta.
  destruct (at_rest_reachable measureText s Hreach Hup) as [Hcur Hmov].
  pose proof (drawn_reachable measureText s Hreach) as Hd.
  destruct (wellFormed_reachable measureText s Hreach) as (Hlive & _ & _).
  cbn [run fold_left handle].
  rewrite (onmousedown_starts pA s A k HA Hcur Hheld).
  set (s1 := set_mouseDown true _).
  rewrite (onmousemove_connects measureText pB s1 A B k);
    [| discriminate | reflexivity | exact HB | exact Hkey | exact Hmov].
  rewrite draw_drawn by (intros v Hv; apply Hd; exact Hv). cbn [fst].
  set (s2 := connect k A B s1).
  assert (Hreach3 : reachable measureText (fst (onmouseup pB s2))).
  { replace (fst (onmouseup pB s2))
      with (run measureText [MouseDown pA; MouseMove pB; MouseUp pB] s).
    - destruct Hreach as [evs ->]. exists (evs ++ [MouseDown pA; MouseMove pB; MouseUp pB])%list.
      unfold run. rewrite fold_left_app. reflexivity.
    - cbn [run fold_left handle].
      rewrite (onmousedown_starts pA s A k HA Hcur Hheld). fold s1.
      rewrite (onmousemove_connects measureText pB s1 A B k);
        [| discriminate | reflexivity | exact HB | exact Hkey | exact Hmov].
      rewrite draw_drawn by (intros v Hv; apply Hd; exact Hv). reflexivity. }
  destruct (wellFormed_reachable measureText _ Hreach3) as (_ & _ & Huniq).
  destruct (onmouseup_edges pB s2) as (Hh & Hc & He).
  destruct (onmouseup_scene pB s2) as (Hvs & Hso).
  change (currentEdge s2) with (Some (NewEdge (length (edgeHeap s)))) in He.
  change (edges s2) with (edges s) in He.
  change (edgeHeap s2) with (edgeHeap s ++ [Edge.new k A B]) in Hh.
  change (vertices s2) with (vertices s) in Hvs.
  change (selectedObject s2) with (Some (VertexRef A)) in Hso.
  pose proof (containsEdge_edgesBetween s2 (length (edgeHeap s))) as Hcont.
  change (edgeHeap s2) with (edgeHeap s ++ [Edge.new k A B]) in Hcont.
  rewrite list_lookup_total_middle in Hcont by reflexivity.
  cbn [Edge.v1 Edge.v2 Edge.new] in Hcont.
  assert (Hsame : edgesBetween A B s2 = edgesBetween A B s).
  { unfold edgesBetween. change (edges s2) with (edges s).
    change (edgeHeap s2) with (edgeHeap s ++ [Edge.new k A B]).
    apply List.filter_ext_in. intros i Hi.
    rewrite lookup_total_app_l by (apply Hlive; exact Hi). reflexivity. }
  rewrite Hsame in Hcont.
  assert (Hfields : vertexHeap (fst (onmouseup pB s2)) = vertexHeap s
                    /\ mouseDown (fst (onmouseup pB s2)) = false
                    /\ lastKey (fst (onmouseup pB s2)) = None).
  { unfold onmouseup. cbn [fst currentEdge set_movingObject].
    change (currentEdge s2) with (Some (NewEdge (length (edgeHeap s)))).
    cbv iota. destruct (negb _); repeat split. }
  destruct Hfields as (Hvh & Hmd & Hlk).
  split.
  { specialize (Huniq A B). unfold edgesBetween in *. rewrite Hh, He in *.
    assert (Hext : forall l, (forall i, In i l -> i < length (edgeHeap s)) ->
              List.filter (fun i => connects A B ((edgeHeap s ++ [Edge.new k A B]) !!! i)) l
              = List.filter (fun i => connects A B (edgeHeap s !!! i)) l).
    { intros l Hl. apply List.filter_ext_in. intros i Hi.
      rewrite lookup_total_app_l by (apply Hl; exact Hi). reflexivity. }
    destruct (containsEdge s2 (length (edgeHeap s))) eqn:Hce.
    - rewrite Hext in * by exact Hlive.
      destruct (List.filter _ (edges s)); [| cbn in *; lia].
      exfalso. apply (proj1 Hcont); reflexivity.
    - rewrite List.filter_app, length_app in *. cbn [List.filter] in *.
      rewrite list_lookup_total_middle in * by reflexivity.
      assert (Hconn : connects A B (Edge.new k A B) = true)
        by (unfold connects; cbn; rewrite !Nat.eqb_refl; reflexivity).
      rewrite Hconn in *. cbn [length] in *. lia. }
  split.
  { intros Hnil. rewrite He. destruct (containsEdge s2 _); [| reflexivity].
    exfalso. apply (proj1 Hcont); [reflexivity | exact Hnil]. }
  split.
  { intros Hne. rewrite He. apply Hcont in Hne. rewrite Hne. reflexivity. }
  split; [exact Hh |]. split; [exact Hvs |]. split; [exact Hvh |].
  split; [exact Hso |]. split; [exact Hc |]. split; [exact Hmd | exact Hlk].
Qed.

(** With Shift held and last pressed, the drag from the first vertex to the
    second creates the undirected edge between them. *)
Lemma connect_gesture_example :
  edges (run sampleMeasure
           [MouseDown (Point.mk 50 50); MouseMove (Point.mk 200 50); MouseUp (Point.mk 200 50)]
           shiftHeld) = [0]
  /\ edgeHeap (run sampleMeasure
                 [MouseDown (Point.mk 50 50); MouseMove (Point.mk 200 50);
                  MouseUp (Point.mk 200 50)]
                 shiftHeld) = [Edge.new Undirected 0 1].
Proof.
  assert (Hreach : reachable sampleMeasure shiftHeld)
    by (exists (twoVertices ++ [KeyDown SHIFT])%list; reflexivity).
  destruct (connect_gesture sampleMeasure shiftHeld Undirected
              (Point.mk 50 50) (Point.mk 200 50) 0 1 Hreach)
    as (_ & Hnew & _ & Hheap & _); try (vm_compute; reflexivity).
  split.
  - rewrite Hnew by (vm_compute; reflexivity). vm_compute. reflexivity.
  - rewrite Hheap. vm_compute. reflexivity.
Defined.

(** A drag started with a modifier held but not last pressed goes nowhere.
    The press starts a temporary edge, since it tests the flag of the
    modifier; the mouse moves look at the last key, find neither Shift nor
    Control, and leave the store as it is, the temporary edge not even
    following the mouse; the release discards the temporary edge.  This is
    the case of a second drag made with Shift still held after a first edge
    was completed, the release having reset the last key. *)
Theorem drag_without_last_key (measureText : str -> float) (s : State) (k : Kind)
    (pA : Point.t) (A : nat) :
  reachable measureText s -> mouseDown s = false -> heldFor k s = true ->
  lastKeyIs SHIFT s = false -> lastKeyIs CTRL s = false ->
  selectObject s (Point.x pA) (Point.y pA) = Some (VertexRef A) ->
  let s1 := fst (onmousedown pA s) in
  currentEdge s1 = Some (tempFor k A pA)
  /\ (forall mouse, onmousemove measureText mouse s1 = (s1, Normal))
  /\ (forall mouse,
        let s2 := fst (onmouseup mouse s1) in
        currentEdge s2 = None /\ edges s2 = edges s /\ edgeHeap s2 = edgeHeap s
        /\ vertices s2 = vertices s /\ vertexHeap s2 = vertexHeap s).
Proof.
  intros Hreach Hup Hheld Hshift Hctrl HA. cbv zeta.
  destruct (at_rest_reachable measureText s Hreach Hup) as [Hcur Hmov].
  pose proof (drawn_reachable measureText s Hreach) as Hd.
  rewrite (onmousedown_starts pA s A k HA Hcur Hheld).
  set (s1 := set_mouseDown true _).
  split; [reflexivity |]. split.
  - intros mouse. unfold onmousemove.
    change (currentEdge s1) with (Some (tempFor k A pA)). cbn [isNull negb].
    change (selectedObject s1) with (Some (VertexRef A)).
    change (lastKeyIs SHIFT s1) with (lastKeyIs SHIFT s).
    change (lastKeyIs CTRL s1) with (lastKeyIs CTRL s).
    rewrite Hshift, Hctrl.
    assert (Hsame : (match selectObject s1 (Point.x mouse) (Point.y mouse) with
                     | Some (VertexRef _) => s1
                     | _ => s1
                     end) = s1)
      by (destruct (selectObject s1 _ _) as [[d | e] |]; reflexivity).
    rewrite Hsame. change (movingObject s1) with (movingObject s). rewrite Hmov.
    apply draw_drawn. intros v Hv. apply Hd. exact Hv.
  - intros mouse. unfold onmouseup. cbn [fst currentEdge set_movingObject].
    change (currentEdge s1) with (Some (tempFor k A pA)).
    destruct k; repeat split.
Qed.

(** After the connect gesture of the connected scene Shift is still held,
    but the release has reset the last key: a second drag, from the second
    vertex towards the first, does not follow the mouse and creates
    nothing. *)
Lemma drag_without_last_key_example :
  shift connectedScene = true
  /\ lastKey connectedScene = None
  /\ onmousemove sampleMeasure (Point.mk 50 50)
       (fst (onmousedown (Point.mk 200 50) connectedScene))
     = (fst (onmousedown (Point.mk 200 50) connectedScene), Normal)
  /\ currentEdge (fst (onmousedown (Point.mk 200 50) connectedScene))
     = Some (TempEdge 1 (Point.mk 200 50)).
Proof.
  assert (Hreach : reachable sampleMeasure connectedScene)
    by (exists (twoVertices ++ connectFirstToSecond)%list; reflexivity).
  destruct (drag_without_last_key sampleMeasure connectedScene Undirected
              (Point.mk 200 50) 1 Hreach) as (Hc & Hmove & _);
    try (vm_compute; reflexivity).
  split; [vm_compute; reflexivity |]. split; [vm_compute; reflexivity |].
  split; [apply Hmove | exact Hc].
Defined.

(** ** The radius of the vertices of the scene *)

(** In every store the editor can reach, the radius of every vertex of the
    array is the one its label calls for: the default radius when the label
    as drawn is narrower than 50, half its width plus the padding
    otherwise.  Every handler that writes a label or creates a vertex
    redraws before it returns. *)
Theorem radius_follows_label (measureText : str -> float) (s : State) (v : nat) :
  reachable measureText s -> In v (vertices s) ->
  let vertex := vertexHeap s !!! v in
  let width := measureText (makeSubscripts (Vertex.text vertex)) in
  v < length (vertexHeap s)
  /\ Vertex.radius vertex
     = if (width <? 50)%float then VERTEX_RADIUS else (width / 2 + VERTEX_PADDING)%float.
Proof.
  intros Hreach Hin. cbv zeta.
  destruct (drawn_reachable measureText s Hreach v Hin) as [Hlt Hup].
  split; [exact Hlt |].
  unfold upToDate, Vertex.draw in Hup.
  replace (2 * VERTEX_RADIUS - VERTEX_RADIUS / 3)%float with 50%float in Hup
    by (vm_compute; reflexivity).
  rewrite <- Hup. destruct (_ <? _)%float; reflexivity.
Qed.

(** The vertex labelled "ab" keeps the default radius; once its label is
    five characters wide (60 units) its radius is 40. *)
Lemma radius_follows_label_example :
  Vertex.radius (vertexHeap labelledVertex !!! 0) = 30%float
  /\ Vertex.radius (vertexHeap labelledWide !!! 0) = 40%float.
Proof.
  assert (Hreach : reachable sampleMeasure labelledVertex)
    by (exists [DblClick (Point.mk 50 50); KeyPress 97; KeyPress 98]; reflexivity).
  assert (Hin : In 0 (vertices labelledVertex)) by (vm_compute; left; reflexivity).
  assert (Hreach' : reachable sampleMeasure labelledWide)
    by (exists [DblClick (Point.mk 50 50); KeyPress 97; KeyPress 98; KeyPress 99;
                KeyPress 100; KeyPress 101]; reflexivity).
  assert (Hin' : In 0 (vertices labelledWide)) by (vm_compute; left; reflexivity).
  destruct (radius_follows_label sampleMeasure labelledVertex 0 Hreach Hin) as [_ Hr].
  destruct (radius_follows_label sampleMeasure labelledWide 0 Hreach' Hin') as [_ Hr'].
  split; [rewrite Hr | rewrite Hr']; vm_compute; reflexivity.
Defined.

(** ** The Backspace key, in full *)

(** C10 (as stated): on an empty label Backspace is a no-op, and on any
    label it leaves the rest of the scene as it is.  It is not so.  With
    the mouse up the handler first records Backspace as the last key: with
    Shift held over a selected vertex with an empty label, the drag that
    would have created an edge creates none once Backspace has been
    pressed.  And the redraw recomputes the radius of a selected vertex:
    taking the last character off "abcde" brings the radius from 40 back
    to 30. *)
Lemma C10_backspace_writes_more_than_the_label :
  selectedObject shiftHeld = Some (VertexRef 1)
  /\ textOf shiftHeld (VertexRef 1) = []
  /\ fst (onkeydown sampleMeasure BACKSPACE shiftHeld) <> shiftHeld
  /\ lastKey shiftHeld = Some SHIFT
  /\ lastKey (fst (onkeydown sampleMeasure BACKSPACE shiftHeld)) = Some BACKSPACE
  /\ edges (run sampleMeasure
              [MouseDown (Point.mk 50 50); MouseMove (Point.mk 200 50);
               MouseUp (Point.mk 200 50)]
              shiftHeld) = [0]
  /\ edges (run sampleMeasure
              [MouseDown (Point.mk 50 50); MouseMove (Point.mk 200 50);
               MouseUp (Point.mk 200 50)]
              (fst (onkeydown sampleMeasure BACKSPACE shiftHeld))) = []
  /\ selectedObject labelledWide = Some (VertexRef 0)
  /\ textOf labelledWide (VertexRef 0) = js "abcde"
  /\ Vertex.radius (vertexHeap labelledWide !!! 0) = 40%float
  /\ Vertex.radius (vertexHeap (fst (onkeydown sampleMeasure BACKSPACE labelledWide)) !!! 0)
     = 30%float.
Proof.
  split; [vm_compute; reflexivity |]. split; [vm_compute; reflexivity |].
  split; [intros H; apply (f_equal lastKey) in H; vm_compute in H; discriminate H |].
  repeat split; vm_compute; reflexivity.
Qed.

(** C10 (amended): with an entity selected, the Backspace key completes
    without an error and removes the last code unit of the label of the
    selection; an empty label stays empty.  What else it writes is the
    record of the last key, which becomes Backspace when the mouse is up,
    and, through the redraw, the radius of the vertices.  Everything else
    is as before: the arrays, the selection, the edge under construction,
    the rest of the input state, every other label, every position and
    offset, the endpoints and the kind of every edge, every other edge
    object.  In a store the editor can reach the store after the key is
    given exactly: the store with the last key recorded, in which the
    selected object has its new label and, for a vertex, the radius that
    [Vertex.draw] computes for that label; with an empty label it is the
    store with the last key recorded and nothing else. *)
Theorem C10_backspace_trims_label (measureText : str -> float) (s : State) (o : Obj) :
  selectedObject s = Some o ->
  let s' := fst (onkeydown measureText BACKSPACE s) in
  let recorded := if mouseDown s then s else set_lastKey (Some BACKSPACE) s in
  snd (onkeydown measureText BACKSPACE s) = Normal
  /\ textOf s' o = removelast (textOf s o)
  /\ (textOf s o = [] -> textOf s' o = [])
  /\ (forall t c, textOf s o = t ++ [c] -> textOf s' o = t)
  /\ (forall o', o' <> o -> textOf s' o' = textOf s o')
  /\ vertices s' = vertices s
  /\ edges s' = edges s
  /\ selectedObject s' = selectedObject s
  /\ currentEdge s' = currentEdge s
  /\ (forall j, Vertex.x (vertexHeap s' !!! j) = Vertex.x (vertexHeap s !!! j)
                /\ Vertex.y (vertexHeap s' !!! j) = Vertex.y (vertexHeap s !!! j))
  /\ (forall j, Edge.v1 (edgeHeap s' !!! j) = Edge.v1 (edgeHeap s !!! j)
                /\ Edge.v2 (edgeHeap s' !!! j) = Edge.v2 (edgeHeap s !!! j)
                /\ Edge.kind (edgeHeap s' !!! j) = Edge.kind (edgeHeap s !!! j))
  /\ (forall j, EdgeRef j <> o -> edgeHeap s' !!! j = edgeHeap s !!! j)
  /\ (reachable measureText s ->
      forall j, VertexRef j <> o -> vertexHeap s' !!! j = vertexHeap s !!! j)
  /\ sourceMouse s' = sourceMouse s
  /\ movingObject s' = movingObject s
  /\ shift s' = shift s
  /\ ctrl s' = ctrl s
  /\ mouseDown s' = mouseDown s
  /\ lastKey s' = (if mouseDown s then lastKey s else Some BACKSPACE)
  /\ length (vertexHeap s') = length (vertexHeap s)
  /\ length (edgeHeap s') = length (edgeHeap s)
  /\ (forall j, Vertex.mouseOffsetX (vertexHeap s' !!! j)
                = Vertex.mouseOffsetX (vertexHeap s !!! j)
                /\ Vertex.mouseOffsetY (vertexHeap s' !!! j)
                   = Vertex.mouseOffsetY (vertexHeap s !!! j))
  /\ (reachable measureText s ->
      s' = match o with
           | VertexRef v =>
               set_vertexHeap
                 (<[v := fst (Vertex.draw measureText Canvas2D
                                (Vertex.set_text (removelast (textOf s o))
                                   (vertexHeap s !!! v)))]> (vertexHeap s))
                 recorded
           | EdgeRef e =>
               set_edgeHeap
                 (<[e := Edge.set_text (removelast (textOf s o)) (edgeHeap s !!! e)]>
                    (edgeHeap s))
                 recorded
           end)
  /\ (reachable measureText s -> textOf s o = [] -> s' = recorded).
Proof.
  intros Hsel. cbv zeta.
  destruct (backspace_label_frame measureText s o Hsel)
    as (P1 & P2 & P3 & P4 & P5 & P6 & P7 & P8 & P9 & P10 & P11 & P12 & P13).
  do 12 (split; [assumption |]). split; [exact P13 |].
  set (s0 := if mouseDown s then s else set_lastKey (Some BACKSPACE) s).
  assert (Hst : fst (onkeydown measureText BACKSPACE s)
                = fst (draw measureText (setText o (removelast (textOf s o)) s0))).
  { unfold onkeydown.
    replace (BACKSPACE =? SHIFT)%Z with false by reflexivity.
    replace (BACKSPACE =? CTRL)%Z with false by reflexivity.
    replace (BACKSPACE =? BACKSPACE)%Z with true by reflexivity.
    fold s0.
    assert (Hsel0 : selectedObject s0 = Some o)
      by (subst s0; destruct (mouseDown s); exact Hsel).
    assert (Htext0 : textOf s0 o = textOf s o)
      by (subst s0; destruct (mouseDown s); reflexivity).
    rewrite Hsel0, substr_drop_last, Htext0. reflexivity. }
  assert (H0 : sourceMouse s0 = sourceMouse s /\ movingObject s0 = movingObject s
               /\ shift s0 = shift s /\ ctrl s0 = ctrl s /\ mouseDown s0 = mouseDown s
               /\ lastKey s0 = (if mouseDown s then lastKey s else Some BACKSPACE)
               /\ vertexHeap s0 = vertexHeap s /\ edgeHeap s0 = edgeHeap s
               /\ vertices s0 = vertices s).
  { subst s0. destruct (mouseDown s) eqn:Hd; repeat split; exact Hd. }
  destruct H0 as (Q1 & Q2 & Q3 & Q4 & Q5 & Q6 & Q7 & Q8 & Q9).
  assert (Hinput :
    sourceMouse (fst (draw measureText (setText o (removelast (textOf s o)) s0)))
    = sourceMouse s0
    /\ movingObject (fst (draw measureText (setText o (removelast (textOf s o)) s0)))
       = movingObject s0
    /\ shift (fst (draw measureText (setText o (removelast (textOf s o)) s0))) = shift s0
    /\ ctrl (fst (draw measureText (setText o (removelast (textOf s o)) s0))) = ctrl s0
    /\ mouseDown (fst (draw measureText (setText o (removelast (textOf s o)) s0)))
       = mouseDown s0
    /\ lastKey (fst (draw measureText (setText o (removelast (textOf s o)) s0)))
       = lastKey s0
    /\ length (vertexHeap (fst (draw measureText (setText o (removelast (textOf s o)) s0))))
       = length (vertexHeap s0)
    /\ length (edgeHeap (fst (draw measureText (setText o (removelast (textOf s o)) s0))))
       = length (edgeHeap s0)).
  { rewrite draw_store.
    match goal with
    | |- context [drawVertices measureText Canvas2D ?ids ?h] =>
        destruct (drawVertices_spec measureText Canvas2D ids h) as (_ & Hlen & _)
    end.
    destruct o as [v | e];
      cbn [setText sourceMouse movingObject shift ctrl mouseDown lastKey vertexHeap edgeHeap
           vertices set_vertexHeap set_edgeHeap] in *;
      rewrite ?Hlen, ?length_insert; repeat split. }
  destruct Hinput as (I1 & I2 & I3 & I4 & I5 & I6 & I7 & I8).
  rewrite Hst.
  split; [congruence |]. split; [congruence |]. split; [congruence |].
  split; [congruence |]. split; [congruence |]. split; [congruence |].
  split; [congruence |]. split; [congruence |].
  split.
  { intros j.
    destruct (draw_vertex_frame measureText (setText o (removelast (textOf s o)) s0) j)
      as (_ & _ & _ & Hox & Hoy).
    rewrite Hox, Hoy. destruct o as [v | e]; cbn [setText vertexHeap set_vertexHeap set_edgeHeap];
      rewrite Q7; [| split; reflexivity].
    rewrite list_lookup_total_insert.
    case_decide as Hd; [destruct Hd as [-> _] |]; split; reflexivity. }
  assert (Hfull : reachable measureText s ->
            fst (draw measureText (setText o (removelast (textOf s o)) s0))
            = match o with
              | VertexRef v =>
                  set_vertexHeap
                    (<[v := fst (Vertex.draw measureText Canvas2D
                                   (Vertex.set_text (removelast (textOf s o))
                                      (vertexHeap s !!! v)))]> (vertexHeap s))
                    s0
              | EdgeRef e =>
                  set_edgeHeap
                    (<[e := Edge.set_text (removelast (textOf s o)) (edgeHeap s !!! e)]>
                       (edgeHeap s))
                    s0
              end).
  { intros Hreach.
    destruct (selected_live measureText s o Hreach Hsel) as [Hin _].
    pose proof (drawn_reachable measureText s Hreach) as Hd.
    destruct (consistent_reachable measureText s Hreach) as (Hnd & _ & _).
    rewrite (retext_store measureText s0 o).
    - destruct o as [v | e]; cbn [setText]; rewrite ?Q7, ?Q8; reflexivity.
    - intros v Hv. rewrite Q9 in Hv. rewrite Q7. apply Hd. exact Hv.
    - rewrite Q9. exact Hnd.
    - destruct o as [v | e]; cbn [inScene] in *; [rewrite Q9; exact Hin |].
      subst s0. destruct (mouseDown s); exact Hin. }
  split; [exact Hfull |].
  intros Hreach Hnil. rewrite (Hfull Hreach), Hnil. cbn [removelast].
  destruct (selected_live measureText s o Hreach Hsel) as [Hin _].
  destruct o as [v | e]; cbn [textOf inScene] in *.
  - replace (Vertex.set_text [] (vertexHeap s !!! v)) with (vertexHeap s !!! v)
      by (rewrite <- Hnil; destruct (vertexHeap s !!! v); reflexivity).
    rewrite upToDate_fixed by (apply (drawn_reachable measureText s Hreach); exact Hin).
    rewrite insert_same. rewrite <- Q7. destruct s0; reflexivity.
  - replace (Edge.set_text [] (edgeHeap s !!! e)) with (edgeHeap s !!! e)
      by (rewrite <- Hnil; destruct (edgeHeap s !!! e); reflexivity).
    rewrite insert_same_edge. rewrite <- Q8. destruct s0; reflexivity.
Qed.

(** Backspace on the selected vertex labelled "ab" leaves the label "a" and,
    the mouse being up, records the key; on the empty label of the vertex
    selected while Shift is held, it records the key and does nothing
    else. *)
Lemma C10_backspace_on_ab :
  selectedObject labelledVertex = Some (VertexRef 0)
  /\ textOf labelledVertex (VertexRef 0) = js "ab"
  /\ snd (onkeydown sampleMeasure BACKSPACE labelledVertex) = Normal
  /\ textOf (fst (onkeydown sampleMeasure BACKSPACE labelledVertex)) (VertexRef 0) = js "a"
  /\ lastKey (fst (onkeydown sampleMeasure BACKSPACE labelledVertex)) = Some BACKSPACE
  /\ fst (onkeydown sampleMeasure BACKSPACE shiftHeld)
     = set_lastKey (Some BACKSPACE) shiftHeld.
Proof.
  assert (Hsel : selectedObject labelledVertex = Some (VertexRef 0)) by (vm_compute; reflexivity).
  assert (Hsel' : selectedObject shiftHeld = Some (VertexRef 1)) by (vm_compute; reflexivity).
  assert (Hreach' : reachable sampleMeasure shiftHeld)
    by (exists (twoVertices ++ [KeyDown SHIFT]); reflexivity).
  split; [exact Hsel |]. split; [vm_compute; reflexivity |].
  destruct (C10_backspace_trims_label sampleMeasure labelledVertex (VertexRef 0) Hsel)
    as (Hn & Ht & _ & _ & _ & _ & _ & _ & _ & _ & _ & _ & _ & _ & _ & _ & _ & _ & Hk & _).
  pose proof (C10_backspace_trims_label sampleMeasure shiftHeld (VertexRef 1) Hsel') as Hall.
  cbv zeta in Hall. do 23 apply proj2 in Hall.
  split; [exact Hn |]. split; [rewrite Ht; vm_compute; reflexivity |].
  split; [rewrite Hk; vm_compute; reflexivity |].
  rewrite (Hall Hreach') by (vm_compute; reflexivity). vm_compute. reflexivity.
Defined.
